(** * cc-skills: the scripts of the frontend-react-component skill

    A shallow embedding of the three Node scripts of
    [skills/frontend-react-component/scripts]:

    - the component scaffolder ([generate-component.js], [createComponent]),
    - the style validator ([validateCSS], [validateFile]),
    - the type generator ([type-generator.ts], [generateFromJSON],
      [generateFromGraphQL], [generateTypeScriptTypes]),

    together with the part of the JavaScript runtime they rely on (strings,
    regular expressions, [String.prototype.replace], JSON values).

    JavaScript strings are sequences of UTF-16 code units; a code unit is a
    number of type [N].  Literals are written with [str]. *)

From Stdlib Require Import NArith String Ascii DecimalString Lia Sorted.
From stdpp Require Import gmap list.

Set Warnings "-register-all".
Local Open Scope N_scope.

(** ** JavaScript strings *)

Module JS.

Abbreviation jsstring := (list N).

Definition str (s : string) : jsstring :=
  List.map N_of_ascii (list_ascii_of_string s).

(** The double quote, which the literals of this file do not contain. *)
Definition dq : jsstring := [34].

(** Line feed, the separator of [split('\n')] and [join('\n')]. *)
Definition LF : N := 10.

Definition inRange (lo hi c : N) : bool := (lo <=? c) && (c <=? hi).

Definition isLower (c : N) : bool := inRange 97 122 c.
Definition isUpper (c : N) : bool := inRange 65 90 c.
Definition isDigit (c : N) : bool := inRange 48 57 c.

(** [\w] of a regular expression without the [u] and [i] flags. *)
Definition isWordChar (c : N) : bool :=
  isLower c || isUpper c || isDigit c || (c =? 95).

(** WhiteSpace and LineTerminator of ECMAScript: the characters that
    [String.prototype.trim] removes and that [\s] matches. *)
Definition isWhiteSpace (c : N) : bool :=
  inRange 9 13 c || (c =? 32) || (c =? 160) || (c =? 5760)
  || inRange 8192 8202 c || (c =? 8232) || (c =? 8233) || (c =? 8239)
  || (c =? 8287) || (c =? 12288) || (c =? 65279).

Fixpoint eqs (a b : jsstring) : bool :=
  match a, b with
  | [], [] => true
  | x :: a', y :: b' => (x =? y) && eqs a' b'
  | _, _ => false
  end.

(** [s.startsWith(p)] *)
Fixpoint startsWith (p s : jsstring) : bool :=
  match p with
  | [] => true
  | x :: p' =>
      match s with
      | [] => false
      | y :: s' => (x =? y) && startsWith p' s'
      end
  end.

(** [s.includes(p)] *)
Fixpoint includes (p s : jsstring) : bool :=
  startsWith p s ||
  match s with
  | [] => false
  | _ :: s' => includes p s'
  end.

(** [s.split(sep)] for a separator of one code unit (['\n'], ['{']). *)
Fixpoint split (sep : N) (s : jsstring) : list jsstring :=
  match s with
  | [] => [[]]
  | c :: s' =>
      if c =? sep then [] :: split sep s'
      else match split sep s' with
           | piece :: rest => (c :: piece) :: rest
           | [] => [[c]]
           end
  end.

(** [pieces.join(sep)] *)
Fixpoint join (sep : jsstring) (pieces : list jsstring) : jsstring :=
  match pieces with
  | [] => []
  | [p] => p
  | p :: rest => p ++ sep ++ join sep rest
  end.

Fixpoint trimStart (s : jsstring) : jsstring :=
  match s with
  | c :: s' => if isWhiteSpace c then trimStart s' else s
  | [] => []
  end.

Definition trimEnd (s : jsstring) : jsstring := rev (trimStart (rev s)).

(** [s.trim()] *)
Definition trim (s : jsstring) : jsstring := trimEnd (trimStart s).

(** [s.toLowerCase()].  Exact on code units below 128; the Unicode case
    mapping of the other code units is not modelled (they are left as they
    are), and the statements that depend on it are about ASCII names. *)
Definition lowerChar (c : N) : N := if isUpper c then c + 32 else c.
Definition toLowerCase (s : jsstring) : jsstring := List.map lowerChar s.

(** Decimal rendering of a non-negative integer, as [String(n)] gives it. *)
Definition natToString (n : nat) : jsstring :=
  str (NilEmpty.string_of_uint (Nat.to_uint n)).

(** ** Regular expressions

    A backtracking matcher in continuation-passing style, after the
    semantics of ECMAScript patterns (no flags other than [g]): greedy
    repetition, leftmost alternative first, capture groups, [^] and [$]
    at the ends of the input only, and the word boundary [\b]. *)

Inductive regex : Type :=
| Chr (p : N -> bool)          (* a literal, a class, a negated class *)
| Bol                          (* ^ *)
| Eol                          (* $ *)
| WordB                        (* \b *)
| Eps
| Seq (r1 r2 : regex)
| Alt (r1 r2 : regex)          (* r1|r2 *)
| Star (r : regex)             (* r*, greedy *)
| Group (i : nat) (r : regex). (* the i-th capturing group *)

Definition Plus (r : regex) : regex := Seq r (Star r).
Definition Opt (r : regex) : regex := Alt r Eps.
(** A literal text: its characters one after the other. *)
Definition litOf (l : list ascii) : regex :=
  fold_right (fun a r => Seq (Chr (N.eqb (N_of_ascii a))) r) Eps l.
Definition Lit (c : string) : regex := litOf (list_ascii_of_string c).

(** A position in the input: the text before it (reversed), the text
    after it, and the captures made so far. *)
Record mstate : Type := MState {
  before : jsstring;
  after : jsstring;
  caps : list (nat * jsstring)
}.

Definition isWordAt (s : jsstring) : bool :=
  match s with c :: _ => isWordChar c | [] => false end.

Definition consumed (st st' : mstate) : jsstring :=
  firstn (length (after st) - length (after st')) (after st).

Fixpoint starLoop (body : (mstate -> option mstate) -> mstate -> option mstate)
    (fuel : nat) (k : mstate -> option mstate) (st : mstate) : option mstate :=
  match fuel with
  | O => k st
  | S fuel' =>
      match body (fun st' =>
                    if (length (after st') <? length (after st))%nat
                    then starLoop body fuel' k st'
                    else None) st with
      | Some e => Some e
      | None => k st
      end
  end.

Fixpoint rmatch (r : regex) (k : mstate -> option mstate) (st : mstate)
    : option mstate :=
  match r with
  | Chr p =>
      match after st with
      | c :: rest =>
          if p c then k (MState (c :: before st) rest (caps st)) else None
      | [] => None
      end
  | Bol => match before st with [] => k st | _ :: _ => None end
  | Eol => match after st with [] => k st | _ :: _ => None end
  | WordB =>
      if xorb (isWordAt (before st)) (isWordAt (after st)) then k st else None
  | Eps => k st
  | Seq r1 r2 => rmatch r1 (rmatch r2 k) st
  | Alt r1 r2 =>
      match rmatch r1 k st with
      | Some e => Some e
      | None => rmatch r2 k st
      end
  | Star r' => starLoop (rmatch r') (S (length (after st))) k st
  | Group i r' =>
      rmatch r' (fun st' =>
        k (MState (before st') (after st')
                  ((i, consumed st st') :: caps st'))) st
  end.

(** The result of a successful match: its index, the matched text and
    the captures. *)
Record jsmatch : Type := Match {
  index : nat;
  matched : jsstring;
  groups : list (nat * jsstring)
}.

Definition matchHere (r : regex) (pre rest : jsstring) : option jsmatch :=
  match rmatch r Some (MState pre rest []) with
  | Some e =>
      Some (Match (length pre) (consumed (MState pre rest []) e) (caps e))
  | None => None
  end.

(** [r.exec(s)] for a pattern without the [g] flag: the first position,
    from the left, at which the pattern matches. *)
Fixpoint execFrom (r : regex) (pre rest : jsstring) : option jsmatch :=
  match matchHere r pre rest with
  | Some m => Some m
  | None =>
      match rest with
      | c :: rest' => execFrom r (c :: pre) rest'
      | [] => None
      end
  end.

Definition exec (r : regex) (s : jsstring) : option jsmatch := execFrom r [] s.

(** [r.test(s)] *)
Definition test (r : regex) (s : jsstring) : bool :=
  match exec r s with Some _ => true | None => false end.

(** The [n]-th capture of a match; [None] is [undefined]. *)
Fixpoint capture (n : nat) (g : list (nat * jsstring)) : option jsstring :=
  match g with
  | [] => None
  | (i, t) :: g' => if Nat.eqb i n then Some t else capture n g'
  end.

(** The input cut by the successive matches of a pattern with the [g]
    flag: the code units outside the matches, and the matches.  After a
    match the search resumes at its end, one further when it is empty. *)
Inductive piece : Type :=
| Keep (c : N)
| Hit (m : jsmatch).

Fixpoint walk (r : regex) (skip : nat) (pre rest : jsstring) : list piece :=
  match skip with
  | S skip' =>
      match rest with
      | c :: rest' => walk r skip' (c :: pre) rest'
      | [] => []
      end
  | O =>
      match matchHere r pre rest with
      | Some m =>
          Hit m ::
          match rest with
          | c :: rest' =>
              match length (matched m) with
              | O => Keep c :: walk r 0 (c :: pre) rest'
              | S l => walk r l (c :: pre) rest'
              end
          | [] => []
          end
      | None =>
          match rest with
          | c :: rest' => Keep c :: walk r 0 (c :: pre) rest'
          | [] => []
          end
      end
  end.

(** [s.match(r)] for [r] with the [g] flag; the empty list is [null]. *)
Definition matchAll (r : regex) (s : jsstring) : list jsstring :=
  flat_map (fun p => match p with Hit m => [matched m] | Keep _ => [] end)
           (walk r 0 [] s).

(** GetSubstitution, for patterns without capture groups: [$$] is a
    dollar, [$&] the match, [$`] the text before it, [$'] the text after
    it; [$1] and the like stay as they are written. *)
Fixpoint getSubstitution (m : jsmatch) (s : jsstring) (repl : jsstring)
    : jsstring :=
  match repl with
  | [] => []
  | 36 :: rest =>
      match rest with
      | 36 :: rest' => 36 :: getSubstitution m s rest'
      | 38 :: rest' => matched m ++ getSubstitution m s rest'
      | 96 :: rest' => firstn (index m) s ++ getSubstitution m s rest'
      | 39 :: rest' =>
          skipn (index m + length (matched m)) s ++ getSubstitution m s rest'
      | _ => 36 :: getSubstitution m s rest
      end
  | c :: rest => c :: getSubstitution m s rest
  end.

(** [s.replace(r, repl)] for [r] with the [g] flag and without groups. *)
Definition replaceAll (r : regex) (repl : jsstring) (s : jsstring) : jsstring :=
  flat_map (fun p => match p with
                     | Keep c => [c]
                     | Hit m => getSubstitution m s repl
                     end)
           (walk r 0 [] s).

(** [s.replace(c, '')] for a string pattern of one code unit: the first
    occurrence is removed. *)
Fixpoint removeFirst (c : N) (s : jsstring) : jsstring :=
  match s with
  | [] => []
  | x :: s' => if x =? c then s' else x :: removeFirst c s'
  end.

End JS.

(** ** The style validator ([validateCSS], [validateFile]) *)

Module Validator.
Import JS.

Record ValidateResult : Type := {
  valid : bool;
  vmessage : jsstring
}.

(** A rule of [validationRules] is an object with a [pattern] and a
    [message], or an object with a [validate] function. *)
Inductive ValidationRule : Type :=
| PatternRule (pattern : regex) (message : jsstring)
| PredicateRule (validate : jsstring -> ValidateResult).

Definition rule_pattern (r : ValidationRule) : option (regex * jsstring) :=
  match r with
  | PatternRule p m => Some (p, m)
  | PredicateRule _ => None
  end.

Definition rule_validate (r : ValidationRule)
    : option (jsstring -> ValidateResult) :=
  match r with
  | PatternRule _ _ => None
  | PredicateRule v => Some v
  end.

Definition isAlnum (c : N) : bool := isLower c || isUpper c || isDigit c.

(** [/^[a-z][a-zA-Z0-9]*$/] *)
Definition classNaming_pattern : regex :=
  Seq Bol (Seq (Chr isLower) (Seq (Star (Chr isAlnum)) Eol)).

(** [/^[^#]*$/], [/^[^*]*$/] and [/^[^!]*$/] *)
Definition noneOf (c : N) : regex :=
  Seq Bol (Seq (Star (Chr (fun x => negb (x =? c)))) Eol).

(** [/\b\d+px\b/g] *)
Definition px_pattern : regex :=
  Seq WordB (Seq (Plus (Chr isDigit)) (Seq (Lit "px") WordB)).

(** [/\b\d+(rem|em)\b/g] *)
Definition remEm_pattern : regex :=
  Seq WordB (Seq (Plus (Chr isDigit))
                 (Seq (Group 1 (Alt (Lit "rem") (Lit "em"))) WordB)).

Definition classNaming : ValidationRule :=
  PatternRule classNaming_pattern
    (str "Class names should use camelCase starting with a lowercase letter").

Definition noIds : ValidationRule :=
  PatternRule (noneOf 35) (str "Avoid using ID selectors (#) in CSS modules").

Definition noUniversal : ValidationRule :=
  PatternRule (noneOf 42)
    (str "Avoid using universal selector (" ++ str "*) in CSS modules").

Definition preferRelativeUnits : ValidationRule :=
  PredicateRule (fun css =>
    let pxMatches := length (matchAll px_pattern css) in
    let remEmMatches := length (matchAll remEm_pattern css) in
    {| valid := (0 <? remEmMatches)%nat || Nat.eqb pxMatches 0;
       vmessage := str "Found " ++ natToString pxMatches
         ++ str " px units. Consider using rem/em for better accessibility" |}).

Definition noImportant : ValidationRule :=
  PatternRule (noneOf 33) (str "Avoid using !important in CSS modules").

(** [Object.entries(validationRules)], in the order of the literal. *)
Definition validationRules : list (jsstring * ValidationRule) :=
  [ (str "classNaming", classNaming);
    (str "noIds", noIds);
    (str "noUniversal", noUniversal);
    (str "preferRelativeUnits", preferRelativeUnits);
    (str "noImportant", noImportant) ].

Record ValidationIssue : Type := Issue {
  line : nat;
  rule : jsstring;
  message : jsstring;
  content : jsstring
}.

(** The issues of the selector of one line: a rule with a pattern that
    the selector does not match gives one issue. *)
Definition selectorIssues (lineNum : nat) (selector : jsstring)
    : list ValidationIssue :=
  flat_map (fun entry : jsstring * ValidationRule =>
              let (ruleName, r) := entry in
              match rule_pattern r with
              | Some (pattern, msg) =>
                  if negb (test pattern selector)
                  then [Issue lineNum ruleName msg selector]
                  else []
              | None => []
              end)
           validationRules.

(** The check of one rule's [validate] on the trimmed line, under the
    rule name [ruleName]; a rule without [validate] checks nothing. *)
Definition validateIssues (r : ValidationRule) (ruleName : jsstring)
    (lineNum : nat) (trimmed : jsstring) : list ValidationIssue :=
  match rule_validate r with
  | Some validate =>
      let result := validate trimmed in
      if negb (valid result)
      then [Issue lineNum ruleName (vmessage result) trimmed]
      else []
  | None => []
  end.

(** The body of the [forEach] callback of [validateCSS]. *)
Definition validateLine (index : nat) (ln : jsstring) : list ValidationIssue :=
  let lineNum := (index + 1)%nat in
  let trimmed := trim ln in
  if eqs trimmed [] || startsWith (str "/*") trimmed
     || startsWith (str "//") trimmed
  then []
  else
    (if includes (str "{") trimmed
     then
       let selector := trim (hd [] (split 123 trimmed)) in
       selectorIssues lineNum selector
       ++ validateIssues noImportant (str "noImportant") lineNum trimmed
     else [])
    ++ validateIssues preferRelativeUnits (str "preferRelativeUnits")
         lineNum trimmed.

Fixpoint forEachLine (index : nat) (lines : list jsstring)
    : list ValidationIssue :=
  match lines with
  | [] => []
  | ln :: rest => validateLine index ln ++ forEachLine (S index) rest
  end.

Definition validateCSS (content filePath : jsstring) : list ValidationIssue :=
  forEachLine 0 (split LF content).

(** [fs.readFileSync(filePath, 'utf8')] returns the content of the file or
    throws an error with a message. *)
Inductive ReadResult : Type :=
| ReadOk (content : jsstring)
| ReadError (errorMessage : jsstring).

Definition validateFile (readFileSync : jsstring -> ReadResult)
    (filePath : jsstring) : list ValidationIssue :=
  match readFileSync filePath with
  | ReadOk content => validateCSS content filePath
  | ReadError msg =>
      [Issue 0 (str "fileError") (str "Could not read file: " ++ msg) []]
  end.

End Validator.


(** ** The component scaffolder ([createComponent]) *)

Module Scaffolder.
Import JS.

Definition unlines : list jsstring -> jsstring := join [LF].

(** The [templates] object: the component source of each template type,
    one element of the list per line of the template literal. *)
Module templates.

Definition simple : jsstring := unlines [
  str "import React from 'react';";
  str "import styles from './{{ComponentName}}.module.css';";
  [];
  str "export interface {{ComponentName}}Props {";
  str "  children?: React.ReactNode;";
  str "  className?: string;";
  str "  variant?: 'primary' | 'secondary';";
  str "}";
  [];
  str "export const {{ComponentName}}: React.FC<{{ComponentName}}Props> = ({";
  str "  children,";
  str "  className,";
  str "  variant = 'primary'";
  str "}) => {";
  str "  return (";
  str "    <div className={`${styles.{{componentName}}} ${styles[variant]} ${className || ''}`}>";
  str "      {children}";
  str "    </div>";
  str "  );";
  str "};";
  [];
  str "export default {{ComponentName}};"
].

Definition interactive : jsstring := unlines [
  str "import React, { useState, useCallback } from 'react';";
  str "import styles from './{{ComponentName}}.module.css';";
  [];
  str "export interface {{ComponentName}}Props {";
  str "  initialValue?: boolean;";
  str "  onToggle?: (value: boolean) => void;";
  str "  disabled?: boolean;";
  str "  className?: string;";
  str "}";
  [];
  str "export const {{ComponentName}}: React.FC<{{ComponentName}}Props> = ({";
  str "  initialValue = false,";
  str "  onToggle,";
  str "  disabled = false,";
  str "  className";
  str "}) => {";
  str "  const [isActive, setIsActive] = useState(initialValue);";
  [];
  str "  const handleToggle = useCallback(() => {";
  str "    if (disabled) return;";
  [];
  str "    const newValue = !isActive;";
  str "    setIsActive(newValue);";
  str "    onToggle?.(newValue);";
  str "  }, [isActive, disabled, onToggle]);";
  [];
  str "  return (";
  str "    <button";
  str "      className={`${styles.{{componentName}}} ${isActive ? styles.active : ''} ${disabled ? styles.disabled : ''} ${className || ''}`}";
  str "      onClick={handleToggle}";
  str "      disabled={disabled}";
  str "      type=" ++ dq ++ str "button" ++ dq;
  str "    >";
  str "      {isActive ? 'Active' : 'Inactive'}";
  str "    </button>";
  str "  );";
  str "};";
  [];
  str "export default {{ComponentName}};"
].

Definition data : jsstring := unlines [
  str "import React, { useEffect, useState } from 'react';";
  str "import styles from './{{ComponentName}}.module.css';";
  [];
  str "export interface DataItem {";
  str "  id: string;";
  str "  name: string;";
  str "  // Add other properties based on your API response";
  str "}";
  [];
  str "export interface {{ComponentName}}Props {";
  str "  url: string;";
  str "  renderItem?: (item: DataItem) => React.ReactNode;";
  str "  className?: string;";
  str "}";
  [];
  str "export const {{ComponentName}}: React.FC<{{ComponentName}}Props> = ({";
  str "  url,";
  str "  renderItem,";
  str "  className";
  str "}) => {";
  str "  const [data, setData] = useState<DataItem[]>([]);";
  str "  const [loading, setLoading] = useState(true);";
  str "  const [error, setError] = useState<string | null>(null);";
  [];
  str "  useEffect(() => {";
  str "    const fetchData = async () => {";
  str "      try {";
  str "        setLoading(true);";
  str "        setError(null);";
  [];
  str "        const response = await fetch(url);";
  str "        if (!response.ok) {";
  str "          throw new Error(`HTTP error! status: ${response.status}`);";
  str "        }";
  [];
  str "        const result = await response.json();";
  str "        setData(result);";
  str "      } catch (err) {";
  str "        setError(err instanceof Error ? err.message : 'An error occurred');";
  str "      } finally {";
  str "        setLoading(false);";
  str "      }";
  str "    };";
  [];
  str "    fetchData();";
  str "  }, [url]);";
  [];
  str "  if (loading) {";
  str "    return <div className={`${styles.{{componentName}}} ${styles.loading} ${className || ''}`}>Loading...</div>;";
  str "  }";
  [];
  str "  if (error) {";
  str "    return <div className={`${styles.{{componentName}}} ${styles.error} ${className || ''}`}>Error: {error}</div>;";
  str "  }";
  [];
  str "  return (";
  str "    <div className={`${styles.{{componentName}}} ${className || ''}`}>";
  str "      {data.map((item) => (";
  str "        <div key={item.id} className={styles.item}>";
  str "          {renderItem ? renderItem(item) : <div>{item.name}</div>}";
  str "        </div>";
  str "      ))}";
  str "    </div>";
  str "  );";
  str "};";
  [];
  str "export default {{ComponentName}};"
].

Definition form : jsstring := unlines [
  str "import React, { useState, useCallback, FormEvent } from 'react';";
  str "import styles from './{{ComponentName}}.module.css';";
  [];
  str "export interface FormData {";
  str "  email: string;";
  str "  password: string;";
  str "  // Add other form fields as needed";
  str "}";
  [];
  str "export interface FormErrors {";
  str "  email?: string;";
  str "  password?: string;";
  str "}";
  [];
  str "export interface {{ComponentName}}Props {";
  str "  onSubmit: (data: FormData) => Promise<void>;";
  str "  initialValues?: Partial<FormData>;";
  str "  submitButtonText?: string;";
  str "  className?: string;";
  str "}";
  [];
  str "export const {{ComponentName}}: React.FC<{{ComponentName}}Props> = ({";
  str "  onSubmit,";
  str "  initialValues,";
  str "  submitButtonText = 'Submit',";
  str "  className";
  str "}) => {";
  str "  const [formData, setFormData] = useState<FormData>({";
  str "    email: initialValues?.email || '',";
  str "    password: initialValues?.password || ''";
  str "  });";
  [];
  str "  const [errors, setErrors] = useState<FormErrors>({});";
  str "  const [isSubmitting, setIsSubmitting] = useState(false);";
  [];
  str "  const validateForm = useCallback((): boolean => {";
  str "    const newErrors: FormErrors = {};";
  [];
  str "    if (!formData.email) {";
  str "      newErrors.email = 'Email is required';";
  str "    } else if (!/^[^\s@]+@[^\s@]+\.[^\s@]+$/.test(formData.email)) {";
  str "      newErrors.email = 'Invalid email address';";
  str "    }";
  [];
  str "    if (!formData.password) {";
  str "      newErrors.password = 'Password is required';";
  str "    } else if (formData.password.length < 8) {";
  str "      newErrors.password = 'Password must be at least 8 characters';";
  str "    }";
  [];
  str "    setErrors(newErrors);";
  str "    return Object.keys(newErrors).length === 0;";
  str "  }, [formData]);";
  [];
  str "  const handleSubmit = useCallback(async (e: FormEvent) => {";
  str "    e.preventDefault();";
  [];
  str "    if (!validateForm()) return;";
  [];
  str "    setIsSubmitting(true);";
  str "    try {";
  str "      await onSubmit(formData);";
  str "    } catch (error) {";
  str "      console.error('Form submission error:', error);";
  str "    } finally {";
  str "      setIsSubmitting(false);";
  str "    }";
  str "  }, [formData, validateForm, onSubmit]);";
  [];
  str "  const handleInputChange = useCallback((field: keyof FormData) => {";
  str "    return (e: React.ChangeEvent<HTMLInputElement>) => {";
  str "      setFormData(prev => ({ ...prev, [field]: e.target.value }));";
  str "      // Clear error when user starts typing";
  str "      if (errors[field]) {";
  str "        setErrors(prev => ({ ...prev, [field]: undefined }));";
  str "      }";
  str "    };";
  str "  }, [errors]);";
  [];
  str "  return (";
  str "    <form onSubmit={handleSubmit} className={`${styles.{{componentName}}} ${className || ''}`}>";
  str "      <div className={styles.field}>";
  str "        <label htmlFor=" ++ dq ++ str "email" ++ dq ++ str " className={styles.label}>";
  str "          Email";
  str "        </label>";
  str "        <input";
  str "          id=" ++ dq ++ str "email" ++ dq;
  str "          type=" ++ dq ++ str "email" ++ dq;
  str "          value={formData.email}";
  str "          onChange={handleInputChange('email')}";
  str "          className={`${styles.input} ${errors.email ? styles.error : ''}`}";
  str "          disabled={isSubmitting}";
  str "        />";
  str "        {errors.email && <span className={styles.errorMessage}>{errors.email}</span>}";
  str "      </div>";
  [];
  str "      <div className={styles.field}>";
  str "        <label htmlFor=" ++ dq ++ str "password" ++ dq ++ str " className={styles.label}>";
  str "          Password";
  str "        </label>";
  str "        <input";
  str "          id=" ++ dq ++ str "password" ++ dq;
  str "          type=" ++ dq ++ str "password" ++ dq;
  str "          value={formData.password}";
  str "          onChange={handleInputChange('password')}";
  str "          className={`${styles.input} ${errors.password ? styles.error : ''}`}";
  str "          disabled={isSubmitting}";
  str "        />";
  str "        {errors.password && <span className={styles.errorMessage}>{errors.password}</span>}";
  str "      </div>";
  [];
  str "      <button";
  str "        type=" ++ dq ++ str "submit" ++ dq;
  str "        disabled={isSubmitting}";
  str "        className={styles.submitButton}";
  str "      >";
  str "        {isSubmitting ? 'Submitting...' : submitButtonText}";
  str "      </button>";
  str "    </form>";
  str "  );";
  str "};";
  [];
  str "export default {{ComponentName}};"
].

End templates.

(** The [cssTemplates] object. *)
Module cssTemplates.

Definition simple : jsstring := unlines [
  str ".{{componentName}} {";
  str "  display: inline-block;";
  str "  padding: 8px 16px;";
  str "  border: 1px solid #ccc;";
  str "  border-radius: 4px;";
  str "  font-size: 14px;";
  str "  cursor: pointer;";
  str "  transition: all 0.2s;";
  str "}";
  [];
  str ".{{componentName}}:hover {";
  str "  background-color: #f5f5f5;";
  str "}";
  [];
  str ".primary {";
  str "  background-color: #007bff;";
  str "  color: white;";
  str "  border-color: #007bff;";
  str "}";
  [];
  str ".primary:hover {";
  str "  background-color: #0056b3;";
  str "}";
  [];
  str ".secondary {";
  str "  background-color: #6c757d;";
  str "  color: white;";
  str "  border-color: #6c757d;";
  str "}";
  [];
  str ".secondary:hover {";
  str "  background-color: #545b62;";
  str "}"
].

Definition interactive : jsstring := unlines [
  str ".{{componentName}} {";
  str "  padding: 8px 16px;";
  str "  border: 1px solid #ccc;";
  str "  border-radius: 4px;";
  str "  background-color: white;";
  str "  cursor: pointer;";
  str "  transition: all 0.2s;";
  str "  font-size: 14px;";
  str "}";
  [];
  str ".{{componentName}}.active {";
  str "  background-color: #007bff;";
  str "  color: white;";
  str "  border-color: #007bff;";
  str "}";
  [];
  str ".{{componentName}}.disabled {";
  str "  opacity: 0.6;";
  str "  cursor: not-allowed;";
  str "}";
  [];
  str ".{{componentName}}:not(.disabled):hover {";
  str "  background-color: #f5f5f5;";
  str "}";
  [];
  str ".{{componentName}}.active:hover {";
  str "  background-color: #0056b3;";
  str "}"
].

Definition data : jsstring := unlines [
  str ".{{componentName}} {";
  str "  padding: 16px;";
  str "}";
  [];
  str ".{{componentName}}.loading {";
  str "  display: flex;";
  str "  justify-content: center;";
  str "  align-items: center;";
  str "  height: 200px;";
  str "  font-size: 16px;";
  str "  color: #666;";
  str "}";
  [];
  str ".{{componentName}}.error {";
  str "  color: #dc3545;";
  str "  text-align: center;";
  str "  padding: 16px;";
  str "}";
  [];
  str ".item {";
  str "  padding: 8px 0;";
  str "  border-bottom: 1px solid #eee;";
  str "}";
  [];
  str ".item:last-child {";
  str "  border-bottom: none;";
  str "}"
].

Definition form : jsstring := unlines [
  str ".{{componentName}} {";
  str "  max-width: 400px;";
  str "  padding: 24px;";
  str "  border: 1px solid #ddd;";
  str "  border-radius: 8px;";
  str "  background-color: white;";
  str "}";
  [];
  str ".field {";
  str "  margin-bottom: 16px;";
  str "}";
  [];
  str ".label {";
  str "  display: block;";
  str "  margin-bottom: 4px;";
  str "  font-weight: 500;";
  str "  color: #333;";
  str "}";
  [];
  str ".input {";
  str "  width: 100%;";
  str "  padding: 8px 12px;";
  str "  border: 1px solid #ccc;";
  str "  border-radius: 4px;";
  str "  font-size: 14px;";
  str "  transition: border-color 0.2s;";
  str "}";
  [];
  str ".input:focus {";
  str "  outline: none;";
  str "  border-color: #007bff;";
  str "  box-shadow: 0 0 0 2px rgba(0, 123, 255, 0.25);";
  str "}";
  [];
  str ".input.error {";
  str "  border-color: #dc3545;";
  str "}";
  [];
  str ".errorMessage {";
  str "  display: block;";
  str "  margin-top: 4px;";
  str "  color: #dc3545;";
  str "  font-size: 12px;";
  str "}";
  [];
  str ".submitButton {";
  str "  width: 100%;";
  str "  padding: 10px;";
  str "  background-color: #007bff;";
  str "  color: white;";
  str "  border: none;";
  str "  border-radius: 4px;";
  str "  font-size: 16px;";
  str "  cursor: pointer;";
  str "  transition: background-color 0.2s;";
  str "}";
  [];
  str ".submitButton:hover:not(:disabled) {";
  str "  background-color: #0056b3;";
  str "}";
  [];
  str ".submitButton:disabled {";
  str "  background-color: #ccc;";
  str "  cursor: not-allowed;";
  str "}"
].

End cssTemplates.

(** The value of [obj[key]] for an object literal whose own properties
    are strings: an own property, a member inherited from
    [Object.prototype] (a function or an object, never a string), or
    [undefined]. *)
Inductive jsval : Type :=
| VString (s : jsstring)
| VObject
| VUndefined.

Definition objectPrototypeKeys : list jsstring :=
  List.map str
    [ "constructor"; "__defineGetter__"; "__defineSetter__";
      "hasOwnProperty"; "__lookupGetter__"; "__lookupSetter__";
      "isPrototypeOf"; "propertyIsEnumerable"; "toString"; "valueOf";
      "__proto__"; "toLocaleString" ]%string.

Definition getProperty (own : list (jsstring * jsstring)) (key : jsstring)
    : jsval :=
  match List.find (fun e => eqs (fst e) key) own with
  | Some (_, v) => VString v
  | None =>
      if existsb (eqs key) objectPrototypeKeys then VObject else VUndefined
  end.

Definition templatesObject : list (jsstring * jsstring) :=
  [ (str "simple", templates.simple);
    (str "interactive", templates.interactive);
    (str "data", templates.data);
    (str "form", templates.form) ].

Definition cssTemplatesObject : list (jsstring * jsstring) :=
  [ (str "simple", cssTemplates.simple);
    (str "interactive", cssTemplates.interactive);
    (str "data", cssTemplates.data);
    (str "form", cssTemplates.form) ].

Definition truthy (v : jsval) : bool :=
  match v with
  | VString s => negb (eqs s [])
  | VObject => true
  | VUndefined => false
  end.

(** [a || b] *)
Definition orElse (a b : jsval) : jsval := if truthy a then a else b.

(** [/{{ComponentName}}/g] and [/{{componentName}}/g]: the braces do not
    form a quantifier, so they stand for themselves. *)
Definition ComponentName_pattern : regex := Lit "{{ComponentName}}".
Definition componentName_pattern : regex := Lit "{{componentName}}".

(** *** The file system and the console

    A POSIX file system without links: a file or a directory is known by
    its path, the text that the program passes to [fs], and two texts are
    two paths. *)

Record World : Type := {
  files : gmap jsstring jsstring;   (* regular files and their content *)
  dirs : gset jsstring;             (* directories *)
  (* what the system refuses to create or to write, with the code of the
     error: a name or a path that is too long, a missing permission, a
     volume that is full or read-only *)
  refuses : jsstring -> option jsstring;
  stdout : list jsstring            (* the lines printed by console.log *)
}.

Inductive Error : Type :=
| TypeError (what : jsstring)
| FsError (code path : jsstring).

(** A computation reads and changes the world and returns a value or
    throws; what it did before it threw stays done. *)
Definition M (A : Type) : Type := World -> (Error + A) * World.

Definition ret {A} (a : A) : M A := fun w => (inr a, w).
Definition throw {A} (e : Error) : M A := fun w => (inl e, w).
Definition bind {A B} (m : M A) (f : A -> M B) : M B :=
  fun w => match m w with
           | (inr a, w') => f a w'
           | (inl e, w') => (inl e, w')
           end.

#[global] Instance M_ret : MRet M := @ret.
#[global] Instance M_bind : MBind M := fun A B f m => bind m f.

(** *** Paths

    [path.normalize] and [path.join] of Node on a POSIX system
    ([lib/path.js]).  The segments of a path are what stands between its
    slashes. *)

(** [normalizeString]: the segments that are kept, the last one first.
    An empty segment and [.] are dropped; [..] takes the last segment
    away, unless there is none or it is [..] itself, in which case it is
    kept when the path is relative and dropped when it is absolute. *)
Fixpoint normalizeString (allowAboveRoot : bool) (res segments : list jsstring)
    : list jsstring :=
  match segments with
  | [] => res
  | s :: rest =>
      if eqs s [] || eqs s (str ".") then
        normalizeString allowAboveRoot res rest
      else if eqs s (str "..") then
        match res with
        | top :: below =>
            if eqs top (str "..")
            then normalizeString allowAboveRoot
                   (if allowAboveRoot then s :: res else res) rest
            else normalizeString allowAboveRoot below rest
        | [] =>
            normalizeString allowAboveRoot
              (if allowAboveRoot then [s] else []) rest
        end
      else normalizeString allowAboveRoot (s :: res) rest
  end.

(** [path.normalize(path)] *)
Definition normalize (path : jsstring) : jsstring :=
  match path with
  | [] => str "."
  | c :: _ =>
      let isAbsolute := c =? 47 in
      let trailingSeparator := List.last path 0 =? 47 in
      let kept :=
        rev (normalizeString (negb isAbsolute) [] (split 47 path)) in
      match kept with
      | [] =>
          if isAbsolute then str "/"
          else if trailingSeparator then str "./" else str "."
      | _ :: _ =>
          (if isAbsolute then str "/" else [])
            ++ join (str "/") kept
            ++ (if trailingSeparator then str "/" else [])
      end
  end.

(** [path.join(...paths)]: the arguments that are not empty, with slashes
    in between, normalized. *)
Definition pathJoinAll (paths : list jsstring) : jsstring :=
  match List.filter (fun a => negb (eqs a [])) paths with
  | [] => str "."
  | parts => normalize (join (str "/") parts)
  end.

Definition pathJoin (a b : jsstring) : jsstring := pathJoinAll [a; b].

(** What precedes the last slash of a path. *)
Fixpoint dirname (p : jsstring) : jsstring :=
  match p with
  | [] => []
  | c :: p' =>
      if includes (str "/") p' then c :: dirname p' else []
  end.

(** The directory a path is in: what precedes its last slash; the root
    for an entry of the root, and [.], the working directory, for a
    relative path of one segment. *)
Definition parentDir (p : jsstring) : jsstring :=
  match dirname p with
  | [] => if startsWith (str "/") p then str "/" else str "."
  | d => d
  end.

(** The path and its ancestors, from the top: the directories
    [mkdir -p] makes. *)
Fixpoint ancestors (pre p : jsstring) : list jsstring :=
  match p with
  | [] => [rev pre]
  | c :: p' =>
      if (c =? 47) && negb (eqs pre [])
      then rev pre :: ancestors (c :: pre) p'
      else ancestors (c :: pre) p'
  end.

(** *** The file system and the console, continued *)

Definition isFile (w : World) (p : jsstring) : bool :=
  bool_decide (is_Some (files w !! p)).

Definition existsSync (p : jsstring) : M bool :=
  fun w => (inr (bool_decide (p ∈ dirs w) || isFile w p), w).

(** [fs.mkdirSync(p, { recursive: true })]: the directories that are
    missing are made from the top; the first one that cannot be made ends
    the call, and those made before it stay. *)
Fixpoint mkdirLoop (p : jsstring) (todo : list jsstring) (w : World)
    : (Error + unit) * World :=
  match todo with
  | [] => (inr tt, w)
  | a :: rest =>
      if bool_decide (a ∈ dirs w) then mkdirLoop p rest w
      else if isFile w a then
        (inl (FsError (if eqs a p then str "EEXIST" else str "ENOTDIR") p), w)
      else
        match refuses w a with
        | Some code => (inl (FsError code p), w)
        | None =>
            mkdirLoop p rest {| files := files w;
                                dirs := dirs w ∪ {[ a ]};
                                refuses := refuses w;
                                stdout := stdout w |}
        end
  end.

Definition mkdirSync (p : jsstring) : M unit :=
  fun w => mkdirLoop p (ancestors [] p) w.

(** [fs.writeFileSync(p, data)]: it throws [EISDIR] for a directory,
    [ENOTDIR] when the directory of the path or an ancestor of it is a
    regular file, [ENOENT] when the directory of the path is missing, and
    what the system answers when it refuses the path; otherwise the file
    holds the data. *)
Definition writeFileSync (p data : jsstring) : M unit :=
  fun w =>
    if bool_decide (p ∈ dirs w) then (inl (FsError (str "EISDIR") p), w)
    else if existsb (isFile w) (ancestors [] (parentDir p))
    then (inl (FsError (str "ENOTDIR") p), w)
    else if negb (bool_decide (parentDir p ∈ dirs w))
    then (inl (FsError (str "ENOENT") p), w)
    else
      match refuses w p with
      | Some code => (inl (FsError code p), w)
      | None =>
          (inr tt, {| files := <[p := data]> (files w);
                      dirs := dirs w;
                      refuses := refuses w;
                      stdout := stdout w |})
      end.

Definition consoleLog (ln : jsstring) : M unit :=
  fun w => (inr tt, {| files := files w; dirs := dirs w;
                       refuses := refuses w;
                       stdout := stdout w ++ [ln] |}).

(** *** [createComponent] *)

Record GenerationOptions : Type := {
  type : option jsstring;     (* [None] is [undefined] *)
  styled : option bool;
  typed : option bool
}.

(** [template.replace(...)], which exists for a string only. *)
Definition asTemplate (v : jsval) : M jsstring :=
  match v with
  | VString s => ret s
  | _ => throw (TypeError (str "template.replace is not a function"))
  end.

Definition indexContent (typed : bool) (componentName : jsstring) : jsstring :=
  if typed then
    unlines [
      str "export { " ++ componentName ++ str ", type " ++ componentName
        ++ str "Props } from './" ++ componentName ++ str "';";
      str "export { default } from './" ++ componentName ++ str "';" ]
  else
    unlines [
      str "export { " ++ componentName ++ str " } from './" ++ componentName
        ++ str "';";
      str "export { default } from './" ++ componentName ++ str "';" ].

Definition testContent (componentName : jsstring) : jsstring :=
  unlines [
    str "import React from 'react';";
    str "import { render, screen } from '@testing-library/react';";
    str "import { " ++ componentName ++ str " } from './" ++ componentName
      ++ str "';";
    [];
    str "describe('" ++ componentName ++ str "', () => {";
    str "  it('renders without crashing', () => {";
    str "    render(<" ++ componentName ++ str " />);";
    str "  });";
    [];
    str "  it('applies custom className', () => {";
    str "    const { container } = render(<" ++ componentName
      ++ str " className=" ++ dq ++ str "custom-class" ++ dq ++ str " />);";
    str "    expect(container.firstChild).toHaveClass('custom-class');";
    str "  });";
    str "});" ].

Definition componentFileName (componentName : jsstring) : jsstring :=
  componentName ++ str ".tsx".
Definition cssFileName (componentName : jsstring) : jsstring :=
  componentName ++ str ".module.css".
Definition indexFileName : jsstring := str "index.ts".
Definition testFileName (componentName : jsstring) : jsstring :=
  componentName ++ str ".test.tsx".

(** [path.join(process.cwd(), 'components', componentName)] *)
Definition componentDirOf (cwd componentName : jsstring) : jsstring :=
  pathJoinAll [cwd; str "components"; componentName].

(** The rendered component source. *)
Definition renderComponent (template componentName : jsstring) : jsstring :=
  replaceAll componentName_pattern (toLowerCase componentName)
    (replaceAll ComponentName_pattern componentName template).

Definition renderCss (cssTemplate componentName : jsstring) : jsstring :=
  replaceAll componentName_pattern (toLowerCase componentName) cssTemplate.

(** [createComponent(componentName, options)], run in the working
    directory [cwd] of the process. *)
Definition createComponent (cwd componentName : jsstring)
    (options : GenerationOptions) : M unit :=
  let type := default (str "simple") (type options) in
  let styled := default true (styled options) in
  let typed := default true (typed options) in
  let componentDir := componentDirOf cwd componentName in
  present ← existsSync componentDir;
  (if negb present then mkdirSync componentDir else ret tt) ;;
  let template :=
    orElse (getProperty templatesObject type) (VString templates.simple) in
  let cssTemplate :=
    if styled
    then Some (orElse (getProperty cssTemplatesObject type)
                      (VString cssTemplates.simple))
    else None in
  templateText ← asTemplate template;
  let componentContent := renderComponent templateText componentName in
  let componentFile :=
    pathJoin componentDir (componentFileName componentName) in
  writeFileSync componentFile componentContent ;;
  match cssTemplate with
  | Some css =>
      if truthy css then
        cssText ← asTemplate css;
        writeFileSync (pathJoin componentDir (cssFileName componentName))
                      (renderCss cssText componentName)
      else ret tt
  | None => ret tt
  end ;;
  writeFileSync (pathJoin componentDir indexFileName)
                (indexContent typed componentName) ;;
  writeFileSync (pathJoin componentDir (testFileName componentName))
                (testContent componentName) ;;
  consoleLog ([9989] ++ str " Created component: " ++ componentName) ;;
  consoleLog (str "   Location: " ++ componentDir) ;;
  consoleLog (str "   Files created:") ;;
  consoleLog (str "   - " ++ componentName ++ str ".tsx") ;;
  (if styled
   then consoleLog (str "   - " ++ componentName ++ str ".module.css")
   else ret tt) ;;
  consoleLog (str "   - index.ts") ;;
  consoleLog (str "   - " ++ componentName ++ str ".test.tsx").

End Scaffolder.

(** ** The type generator ([type-generator.ts]) *)

Module TypeGenerator.
Import JS.

Inductive Error : Type :=
| TypeError                       (* thrown by the runtime *)
| ErrorMessage (msg : jsstring).  (* [throw new Error(msg)] *)

Definition Result (A : Type) : Type := Error + A.

(** JSON numbers are IEEE doubles.  The generator only tests them for
    truth and prints them, so these two operations are all it needs of
    them. *)
Class Numbers : Type := {
  number : Type;
  numberIsZero : number -> bool;
  numberToString : number -> jsstring
}.

Section Generator.
Context `{Numbers}.

(** What [JSON.parse] returns.  The members of an object are in the order
    of [Object.entries]; a lookup takes the first member with the key. *)
Inductive JSON : Type :=
| JNull
| JBool (b : bool)
| JNumber (n : number)
| JString (s : jsstring)
| JArray (elements : list JSON)
| JObject (members : list (jsstring * JSON)).

Fixpoint lookupMember (key : jsstring) (members : list (jsstring * JSON))
    : option JSON :=
  match members with
  | [] => None
  | (k, v) :: rest => if eqs k key then Some v else lookupMember key rest
  end.

(** [v.key] for a key that is no member of the built-in prototypes
    ([properties], [required], [type], [items], [additionalProperties],
    [description]); [None] is [undefined]. *)
Definition getMember (v : JSON) (key : jsstring) : Result (option JSON) :=
  match v with
  | JNull => inl TypeError
  | JObject members => inr (lookupMember key members)
  | _ => inr None
  end.

(** [v?.key] *)
Definition getMemberOpt (v : option JSON) (key : jsstring) : option JSON :=
  match v with
  | Some (JObject members) => lookupMember key members
  | _ => None
  end.

Definition truthy (v : option JSON) : bool :=
  match v with
  | None => false
  | Some JNull => false
  | Some (JBool b) => b
  | Some (JNumber n) => negb (numberIsZero n)
  | Some (JString s) => negb (eqs s [])
  | Some (JArray _) => true
  | Some (JObject _) => true
  end.

(** ToString, as a template literal applies it.  An array is joined with
    commas, [null] elements giving the empty string; an object prints as
    [[object Object]] unless a member hides [toString], in which case the
    conversion throws. *)
Fixpoint toString (v : JSON) : Result jsstring :=
  match v with
  | JNull => inr (str "null")
  | JBool true => inr (str "true")
  | JBool false => inr (str "false")
  | JNumber n => inr (numberToString n)
  | JString s => inr s
  | JArray elements =>
      (fix joinElements (l : list JSON) : Result jsstring :=
         match l with
         | [] => inr []
         | e :: rest =>
             match (match e with JNull => inr [] | _ => toString e end) with
             | inl err => inl err
             | inr s =>
                 match rest with
                 | [] => inr s
                 | _ :: _ =>
                     match joinElements rest with
                     | inl err => inl err
                     | inr t => inr (s ++ str "," ++ t)
                     end
                 end
             end
         end) elements
  | JObject members =>
      match lookupMember (str "toString") members with
      | Some _ => inl TypeError
      | None => inr (str "[object Object]")
      end
  end.

(** [Object.entries(v)] for a truthy [v]. *)
Definition entries (v : JSON) : list (jsstring * JSON) :=
  match v with
  | JObject members => members
  | JArray elements => imap (fun i e => (natToString i, e)) elements
  | JString s => imap (fun i c => (natToString i, JString [c])) s
  | _ => []
  end.

Record Property : Type := {
  name : jsstring;
  type : jsstring;
  required : bool;
  description : option JSON     (* [None] is [undefined] *)
}.

Record Schema : Type := {
  schemaName : jsstring;
  properties : list Property;
  interfaces : option (list jsstring)
}.

Fixpoint mapM {A B} (f : A -> Result B) (l : list A) : Result (list B) :=
  match l with
  | [] => inr []
  | a :: rest =>
      match f a with
      | inl err => inl err
      | inr b =>
          match mapM f rest with
          | inl err => inl err
          | inr bs => inr (b :: bs)
          end
      end
  end.

(** The text of one property: its comment, when it has a description,
    and its declaration. *)
Definition propertyText (prop : Property) : Result jsstring :=
  let optional := if required prop then [] else str "?" in
  match (if truthy (description prop)
         then match description prop with
              | Some d =>
                  match toString d with
                  | inl err => inl err
                  | inr s => inr (str "  /** " ++ s ++ str " */" ++ [LF])
                  end
              | None => inr []
              end
         else inr []) with
  | inl err => inl err
  | inr comment =>
      inr (comment ++ str "  " ++ name prop ++ optional ++ str ": "
             ++ type prop ++ str ";")
  end.

Definition importLine (i : jsstring) : jsstring :=
  str "import { " ++ i ++ str " } from './" ++ i ++ str "';".

Definition generateTypeScriptTypes (schema : Schema) : Result jsstring :=
  let name := schemaName schema in
  let interfaces := default [] (interfaces schema) in
  let imports :=
    if (0 <? length interfaces)%nat
    then join [LF] (List.map importLine interfaces) ++ [LF; LF]
    else [] in
  match mapM propertyText (properties schema) with
  | inl err => inl err
  | inr texts =>
      let props := join [LF] texts in
      let interfaceDefinition :=
        str "export interface " ++ name ++ str " {" ++ [LF] ++ props
          ++ [LF] ++ str "}" in
      let propsInterface :=
        str "export interface " ++ name ++ str "Props {" ++ [LF] ++ props
          ++ [LF] ++ str "}" in
      inr (imports ++ interfaceDefinition ++ [LF; LF] ++ propsInterface
             ++ [LF])
  end.

(** [jsonSchema.required?.includes(key) || false] *)
Definition isRequired (jsonSchema : JSON) (key : jsstring) : Result bool :=
  match getMember jsonSchema (str "required") with
  | inl err => inl err
  | inr None => inr false
  | inr (Some JNull) => inr false
  | inr (Some (JArray elements)) =>
      inr (existsb (fun e => match e with
                             | JString s => eqs s key
                             | _ => false
                             end) elements)
  | inr (Some (JString s)) => inr (includes key s)
  | inr (Some _) => inl TypeError
  end.

(** The [switch] on [prop.type]. *)
Definition tsTypeOf (prop : JSON) : Result jsstring :=
  match getMember prop (str "type") with
  | inl err => inl err
  | inr (Some (JString t)) =>
      if eqs t (str "string") then inr (str "string")
      else if eqs t (str "number") then inr (str "number")
      else if eqs t (str "boolean") then inr (str "boolean")
      else if eqs t (str "array") then
        let itemType :=
          getMemberOpt (getMemberOpt (Some prop) (str "items")) (str "type") in
        match (if truthy itemType
               then match itemType with
                    | Some v => toString v
                    | None => inr (str "any")
                    end
               else inr (str "any")) with
        | inl err => inl err
        | inr s => inr (s ++ str "[]")
        end
      else if eqs t (str "object") then
        if truthy (getMemberOpt (Some prop) (str "additionalProperties"))
        then inr (str "Record<string, any>")
        else inr (str "object")
      else inr (str "any")
  | inr _ => inr (str "any")
  end.

(** The body of the loop over the entries of [jsonSchema.properties]. *)
Definition propertyOfEntry (jsonSchema : JSON) (entry : jsstring * JSON)
    : Result Property :=
  let (key, prop) := entry in
  match isRequired jsonSchema key with
  | inl err => inl err
  | inr required =>
      match tsTypeOf prop with
      | inl err => inl err
      | inr tsType =>
          inr {| name := key; type := tsType; required := required;
                 description := getMemberOpt (Some prop) (str "description") |}
      end
  end.

Definition jsonProperties (jsonSchema : JSON) : Result (list Property) :=
  match getMember jsonSchema (str "properties") with
  | inl err => inl err
  | inr props =>
      if truthy props
      then match props with
           | Some p => mapM (propertyOfEntry jsonSchema) (entries p)
           | None => inr []
           end
      else inr []
  end.

Definition generateFromJSON (jsonSchema : JSON) (typeName : jsstring)
    : Result jsstring :=
  match jsonProperties jsonSchema with
  | inl err => inl err
  | inr properties =>
      generateTypeScriptTypes
        {| schemaName := typeName; properties := properties;
           interfaces := Some [] |}
  end.

(** [/^\s*(\w+)(\!?):\s*([^\s]+)/] *)
Definition field_pattern : regex :=
  Seq Bol
   (Seq (Star (Chr isWhiteSpace))
    (Seq (Group 1 (Plus (Chr isWordChar)))
     (Seq (Group 2 (Opt (Chr (N.eqb 33))))
      (Seq (Chr (N.eqb 58))
       (Seq (Star (Chr isWhiteSpace))
            (Group 3 (Plus (Chr (fun c => negb (isWhiteSpace c)))))))))).

(** The text [line.includes] looks for: [`type ${typeName}`]. *)
Definition typeMarker (typeName : jsstring) : jsstring :=
  str "type " ++ typeName.

(** The loop of [generateFromGraphQL] over the lines, with its flag. *)
Fixpoint graphqlProperties (typeName : jsstring) (inTargetType : bool)
    (lines : list jsstring) : list Property :=
  match lines with
  | [] => []
  | ln :: rest =>
      if includes (typeMarker typeName) ln
      then graphqlProperties typeName true rest
      else if inTargetType then
        if includes (str "}") ln then []
        else if negb (eqs (trim ln) []) && negb (startsWith (str "#") ln) then
          match exec field_pattern ln with
          | Some m =>
              match capture 1 (groups m), capture 2 (groups m),
                    capture 3 (groups m) with
              | Some name, Some bang, Some type =>
                  {| name := name; type := removeFirst 33 type;
                     required := eqs bang (str "!"); description := None |}
                  :: graphqlProperties typeName true rest
              | _, _, _ => graphqlProperties typeName true rest
              end
          | None => graphqlProperties typeName true rest
          end
        else graphqlProperties typeName true rest
      else graphqlProperties typeName false rest
  end.

Definition notFound (typeName : jsstring) : jsstring :=
  str "Type " ++ typeName ++ str " not found in GraphQL schema".

Definition generateFromGraphQL (schema typeName : jsstring) : Result jsstring :=
  let lines := split LF schema in
  let inType := existsb (includes (typeMarker typeName)) lines in
  if negb inType then inl (ErrorMessage (notFound typeName))
  else
    generateTypeScriptTypes
      {| schemaName := typeName;
         properties := graphqlProperties typeName false lines;
         interfaces := Some [] |}.

End Generator.

Arguments JSON {_}.
Arguments Property {_}.
Arguments Schema {_}.

End TypeGenerator.


(** ** The command lines and the directory scan

    [findCSSModules] and the three [main] functions.  What a process
    leaves behind is its exit code and what it printed; [process.exit]
    ends it at once, a [main] that returns ends it with code 0, and an
    exception nobody catches ends it with code 1. *)

Module CommandLine.
Import JS.

(** [args[i]]; [None] is [undefined]. *)
Definition argAt (args : list jsstring) (i : nat) : option jsstring :=
  nth_error args i.

(** [!s] for a string or [undefined]. *)
Definition missing (s : option jsstring) : bool :=
  match s with
  | None => true
  | Some t => eqs t []
  end.

(** [a || b] for a string or [undefined] and a string. *)
Definition orDefault (a : option jsstring) (b : jsstring) : jsstring :=
  match a with
  | Some t => if eqs t [] then b else t
  | None => b
  end.

(** [s.endsWith(suffix)] *)
Definition endsWith (suffix s : jsstring) : bool :=
  startsWith (rev suffix) (rev s).

End CommandLine.

(** *** [findCSSModules] and the [main] of the style validator *)

Module ValidatorCLI.
Import JS Validator CommandLine.

(** A directory tree: a regular file, a directory with its entries in the
    order of [readdirSync], or an entry on which [statSync] or
    [readdirSync] throws. *)
Inductive Node : Type :=
| FileNode
| DirNode (entries : list (jsstring * Node))
| Denied (errorMessage : jsstring).

(** One turn of the loop of [traverse]: [filePath] is
    [path.join(currentDir, file)].  A directory is traversed in its turn;
    an exception ends the scan. *)
Fixpoint visit (filePath file : jsstring) (n : Node)
    : jsstring + list jsstring :=
  match n with
  | FileNode =>
      inr (if endsWith (str ".module.css") file then [filePath] else [])
  | Denied msg => inl msg
  | DirNode entries =>
      (fix traverse (files : list (jsstring * Node))
         : jsstring + list jsstring :=
         match files with
         | [] => inr []
         | (f, child) :: rest =>
             match visit (Scaffolder.pathJoin filePath f) f child with
             | inl err => inl err
             | inr found =>
                 match traverse rest with
                 | inl err => inl err
                 | inr more => inr (found ++ more)
                 end
             end
         end) entries
  end.

(** [findCSSModules(dir)], where [root] is what is at [dir]. *)
Definition findCSSModules (dir : jsstring) (root : Node)
    : jsstring + list jsstring :=
  match root with
  | DirNode _ => visit dir [] root
  | FileNode => inl (str "ENOTDIR: not a directory, scandir '" ++ dir ++ str "'")
  | Denied msg => inl msg
  end.

(** What the validator sees of the file system. *)
Record Env : Type := {
  readFileSync : jsstring -> ReadResult;
  nodeAt : jsstring -> Node
}.

Inductive Outcome : Type :=
| Exited (code : nat)
| Uncaught (errorMessage : jsstring)   (* ends the process with code 1 *)
| Watching (dir : jsstring).           (* runs until interrupted *)

Record Run : Type := {
  outcome : Outcome;
  stdout : list jsstring;
  stderr : list jsstring
}.

Definition exitCode (o : Outcome) : option nat :=
  match o with
  | Exited code => Some code
  | Uncaught _ => Some 1%nat
  | Watching _ => None
  end.

Definition usage : list jsstring :=
  [ [];
    str "Commands:";
    str "  file <path>                Validate a single CSS module file";
    str "  dir <directory>            Validate all CSS modules in directory";
    str "  watch <directory>          Watch directory for changes and validate";
    [];
    str "Examples:";
    str "  node style-validator.js file components/Button/Button.module.css";
    str "  node style-validator.js dir components" ].

(** The lines printed for one issue by the [file] command. *)
Definition fileIssueLines (issue : ValidationIssue) : list jsstring :=
  [ str "  Line " ++ natToString (line issue) ++ str ": [" ++ rule issue
      ++ str "] " ++ message issue ]
  ++ (if negb (eqs (content issue) [])
      then [str "    " ++ content issue] else [])
  ++ [ [] ].

Definition mainFile (env : Env) (args : list jsstring) : Run :=
  let filePath := argAt args 1 in
  if missing filePath then
    {| outcome := Exited 1; stdout := [];
       stderr := [str "Error: File path is required"] |}
  else
    let filePath := default [] filePath in
    let issues := validateFile (readFileSync env) filePath in
    let head := [55357; 56589] ++ str " Validating: " ++ filePath in
    if Nat.eqb (length issues) 0 then
      {| outcome := Exited 0;
         stdout := [head; [9989] ++ str " No issues found"];
         stderr := [] |}
    else
      {| outcome := Exited 1;
         stdout := [head;
                    [LF; 10060] ++ str " Found " ++ natToString (length issues)
                      ++ str " issue(s):" ++ [LF]]
                   ++ flat_map fileIssueLines issues;
         stderr := [] |}.

(** The lines printed for one module by the [dir] command, and the
    number of its issues. *)
Definition dirModule (env : Env) (module : jsstring)
    : list jsstring * nat :=
  let issues := validateFile (readFileSync env) module in
  ([str "Validating: " ++ module]
   ++ (if (0 <? length issues)%nat
       then [str "  " ++ [10060] ++ str " " ++ natToString (length issues)
               ++ str " issue(s) found"]
            ++ List.map (fun issue =>
                           str "    Line " ++ natToString (line issue)
                             ++ str ": " ++ message issue) issues
       else [str "  " ++ [9989] ++ str " No issues"]),
   length issues).

(** The loop of the [dir] command over the modules. *)
Fixpoint dirLoop (env : Env) (modules : list jsstring)
    : list jsstring * nat :=
  match modules with
  | [] => ([], 0%nat)
  | module :: rest =>
      let (printed, count) := dirModule env module in
      let (printedRest, countRest) := dirLoop env rest in
      (printed ++ printedRest, (count + countRest)%nat)
  end.

Definition mainDir (env : Env) (args : list jsstring) : Run :=
  let dir := orDefault (argAt args 1) (str "components") in
  let head := [55357; 56589] ++ str " Scanning directory: " ++ dir in
  match findCSSModules dir (nodeAt env dir) with
  | inl err => {| outcome := Uncaught err; stdout := [head]; stderr := [] |}
  | inr modules =>
      let (printed, totalIssues) := dirLoop env modules in
      {| outcome := if (0 <? totalIssues)%nat then Exited 1 else Exited 0;
         stdout :=
           [head;
            str "Found " ++ natToString (length modules)
              ++ str " CSS module(s)" ++ [LF]]
           ++ printed
           ++ [[LF; 55357; 56522] ++ str " Summary: "
                 ++ natToString totalIssues
                 ++ str " total issue(s) across "
                 ++ natToString (length modules) ++ str " file(s)"];
         stderr := [] |}
  end.

(** [main()] of the style validator.  The [watch] command is taken up to
    the point where the watcher is installed. *)
Definition main (env : Env) (args : list jsstring) : Run :=
  let command := argAt args 0 in
  if missing command then
    {| outcome := Exited 1; stdout := usage;
       stderr := [str "Usage: node style-validator.js <command> [options]"] |}
  else
    let command := default [] command in
    if eqs command (str "file") then mainFile env args
    else if eqs command (str "dir") then mainDir env args
    else if eqs command (str "watch") then
      let dir := orDefault (argAt args 1) (str "components") in
      {| outcome := Watching dir;
         stdout := [[55357; 56384] ++ str " Watching directory: " ++ dir;
                    str "Press Ctrl+C to stop" ++ [LF]];
         stderr := [] |}
    else
      {| outcome := Exited 1; stdout := [];
         stderr := [str "Error: Unknown command: " ++ command] |}.

End ValidatorCLI.

(** *** The [main] of the component scaffolder *)

Module ScaffolderCLI.
Import JS Scaffolder CommandLine.

(** The body of the loop over the arguments after the name. *)
Definition parseArg (options : GenerationOptions) (arg : jsstring)
    : GenerationOptions :=
  if startsWith (str "--type=") arg then
    {| type := nth_error (split 61 arg) 1;
       styled := styled options; typed := typed options |}
  else if eqs arg (str "--styled") then
    {| type := type options; styled := Some true; typed := typed options |}
  else if eqs arg (str "--no-styled") then
    {| type := type options; styled := Some false; typed := typed options |}
  else if eqs arg (str "--typed") then
    {| type := type options; styled := styled options; typed := Some true |}
  else if eqs arg (str "--no-typed") then
    {| type := type options; styled := styled options; typed := Some false |}
  else options.

Definition noOptions : GenerationOptions :=
  {| type := None; styled := None; typed := None |}.

Definition parseOptions (args : list jsstring) : GenerationOptions :=
  fold_left parseArg args noOptions.

(** What [console.error] printed: a text, or a text and an error. *)
Inductive ErrorLine : Type :=
| ErrorText (text : jsstring)
| ErrorWith (text : jsstring) (e : Error).

Record Run : Type := {
  exit : nat;
  stderr : list ErrorLine;
  world : World
}.

Definition usage : list jsstring :=
  [ str "Usage: node generate-component.js <ComponentName> [options]";
    str "Options:";
    str "  --type=<simple|interactive|data|form> (default: simple)";
    str "  --styled (default: true)";
    str "  --typed (default: true)" ].

(** [main()] of the scaffolder, run in the directory [cwd]. *)
Definition main (cwd : jsstring) (args : list jsstring) (w : World) : Run :=
  let componentName := argAt args 0 in
  if missing componentName then
    {| exit := 1;
       stderr := [ErrorText (str "Error: Component name is required")];
       world := {| files := files w; dirs := dirs w;
                   refuses := refuses w;
                   stdout := Scaffolder.stdout w ++ usage |} |}
  else
    let componentName := default [] componentName in
    let options := parseOptions (skipn 1 args) in
    match createComponent cwd componentName options w with
    | (inr _, w') => {| exit := 0; stderr := []; world := w' |}
    | (inl error, w') =>
        {| exit := 1;
           stderr := [ErrorWith (str "Error creating component:") error];
           world := w' |}
    end.

End ScaffolderCLI.

(** *** The [main] of the type generator *)

Module TypeGeneratorCLI.
Import JS TypeGenerator CommandLine.

Section Main.
Context `{Numbers}.

(** What the type generator sees of its surroundings: reading a file,
    [JSON.parse], which throws on a text that is no JSON, and whether
    writing to a path throws. *)
Record Env : Type := {
  readFileSync : jsstring -> Validator.ReadResult;
  parseJSON : jsstring -> jsstring + JSON;
  writeError : jsstring -> option jsstring
}.

(** What is caught by the [catch] of [main]: an error of the program or
    of the runtime, with its message when it is known. *)
Inductive Caught : Type :=
| Thrown (e : Error)
| Failed (errorMessage : jsstring).

Record Run : Type := {
  exit : nat;
  stdout : list jsstring;
  stderr : list (jsstring * option Caught);
  written : list (jsstring * jsstring)
}.

Definition usage : list jsstring :=
  [ [];
    str "Commands:";
    str "  json <schema-file> <type-name>   Generate types from JSON schema";
    str "  graphql <schema-file> <type-name> Generate types from GraphQL schema";
    [];
    str "Examples:";
    str "  node type-generator.ts json user-schema.json User";
    str "  node type-generator.ts graphql schema.graphql User" ].

Definition ofResult {A} (r : Result A) : Caught + A :=
  match r with
  | inl e => inl (Thrown e)
  | inr a => inr a
  end.

(** The [switch] of [main]: the text to write, or what was thrown. *)
Definition generate (env : Env) (command : jsstring) (rest : list jsstring)
    : Caught + jsstring :=
  let schemaFile := argAt rest 0 in
  let typeName := argAt rest 1 in
  if eqs command (str "json") then
    if missing schemaFile || missing typeName then
      inl (Thrown (ErrorMessage
                     (str "JSON schema file and type name are required")))
    else
      match readFileSync env (default [] schemaFile) with
      | Validator.ReadError msg => inl (Failed msg)
      | Validator.ReadOk schemaContent =>
          match parseJSON env schemaContent with
          | inl msg => inl (Failed msg)
          | inr jsonSchema =>
              ofResult (generateFromJSON jsonSchema (default [] typeName))
          end
      end
  else if eqs command (str "graphql") then
    if missing schemaFile || missing typeName then
      inl (Thrown (ErrorMessage
                     (str "GraphQL schema file and type name are required")))
    else
      match readFileSync env (default [] schemaFile) with
      | Validator.ReadError msg => inl (Failed msg)
      | Validator.ReadOk schemaContent =>
          ofResult (generateFromGraphQL schemaContent (default [] typeName))
      end
  else inl (Thrown (ErrorMessage (str "Unknown command: " ++ command))).

(** [rest[2] || `${rest[1].toLowerCase()}.ts`] *)
Definition outputFileOf (rest : list jsstring) : jsstring :=
  orDefault (argAt rest 2)
            (toLowerCase (default [] (argAt rest 1)) ++ str ".ts").

Definition failure (c : Caught) : Run :=
  {| exit := 1; stdout := []; stderr := [(str "Error:", Some c)];
     written := [] |}.

Definition main (env : Env) (args : list jsstring) : Run :=
  if (length args <? 2)%nat then
    {| exit := 1; stdout := usage;
       stderr := [(str "Usage: node type-generator.ts <command> <options>",
                   None)];
       written := [] |}
  else
    let command := default [] (argAt args 0) in
    let rest := skipn 1 args in
    match generate env command rest with
    | inl c => failure c
    | inr output =>
        let outputFile := outputFileOf rest in
        match writeError env outputFile with
        | Some msg => failure (Failed msg)
        | None =>
            {| exit := 0;
               stdout := [[226; 339; 8230]
                            ++ str " Generated TypeScript types: "
                            ++ outputFile];
               stderr := [];
               written := [(outputFile, output)] |}
        end
    end.

End Main.

End TypeGeneratorCLI.

(** * Notions used in the statements *)

Module ValidatorTerms.
Import JS Validator.

(** The selector of a trimmed line, as [validateCSS] extracts it. *)
Definition selectorOf (trimmed : jsstring) : jsstring :=
  trim (hd [] (split 123 trimmed)).

Definition classNaming_message : jsstring :=
  str "Class names should use camelCase starting with a lowercase letter".

(** A file system in which no file can be read. *)
Definition unreadable (filePath : jsstring) : ReadResult :=
  ReadError (str "ENOENT: no such file or directory, open '" ++ filePath
               ++ str "'").

End ValidatorTerms.

Module ScaffolderTerms.
Import JS Scaffolder.

(** An identifier: a letter or an underscore, then letters, digits and
    underscores. *)
Definition isIdentStart (c : N) : bool := isLower c || isUpper c || (c =? 95).

Definition identifier (s : jsstring) : bool :=
  match s with
  | [] => false
  | c :: rest => isIdentStart c && forallb isWordChar rest
  end.

(** An identifier of JavaScript written in ASCII: a letter, an underscore
    or a dollar, then letters, digits, underscores and dollars. *)
Definition isIdentPart (c : N) : bool := isWordChar c || (c =? 36).

Definition jsIdentifier (s : jsstring) : bool :=
  match s with
  | [] => false
  | c :: rest =>
      (isIdentStart c || (c =? 36)) && forallb isIdentPart rest
  end.

(** The code units other than [&], the backquote and the quote: after a
    dollar of a replacement text, and [$$] apart, they are read as they
    are written. *)
Definition literalAfterDollar (c : N) : bool :=
  negb (c =? 38) && negb (c =? 96) && negb (c =? 39).

(** What [String.prototype.replace] makes of a replacement text of such
    code units: each [$$] is one dollar, from the left. *)
Fixpoint dollars (repl : jsstring) : jsstring :=
  match repl with
  | [] => []
  | 36 :: rest =>
      match rest with
      | 36 :: rest' => 36 :: dollars rest'
      | _ => 36 :: dollars rest
      end
  | c :: rest => c :: dollars rest
  end.

(** The number of occurrences of [p] in [s]: the positions of [s] at which
    [p] starts. *)
Fixpoint occurrences (p s : jsstring) : nat :=
  ((if startsWith p s then 1 else 0)
   + match s with
     | [] => 0
     | _ :: s' => occurrences p s'
     end)%nat.

(** The template types of the command line. *)
Definition supportedTypes : list jsstring :=
  List.map str ["simple"; "interactive"; "data"; "form"]%string.

(** The two placeholder tokens. *)
Definition ComponentName_token : jsstring := str "{{ComponentName}}".
Definition componentName_token : jsstring := str "{{componentName}}".

(** Replacing every occurrence of the text [p] by the text [v], from the
    left; [skip] code units of a match are still to be passed over. *)
Fixpoint replaceLit (p v : jsstring) (skip : nat) (s : jsstring) : jsstring :=
  match skip with
  | S k =>
      match s with
      | _ :: t => replaceLit p v k t
      | [] => []
      end
  | O =>
      if startsWith p s then
        v ++ match s with
             | c :: t =>
                 match length p with
                 | O => c :: replaceLit p v 0 t
                 | S l => replaceLit p v l t
                 end
             | [] => []
             end
      else
        match s with
        | c :: t => c :: replaceLit p v 0 t
        | [] => []
        end
  end.

Definition consTo (c : N) (l : list jsstring) : list jsstring :=
  match l with
  | h :: r => (c :: h) :: r
  | [] => [[c]]
  end.

(** The texts between the successive occurrences of [p] in [s]. *)
Fixpoint pieces (p : jsstring) (skip : nat) (s : jsstring) : list jsstring :=
  match skip with
  | S k =>
      match s with
      | _ :: t => pieces p k t
      | [] => [[]]
      end
  | O =>
      if startsWith p s then
        [] :: match s with
              | c :: t =>
                  match length p with
                  | O => consTo c (pieces p 0 t)
                  | S l => pieces p l t
                  end
              | [] => [[]]
              end
      else
        match s with
        | c :: t => consTo c (pieces p 0 t)
        | [] => [[]]
        end
  end.

(** Whether the occurrences of [p] in [a ++ z] that begin in [a] are the
    occurrences of [p] in [a], whatever [z] is: no end of [a] begins an
    occurrence that [z] could complete. *)
Fixpoint decided (p : jsstring) (skip : nat) (a : jsstring) : bool :=
  match skip with
  | S k =>
      match a with
      | _ :: t => decided p k t
      | [] => false
      end
  | O =>
      match a with
      | [] => true
      | _ :: t =>
          if startsWith p a then
            match length p with
            | O => decided p 0 t
            | S l => decided p l t
            end
          else negb (startsWith a p) && decided p 0 t
      end
  end.

(** What the proof of the placeholder property needs of a template: it
    holds the first placeholder, the texts around the first placeholder
    do not end inside a second placeholder, and once the placeholders
    are taken out no two opening braces are left side by side. *)
Definition templateOK (template : jsstring) : bool :=
  let chunks := pieces ComponentName_token 0 template in
  (2 <=? length chunks)%nat
  && forallb (decided componentName_token 0) chunks
  && forallb (fun chunk =>
                forallb (fun d => negb (includes (str "{{") d))
                        (pieces componentName_token 0 chunk))
             chunks.

(** The paths [createComponent] writes to, in the order of the writes. *)
Definition writtenFiles (cwd componentName : jsstring)
    (options : GenerationOptions) : list jsstring :=
  let dir := componentDirOf cwd componentName in
  [pathJoin dir (componentFileName componentName)]
  ++ (if default true (styled options)
      then [pathJoin dir (cssFileName componentName)] else [])
  ++ [pathJoin dir indexFileName;
      pathJoin dir (testFileName componentName)].

(** The names of the four files of a component. *)
Definition componentFiles (componentName : jsstring) : list jsstring :=
  [ componentFileName componentName; cssFileName componentName;
    indexFileName; testFileName componentName ].

(** Well-formed UTF-16: a surrogate stands only in a pair, so the text
    is written to the file system as it is. *)
Definition isHighSurrogate (c : N) : bool := inRange 55296 56319 c.
Definition isLowSurrogate (c : N) : bool := inRange 56320 57343 c.

Fixpoint wellFormed (s : jsstring) : bool :=
  match s with
  | [] => true
  | c :: rest =>
      if isHighSurrogate c then
        match rest with
        | d :: rest' => isLowSurrogate d && wellFormed rest'
        | [] => false
        end
      else negb (isLowSurrogate c) && wellFormed rest
  end.

(** A name that is one segment of a path: it is not empty, holds no
    slash and no code unit 0, is well-formed UTF-16, and is neither [.]
    nor [..].  Every identifier of JavaScript is one. *)
Definition pathSegment (s : jsstring) : bool :=
  negb (eqs s [])
  && forallb (fun c => negb (c =? 47) && negb (c =? 0)) s
  && wellFormed s
  && negb (eqs s (str ".")) && negb (eqs s (str "..")).

(** A world in which the component can be generated: neither its
    directory nor an ancestor of it is a regular file; the directory
    exists, or the system refuses none of the directories that are
    missing; none of the four paths is a directory and the system refuses
    none of them. *)
Definition projectReady (cwd componentName : jsstring) (w : World) : Prop :=
  let dir := componentDirOf cwd componentName in
  (forall a, In a (ancestors [] dir) -> files w !! a = None)
  /\ (dir ∈ dirs w
      \/ forall a, In a (ancestors [] dir) -> a ∉ dirs w -> refuses w a = None)
  /\ forall f, In f (componentFiles componentName) ->
               (pathJoin dir f ∉ dirs w)
               /\ refuses w (pathJoin dir f) = None.

(** A project directory in which nothing has been generated yet. *)
Definition freshWorld : World :=
  {| files := ∅; dirs := {[ str "/app" ]}; refuses := fun _ => None;
     stdout := [] |}.

Definition formOptions : GenerationOptions :=
  {| type := Some (str "form"); styled := None; typed := None |}.

Definition unstyledOptions : GenerationOptions :=
  {| type := None; styled := Some false; typed := Some true |}.

End ScaffolderTerms.

Module TypeGeneratorTerms.
Import JS TypeGenerator.

(** JSON documents whose numbers are natural numbers (below [10^21],
    which JavaScript prints in full). *)
Definition naturals : Numbers :=
  {| number := nat; numberIsZero := Nat.eqb 0; numberToString := natToString |}.

Section Terms.
Context `{Numbers}.

(** *** The output format *)

(** An interface declaration with the given lines of fields. *)
Definition interfaceText (name fields : jsstring) : jsstring :=
  str "export interface " ++ name ++ str " {" ++ [LF] ++ fields ++ [LF]
    ++ str "}".

(** An interface, then the interface of the same fields with the suffix
    [Props]. *)
Definition twoInterfaces (name fields : jsstring) : jsstring :=
  interfaceText name fields ++ [LF; LF]
    ++ interfaceText (name ++ str "Props") fields ++ [LF].

(** The declaration of one field. *)
Definition fieldDeclaration (name type : jsstring) (required : bool)
    : jsstring :=
  str "  " ++ name ++ (if required then [] else str "?") ++ str ": " ++ type
    ++ str ";".

(** *** JSON schema documents *)

Definition memberOf (key : jsstring) (v : JSON) : option JSON :=
  match v with
  | JObject members => lookupMember key members
  | _ => None
  end.

(** The property map of a schema document. *)
Definition schemaProperties (schema : JSON) : list (jsstring * JSON) :=
  match memberOf (str "properties") schema with
  | Some (JObject props) => props
  | _ => []
  end.

(** Whether a name is in the required list of the schema. *)
Definition listedRequired (schema : JSON) (key : jsstring) : bool :=
  match memberOf (str "required") schema with
  | Some (JArray names) =>
      existsb (fun e => match e with
                        | JString s => eqs s key
                        | _ => false
                        end) names
  | _ => false
  end.

(** The item type of an array property, [any] when none is given. *)
Definition itemTypeName (prop : JSON) : jsstring :=
  match memberOf (str "items") prop with
  | Some items =>
      match memberOf (str "type") items with
      | Some (JString t) => if eqs t [] then str "any" else t
      | _ => str "any"
      end
  | None => str "any"
  end.

(** The table of the specification, from the declared kind of a property
    to the name of its type. *)
Definition tableType (prop : JSON) : jsstring :=
  match memberOf (str "type") prop with
  | Some (JString kind) =>
      if eqs kind (str "string") then str "string"
      else if eqs kind (str "number") then str "number"
      else if eqs kind (str "boolean") then str "boolean"
      else if eqs kind (str "array") then itemTypeName prop ++ str "[]"
      else if eqs kind (str "object") then
        if truthy (memberOf (str "additionalProperties") prop)
        then str "Record<string, any>"
        else str "object"
      else str "any"
  | _ => str "any"
  end.

(** The field the specification describes for an entry of the property
    map. *)
Definition tableProperty (schema : JSON) (entry : jsstring * JSON)
    : Property :=
  {| name := fst entry;
     type := tableType (snd entry);
     required := listedRequired schema (fst entry);
     description := memberOf (str "description") (snd entry) |}.

(** A schema of a property: any value but [null]; when it is an object,
    the [type] of its [items], when given, is a string, and its
    [description], when given, is a string. *)
Definition propertySchema (prop : JSON) : bool :=
  match prop with
  | JNull => false
  | JObject _ =>
      match memberOf (str "items") prop with
      | Some (JObject items) =>
          match lookupMember (str "type") items with
          | None | Some (JString _) => true
          | Some _ => false
          end
      | _ => true
      end
      && match memberOf (str "description") prop with
         | None | Some (JString _) => true
         | Some _ => false
         end
  | _ => true
  end.

(** A schema document: any value but [null]; when it is an object, its
    [properties], when given, is a map of property schemas and its
    [required], when given, is an array. *)
Definition schemaDocument (schema : JSON) : bool :=
  match schema with
  | JNull => false
  | JObject _ =>
      match memberOf (str "properties") schema with
      | None => true
      | Some (JObject props) => forallb (fun e => propertySchema (snd e)) props
      | Some _ => false
      end
      && match memberOf (str "required") schema with
         | None | Some (JArray _) => true
         | Some _ => false
         end
  | _ => true
  end.

(** The document of the example: two properties, [id] of type [string]
    and [count] of type [number], of which [id] is required. *)
Definition itemSchema : JSON :=
  JObject
    [ (str "properties",
       JObject [ (str "id", JObject [(str "type", JString (str "string"))]);
                 (str "count", JObject [(str "type", JString (str "number"))]) ]);
      (str "required", JArray [JString (str "id")]) ].

(** *** GraphQL schema texts *)

(** [/^\s*type\s+(\w+)/]: the line that opens the declaration of a type,
    with the name of the type. *)
Definition declaration_pattern : regex :=
  Seq Bol
   (Seq (Star (Chr isWhiteSpace))
    (Seq (Lit "type")
     (Seq (Plus (Chr isWhiteSpace)) (Group 1 (Plus (Chr isWordChar)))))).

(** The names of the types that a schema text declares. *)
Definition declaredTypes (schema : jsstring) : list jsstring :=
  flat_map (fun ln => match exec declaration_pattern ln with
                      | Some m => match capture 1 (groups m) with
                                  | Some name => [name]
                                  | None => []
                                  end
                      | None => []
                      end)
           (split LF schema).

Definition declaresType (schema typeName : jsstring) : bool :=
  existsb (eqs typeName) (declaredTypes schema).

(** The schema of the example, one field per line, and on one line. *)
Definition userSchema : jsstring := str "type User {
  id: ID!
  name: String
}".

Definition userSchemaOneLine : jsstring :=
  str "type User { id: ID! name: String }".

(** A schema with two types, the name of the second being the beginning
    of the name of the first. *)
Definition profileSchema : jsstring := str "type UserProfile {
  bio: String
}
type User {
  id: ID!
}".

End Terms.

End TypeGeneratorTerms.

Module RegexTerms.
Import JS.

(** The longest prefix of a text made of code units of a class, and what
    follows it. *)
Fixpoint spanRun (p : N -> bool) (s : jsstring) : jsstring :=
  match s with
  | c :: s' => if p c then c :: spanRun p s' else []
  | [] => []
  end.

Fixpoint spanRest (p : N -> bool) (s : jsstring) : jsstring :=
  match s with
  | c :: s' => if p c then spanRest p s' else s
  | [] => []
  end.

(** The text is empty or begins outside the class. *)
Definition stops (p : N -> bool) (rest : jsstring) : bool :=
  match rest with
  | [] => true
  | c :: _ => negb (p c)
  end.

(** What a greedy repetition of a class does on a run of the class: it
    goes on with the whole run, then with one code unit less, and so on
    down to none, until the rest of the pattern matches. *)
Fixpoint backtrack (k : mstate -> option mstate) (pre run rest : jsstring)
    (cs : list (nat * jsstring)) : option mstate :=
  match run with
  | [] => k (MState pre rest cs)
  | c :: run' =>
      match backtrack k (c :: pre) run' rest cs with
      | Some e => Some e
      | None => k (MState pre (c :: run' ++ rest) cs)
      end
  end.

End RegexTerms.

Module ValidatorExtraTerms.
Import JS Validator.

(** A lowercase letter followed by letters and digits. *)
Definition camelCase (s : jsstring) : bool :=
  match s with
  | c :: t => isLower c && forallb isAlnum t
  | [] => false
  end.

(** Whether a code unit occurs in a text. *)
Definition occursIn (c : N) (s : jsstring) : bool := existsb (N.eqb c) s.

(** The three rules that forbid a character in the selector: the name of
    the rule, the character and the message. *)
Definition characterRules : list (jsstring * N * jsstring) :=
  [ (str "noIds", 35, str "Avoid using ID selectors (#) in CSS modules");
    (str "noUniversal", 42,
     str "Avoid using universal selector (" ++ str "*) in CSS modules");
    (str "noImportant", 33, str "Avoid using !important in CSS modules") ].

(** A line that [validateCSS] examines: not blank, no comment. *)
Definition examined (ln : jsstring) : bool :=
  negb (eqs (trim ln) [] || startsWith (str "/*") (trim ln)
        || startsWith (str "//") (trim ln)).

(** The same issue, [n] lines further down. *)
Definition shiftLine (n : nat) (x : ValidationIssue) : ValidationIssue :=
  Issue (n + line x) (rule x) (message x) (content x).

End ValidatorExtraTerms.

Module ValidatorCLITerms.
Import JS Validator CommandLine ValidatorCLI.

(** Induction on a directory tree, with the property known of every
    entry of a directory. *)
Fixpoint Node_induction (P : Node -> Prop)
    (Hfile : P FileNode)
    (Hdir : forall entries,
        List.Forall (fun e => P (snd e)) entries -> P (DirNode entries))
    (Hdenied : forall msg, P (Denied msg))
    (n : Node) : P n :=
  match n with
  | FileNode => Hfile
  | Denied msg => Hdenied msg
  | DirNode entries =>
      Hdir entries
        ((fix all (l : list (jsstring * Node))
            : List.Forall (fun e => P (snd e)) l :=
            match l with
            | [] => @List.Forall_nil _ _
            | (f, child) :: rest =>
                @List.Forall_cons _ (fun e => P (snd e)) (f, child) rest
                  (Node_induction P Hfile Hdir Hdenied child) (all rest)
            end) entries)
  end.

(** [reaches n names target]: going down from [n] through the entries
    named [names] leads to [target]. *)
Inductive reaches : Node -> list jsstring -> Node -> Prop :=
| reaches_here n : reaches n [] n
| reaches_entry entries f child names target :
    In (f, child) entries ->
    reaches child names target ->
    reaches (DirNode entries) (f :: names) target.

(** The path of what is reached from [dir] through [names]. *)
Definition pathOf (dir : jsstring) (names : list jsstring) : jsstring :=
  fold_left Scaffolder.pathJoin names dir.

Definition isDirectory (n : Node) : bool :=
  match n with
  | DirNode _ => true
  | _ => false
  end.

(** Whether a file has issues, an unreadable file being one. *)
Definition hasIssues (env : Env) (filePath : jsstring) : bool :=
  negb (Nat.eqb (length (validateFile (readFileSync env) filePath)) 0).

(** A small tree: [Button/Button.module.css], [Button/Button.tsx] and
    [theme.css] under the directory. *)
Definition sampleTree : Node :=
  DirNode [ (str "Button",
             DirNode [ (str "Button.module.css", FileNode);
                       (str "Button.tsx", FileNode) ]);
            (str "theme.css", FileNode) ].

End ValidatorCLITerms.

Module ScaffolderExtraTerms.
Import JS Scaffolder ScaffolderTerms.

(** The files after a run that used the template [t] and the style
    sheet template [c]. *)
Definition finalFiles (cwd x : jsstring) (opts : GenerationOptions)
    (t c : jsstring) (m : gmap jsstring jsstring) : gmap jsstring jsstring :=
  let dir := componentDirOf cwd x in
  <[pathJoin dir (testFileName x) := testContent x]>
    (<[pathJoin dir indexFileName
       := indexContent (default true (typed opts)) x]>
       ((if default true (styled opts)
         then <[pathJoin dir (cssFileName x) := renderCss c x]>
         else id)
          (<[pathJoin dir (componentFileName x) := renderComponent t x]> m))).

(** The four paths of a component. *)
Definition componentPaths (cwd x : jsstring) : list jsstring :=
  List.map (pathJoin (componentDirOf cwd x)) (componentFiles x).

(** The files of [paths] can be written in the directory [dir]: the
    directory is there and neither it nor an ancestor of it is a regular
    file; each of the paths is in the directory, is no directory, and is
    not refused by the system. *)
Definition writableAt (dir : jsstring) (paths : list jsstring) (w : World)
    : Prop :=
  dir ∈ dirs w
  /\ (forall a, In a (ancestors [] dir) -> files w !! a = None)
  /\ forall p, In p paths ->
       (p ∉ dirs w) /\ refuses w p = None
       /\ parentDir p = dir /\ ~ In p (ancestors [] dir).

(** A computation that returns in such a world, leaves its directories
    as they are and leaves it such a world. *)
Definition returnsAt {A} (dir : jsstring) (paths : list jsstring) (m : M A)
    : Prop :=
  forall w, writableAt dir paths w ->
    exists a w', m w = (inr a, w') /\ dirs w' = dirs w
                 /\ writableAt dir paths w'.

(** A computation that, whether it returns or throws, leaves every file
    outside [paths] as it is. *)
Definition keeps {A} (paths : list jsstring) (m : M A) : Prop :=
  forall w r w', m w = (r, w') ->
    forall p, ~ In p paths -> files w' !! p = files w !! p.

(** The template types that are own properties of neither table and no
    member of [Object.prototype]. *)
Definition unknownType (ty : jsstring) : bool :=
  negb (existsb (eqs ty) supportedTypes)
  && negb (existsb (eqs ty) objectPrototypeKeys).

(** What a style sheet template must be for the statements on the
    rendered style sheet: it begins with the class of the component,
    followed by a space, a brace and a line feed, and once the
    placeholders are taken out no two opening braces are left side by
    side. *)
Definition cssTemplateOK (c : jsstring) : bool :=
  match pieces componentName_token 0 c with
  | first :: second :: _ =>
      eqs first (str ".") && startsWith (str " {" ++ [LF]) second
  | _ => false
  end
  && forallb (fun d => negb (includes (str "{{") d))
             (pieces componentName_token 0 c).

End ScaffolderExtraTerms.

Module ScaffolderOutputTerms.
Import JS Scaffolder CommandLine ScaffolderTerms.

(** Whether one of the chunks ends with [before] and the next one begins
    with [after]; each chunk is given by its own pieces. *)
Fixpoint adjacent (before after : jsstring) (chunks : list (list jsstring))
    : bool :=
  match chunks with
  | [] => false
  | c1 :: rest =>
      match c1, rest with
      | _ :: _, (h :: _) :: _ =>
          endsWith before (List.last c1 []) && startsWith after h
      | _, _ => false
      end
      || adjacent before after rest
  end.

(** The template holds [before{{ComponentName}}after], and no other
    placeholder reaches into the two texts. *)
Definition placeholderBetween (before after template : jsstring) : bool :=
  adjacent before after
    (List.map (pieces componentName_token 0)
              (pieces ComponentName_token 0 template)).

(** What the barrel file and the style sheet import count on: the
    template imports the style sheet of the component, declares the
    interface of its props, and exports the component by its name and as
    the default. *)
Definition templateExports (template : jsstring) : bool :=
  placeholderBetween (str "import styles from './") (str ".module.css';")
                     template
  && placeholderBetween (str "export interface ") (str "Props {") template
  && placeholderBetween (str "export const ") (str ": React.FC<") template
  && placeholderBetween (str "export default ") (str ";") template.

End ScaffolderOutputTerms.

Module PathTerms.
Import JS Scaffolder.

(** A text without a slash. *)
Definition noSlash (s : jsstring) : bool := forallb (fun c => negb (c =? 47)) s.

(** A segment that stays: not empty, not [.] and not [..]. *)
Definition ordinary (s : jsstring) : bool :=
  negb (eqs s []) && negb (eqs s (str ".")) && negb (eqs s (str "..")).

Definition dotdot (s : jsstring) : bool := eqs s (str "..").

(** The kept segments, the last one first, are ordinary ones on top of
    [..] segments, which a relative path alone can have. *)
Fixpoint clean (allowAboveRoot : bool) (res : list jsstring) : bool :=
  match res with
  | [] => true
  | top :: below =>
      if dotdot top then allowAboveRoot && forallb dotdot below
      else ordinary top && clean allowAboveRoot below
  end.

Definition isAbsolute (q : jsstring) : bool :=
  match q with c :: _ => c =? 47 | [] => false end.

Definition root (q : jsstring) : jsstring :=
  if isAbsolute q then str "/" else [].

(** The segments that [path.normalize] keeps of a path. *)
Definition keptOf (q : jsstring) : list jsstring :=
  rev (normalizeString (negb (isAbsolute q)) [] (split 47 q)).

(** The last segment of a path. *)
Definition lastSegment (q : jsstring) : jsstring := List.last (split 47 q) [].

(** A normalized path that ends with an ordinary segment. *)
Definition normalEnding (d : jsstring) : Prop :=
  exists q S e,
    split 47 q = S ++ [e] /\ ordinary e = true /\ d = normalize q.

(** The text that [path.join] normalizes for the directory of a
    component. *)
Definition componentDirText (cwd componentName : jsstring) : jsstring :=
  join (str "/")
       (List.filter (fun a => negb (eqs a []))
                    [cwd; str "components"; componentName]).

End PathTerms.

Module TypeGeneratorExtraTerms.
Import JS TypeGenerator CommandLine RegexTerms TypeGeneratorTerms.

(** A field line of a GraphQL type, cut into its parts: the indentation,
    the name, the mark between the name and the colon, the blanks after
    the colon, the type and what follows the type. *)
Record FieldLine : Type := {
  indentation : jsstring;
  fieldName : jsstring;
  mark : jsstring;
  gap : jsstring;
  fieldType : jsstring;
  trailer : jsstring
}.

Definition lineOf (f : FieldLine) : jsstring :=
  indentation f ++ fieldName f ++ mark f ++ 58 :: gap f ++ fieldType f
    ++ trailer f.

Definition notBlank (c : N) : bool := negb (isWhiteSpace c).

(** The parts are what they are called: blanks, a word, nothing or an
    exclamation mark, blanks, a text without blanks, and a rest that is
    empty or begins with a blank. *)
Definition fieldLineOK (f : FieldLine) : bool :=
  forallb isWhiteSpace (indentation f)
  && negb (eqs (fieldName f) [])
  && forallb isWordChar (fieldName f)
  && (eqs (mark f) [] || eqs (mark f) (str "!"))
  && forallb isWhiteSpace (gap f)
  && negb (eqs (fieldType f) [])
  && forallb notBlank (fieldType f)
  && stops notBlank (trailer f).

(** A line that does not end the block of a type: it holds the marker of
    the type, or no closing brace. *)
Definition insideBlock (typeName ln : jsstring) : bool :=
  includes (typeMarker typeName) ln || negb (includes (str "}") ln).

(** Where the block ends: at the end of the text, or at a line with a
    closing brace and without the marker. *)
Definition blockEnd (typeName : jsstring) (tail : list jsstring) : bool :=
  match tail with
  | [] => true
  | closing :: _ =>
      negb (includes (typeMarker typeName) closing)
      && includes (str "}") closing
  end.

(** A field line inside the block of a type. *)
Definition blockField (typeName : jsstring) (f : FieldLine) : bool :=
  fieldLineOK f
  && negb (includes (typeMarker typeName) (lineOf f))
  && negb (includes (str "}") (lineOf f)).

(** The declaration that the generator writes for a field line. *)
Definition declarationOf (f : FieldLine) : jsstring :=
  fieldDeclaration (fieldName f) (removeFirst 33 (fieldType f))
    (eqs (mark f) (str "!")).

(** The two field lines of the example: [  id: ID!] and
    [  name: String]. *)
Definition idField : FieldLine :=
  {| indentation := str "  "; fieldName := str "id"; mark := [];
     gap := str " "; fieldType := str "ID!"; trailer := [] |}.

Definition nameField : FieldLine :=
  {| indentation := str "  "; fieldName := str "name"; mark := [];
     gap := str " "; fieldType := str "String"; trailer := [] |}.

Section Terms.
Context `{Numbers}.

(** The property that the generator makes of a field line. *)
Definition propertyOfLine (f : FieldLine) : Property :=
  {| name := fieldName f;
     type := removeFirst 33 (fieldType f);
     required := eqs (mark f) (str "!");
     description := None |}.

(** The comment of a property of a JSON schema: its description, when it
    is a text that is not empty. *)
Definition commentOf (prop : JSON) : jsstring :=
  match memberOf (str "description") prop with
  | Some (JString d) =>
      if eqs d [] then [] else str "  /** " ++ d ++ str " */" ++ [LF]
  | _ => []
  end.

(** The lines of a property of a JSON schema in the generated text. *)
Definition fieldText (schema : JSON) (entry : jsstring * JSON) : jsstring :=
  commentOf (snd entry)
    ++ fieldDeclaration (fst entry) (tableType (snd entry))
         (listedRequired schema (fst entry)).

(** Induction on a JSON value, with the property known of every element
    of an array. *)
Fixpoint JSON_induction (P : JSON -> Prop)
    (Hnull : P JNull)
    (Hbool : forall b, P (JBool b))
    (Hnumber : forall n, P (JNumber n))
    (Hstring : forall s, P (JString s))
    (Harray : forall elements, List.Forall P elements -> P (JArray elements))
    (Hobject : forall members, P (JObject members))
    (v : JSON) : P v :=
  match v with
  | JNull => Hnull
  | JBool b => Hbool b
  | JNumber n => Hnumber n
  | JString s => Hstring s
  | JObject members => Hobject members
  | JArray elements =>
      Harray elements
        ((fix all (l : list JSON) : List.Forall P l :=
            match l with
            | [] => @List.Forall_nil _ _
            | e :: rest =>
                @List.Forall_cons _ P e rest
                  (JSON_induction P Hnull Hbool Hnumber Hstring Harray
                     Hobject e)
                  (all rest)
            end) elements)
  end.

(** A schema with a description: the property [id] of type [string],
    required, described as [The key]. *)
Definition describedSchema : JSON :=
  JObject
    [ (str "properties",
       JObject [ (str "id",
                  JObject [ (str "type", JString (str "string"));
                            (str "description", JString (str "The key")) ]);
                 (str "tags",
                  JObject [ (str "type", JString (str "array"));
                            (str "items",
                             JObject [(str "type", JString (str "string"))]) ])
               ]);
      (str "required", JArray [JString (str "id")]) ].

(** A schema one of whose properties is [null]. *)
Definition nullPropertySchema : JSON :=
  JObject [ (str "properties", JObject [ (str "id", JNull) ]) ].

End Terms.

(** A text of code units below 128, on which the model of
    [toLowerCase] is exact. *)
Definition asciiText (s : jsstring) : bool := forallb (fun c => c <? 128) s.

(** The arguments after the command name the output file without the
    case mapping of a code unit outside ASCII: the third of them is
    given and not empty, or the type name is ASCII text. *)
Definition outputNamed (rest : list jsstring) : bool :=
  negb (missing (argAt rest 2)) || asciiText (default [] (argAt rest 1)).

(** Surroundings in which every file reads as the text of
    [describedSchema] and every write succeeds. *)
Definition sampleEnv : @TypeGeneratorCLI.Env naturals :=
  {| TypeGeneratorCLI.readFileSync := fun _ => Validator.ReadOk (str "{...}");
     TypeGeneratorCLI.parseJSON := fun _ => inr describedSchema;
     TypeGeneratorCLI.writeError := fun _ => None |}.

End TypeGeneratorExtraTerms.

(** * Properties *)

(** ** The style validator *)

Module ValidatorFacts.
Import JS Validator ValidatorTerms.

Lemma selectorIssues_line lineNum selector x :
  In x (selectorIssues lineNum selector) -> line x = lineNum.
Proof.
  unfold selectorIssues. rewrite in_flat_map.
  intros [[ruleName r] [_ Hx]].
  destruct (rule_pattern r) as [[pattern msg]|]; [|contradiction].
  destruct (negb (test pattern selector)); [|contradiction].
  destruct Hx as [<-|[]]. reflexivity.
Qed.

Lemma validateIssues_line r ruleName lineNum trimmed x :
  In x (validateIssues r ruleName lineNum trimmed) -> line x = lineNum.
Proof.
  unfold validateIssues.
  destruct (rule_validate r) as [validate|]; [|contradiction].
  destruct (negb (valid (validate trimmed))); [|contradiction].
  intros [<-|[]]. reflexivity.
Qed.

Lemma validateLine_line index ln x :
  In x (validateLine index ln) -> line x = (index + 1)%nat.
Proof.
  unfold validateLine.
  destruct (eqs (trim ln) [] || startsWith (str "/*") (trim ln)
            || startsWith (str "//") (trim ln)); [contradiction|].
  rewrite in_app_iff. intros [Hsel|Hunit].
  - destruct (includes (str "{") (trim ln)); [|contradiction].
    apply in_app_iff in Hsel as [Hsel|Himp].
    + eapply selectorIssues_line; eassumption.
    + eapply validateIssues_line; eassumption.
  - eapply validateIssues_line; eassumption.
Qed.

Lemma forEachLine_line lines : forall index x,
  In x (forEachLine index lines) -> (index + 1 <= line x)%nat.
Proof.
  induction lines as [|ln rest IH]; intros index x; simpl; [contradiction|].
  rewrite in_app_iff. intros [Hhere|Hlater].
  - apply validateLine_line in Hhere. lia.
  - apply IH in Hlater. lia.
Qed.

Lemma forEachLine_nth lines : forall index i ln x,
  nth_error lines i = Some ln ->
  In x (validateLine (index + i) ln) ->
  In x (forEachLine index lines).
Proof.
  induction lines as [|l0 rest IH]; intros index i ln x Hnth Hx.
  - destruct i; discriminate.
  - simpl. apply in_app_iff. destruct i as [|i]; simpl in Hnth.
    + injection Hnth as ->. left. now rewrite Nat.add_0_r in Hx.
    + right. apply (IH (S index) i ln); [assumption|].
      now replace (S index + i)%nat with (index + S i)%nat by lia.
Qed.

(** The naming pattern is anchored at the start of the input, so only the
    attempt at position 0 can succeed. *)
Lemma classNaming_not_later c pre rest :
  execFrom classNaming_pattern (c :: pre) rest = None.
Proof.
  revert c pre. induction rest as [|d rest IH]; intros c pre.
  - reflexivity.
  - simpl. apply IH.
Qed.

Lemma classNaming_rejects_dot s :
  test classNaming_pattern (46 :: s) = false.
Proof.
  unfold test, exec. simpl.
  now rewrite classNaming_not_later.
Qed.

Lemma classNaming_rejects_prefix selector :
  startsWith (str ".") selector = true ->
  test classNaming_pattern selector = false.
Proof.
  destruct selector as [|c s]; [discriminate|].
  change (startsWith (str ".") (c :: s)) with ((46 =? c) && true).
  rewrite andb_true_r. intros Hc%N.eqb_eq. subst c.
  apply classNaming_rejects_dot.
Qed.

Lemma selectorIssues_classNaming lineNum selector :
  test classNaming_pattern selector = false ->
  In (Issue lineNum (str "classNaming") classNaming_message selector)
     (selectorIssues lineNum selector).
Proof.
  intros Hfail. unfold selectorIssues. apply in_flat_map.
  exists (str "classNaming", classNaming). split; [now left|].
  simpl. rewrite Hfail. now left.
Qed.

(** C1 (what the code does on the input of the claim): the module whose
    only line is [.myClass { color: red; }] does not validate cleanly; the
    validator returns one issue, of the naming rule, at line 1, because
    the selector [.myClass] starts with a dot. *)
Theorem validateCSS_myClass filePath :
  validateCSS (str ".myClass { color: red; }") filePath
  = [ Issue 1 (str "classNaming") classNaming_message (str ".myClass") ].
Proof. reflexivity. Qed.

(** C5 (what the code does on a declaration that uses [!important]): in
    the module below, the declaration at line 2 uses [!important] and no
    issue is reported at line 2, nor any issue of the rule [noImportant]
    at all; the only issue is the naming issue of line 1.  The same holds
    when the declaration is on the line of the selector. *)
Theorem validateCSS_important_declaration filePath :
  validateCSS (str ".box {
  color: red !important;
}") filePath
  = [ Issue 1 (str "classNaming") classNaming_message (str ".box") ]
  /\ validateCSS (str "box { color: red !important; }") filePath = [].
Proof. split; reflexivity. Qed.

(** C9 (as amended): every issue that [validateCSS] returns has a line
    number of at least 1; for a file that could be read, [validateFile]
    returns the issues of its content, each with a line number of at
    least 1; for a file that cannot be read, [validateFile] returns
    exactly one issue, the [fileError] issue, whose line number is 0. *)
Theorem issue_lines readFileSync content filePath :
  (forall x, In x (validateCSS content filePath) -> (1 <= line x)%nat)
  /\ match readFileSync filePath with
     | ReadOk read =>
         validateFile readFileSync filePath = validateCSS read filePath
         /\ forall x, In x (validateFile readFileSync filePath) ->
                      (1 <= line x)%nat
     | ReadError msg =>
         validateFile readFileSync filePath
         = [Issue 0 (str "fileError") (str "Could not read file: " ++ msg) []]
     end.
Proof.
  split.
  - intros x Hx. apply forEachLine_line in Hx. lia.
  - unfold validateFile. destruct (readFileSync filePath) as [c|msg].
    + split; [reflexivity|]. intros x Hx. apply forEachLine_line in Hx. lia.
    + reflexivity.
Qed.

(** On a file that cannot be read, and on a style sheet of one line. *)
Lemma issue_lines_witness :
  validateFile unreadable (str "missing.module.css")
  = [Issue 0 (str "fileError")
       (str "Could not read file: ENOENT: no such file or directory, open 'missing.module.css'")
       []]
  /\ (1 <= line (Issue 1 (str "classNaming") classNaming_message (str ".a")))%nat.
Proof.
  split.
  - exact (proj2 (issue_lines unreadable [] (str "missing.module.css"))).
  - apply (proj1 (issue_lines unreadable (str ".a {}") [])). now left.
Defined.

(** C9 (as stated) fails: for a file that cannot be read, [validateFile]
    returns an issue whose line number is 0. *)
Lemma fileError_line_zero :
  exists x, In x (validateFile unreadable (str "missing.module.css"))
            /\ ~ (1 <= line x)%nat.
Proof.
  eexists. split; [now left|]. simpl. lia.
Qed.

(** C10: a line that is not blank, is no comment, holds an opening brace
    and whose selector begins with a dot gives an issue of the rule
    [classNaming] at that line: the pattern [^[a-z][a-zA-Z0-9]*$] is
    tested on the selector with its dot, and no text that begins with a
    dot matches it. *)
Theorem class_selector_flagged content filePath (i : nat) (ln : jsstring) :
  nth_error (split LF content) i = Some ln ->
  eqs (trim ln) [] = false ->
  startsWith (str "/*") (trim ln) = false ->
  startsWith (str "//") (trim ln) = false ->
  includes (str "{") (trim ln) = true ->
  startsWith (str ".") (selectorOf (trim ln)) = true ->
  test classNaming_pattern (selectorOf (trim ln)) = false
  /\ In (Issue (i + 1) (str "classNaming") classNaming_message
               (selectorOf (trim ln)))
        (validateCSS content filePath).
Proof.
  intros Hnth Hblank Hc1 Hc2 Hbrace Hdot.
  pose proof (classNaming_rejects_prefix _ Hdot) as Hfail.
  split; [exact Hfail|].
  unfold validateCSS. apply (forEachLine_nth _ 0 i ln); [exact Hnth|].
  unfold validateLine. rewrite Hblank, Hc1, Hc2, Hbrace. simpl orb. cbv iota.
  apply in_app_iff. left. apply in_app_iff. left.
  apply selectorIssues_classNaming. exact Hfail.
Qed.

Lemma class_selector_flagged_witness :
  test classNaming_pattern (str ".myClass") = false
  /\ In (Issue 2 (str "classNaming") classNaming_message (str ".myClass"))
        (validateCSS (str "/* card */
  .myClass { color: red; }") []).
Proof.
  exact (class_selector_flagged (str "/* card */
  .myClass { color: red; }") [] 1 (str "  .myClass { color: red; }")
           eq_refl eq_refl eq_refl eq_refl eq_refl eq_refl).
Defined.

End ValidatorFacts.

(** ** Strings and literal patterns *)

Module StringFacts.
Import JS ScaffolderTerms.

Lemma startsWith_length p : forall s,
  startsWith p s = true -> (length p <= length s)%nat.
Proof.
  induction p as [|x p IH]; intros [|y s]; simpl; try lia; try discriminate.
  intros [_ Hp]%andb_true_iff. apply IH in Hp. lia.
Qed.

Lemma startsWith_app p : forall a z,
  startsWith p a = true -> startsWith p (a ++ z) = true.
Proof.
  induction p as [|x p IH]; intros [|y a] z; simpl; try easy.
  intros [Hx Hp]%andb_true_iff. rewrite Hx. simpl. now apply IH.
Qed.

Lemma startsWith_app_false p : forall a z,
  startsWith p a = false -> startsWith a p = false ->
  startsWith p (a ++ z) = false.
Proof.
  induction p as [|x p IH]; intros [|y a] z; simpl; try easy.
  destruct (x =? y) eqn:Hxy; [|reflexivity].
  apply N.eqb_eq in Hxy. subst y. rewrite N.eqb_refl. simpl. apply IH.
Qed.

Lemma startsWith_trans q : forall p s,
  startsWith q p = true -> startsWith p s = true -> startsWith q s = true.
Proof.
  induction q as [|x q IH]; intros [|y p] [|z s]; simpl; try easy.
  intros [Hxy Hq]%andb_true_iff [Hyz Hp]%andb_true_iff.
  apply N.eqb_eq in Hxy. subst y. rewrite Hyz. simpl. eapply IH; eassumption.
Qed.

Lemma startsWith_self_app x : forall z, startsWith x (x ++ z) = true.
Proof.
  induction x as [|c x IH]; intros z; simpl; [reflexivity|].
  rewrite N.eqb_refl. apply IH.
Qed.

Lemma includes_cons p c s : includes p s = true -> includes p (c :: s) = true.
Proof. intros Hs. simpl. rewrite Hs. apply orb_true_r. Qed.

Lemma includes_app_r p a : forall s,
  includes p s = true -> includes p (a ++ s) = true.
Proof.
  induction a as [|c a IH]; intros s Hs; [exact Hs|].
  simpl app. apply includes_cons. now apply IH.
Qed.

Lemma includes_middle x a z : includes x (a ++ x ++ z) = true.
Proof.
  apply includes_app_r. destruct (x ++ z) eqn:E; simpl.
  - destruct x; [reflexivity|discriminate].
  - rewrite <- E. now rewrite startsWith_self_app.
Qed.

(** An occurrence of a text is an occurrence of each of its prefixes. *)
Lemma includes_prefix q p s :
  startsWith q p = true -> includes p s = true -> includes q s = true.
Proof.
  intros Hq. induction s as [|c s IH]; simpl.
  - rewrite orb_false_r. intros Hp.
    rewrite (startsWith_trans q p [] Hq Hp). reflexivity.
  - intros [Hp|Hs]%orb_true_iff.
    + rewrite (startsWith_trans q p (c :: s) Hq Hp). reflexivity.
    + rewrite (IH Hs). apply orb_true_r.
Qed.

Lemma occurrences_none p s : includes p s = false -> occurrences p s = 0%nat.
Proof.
  induction s as [|c s IH]; simpl.
  - rewrite orb_false_r. now intros ->.
  - intros [-> Hs]%orb_false_iff. now rewrite IH.
Qed.

(** *** Two equal code units side by side *)

Section Pair.
Variable b : N.

Lemma no_pair_after (v : jsstring) : forall z,
  forallb (fun c => negb (c =? b)) v = true ->
  includes [b; b] z = false ->
  includes [b; b] (v ++ z) = false.
Proof.
  induction v as [|c v IH]; intros z Hv Hz; [exact Hz|].
  simpl in Hv. apply andb_true_iff in Hv as [Hc Hv].
  apply negb_true_iff in Hc.
  change (includes [b; b] ((c :: v) ++ z))
    with (startsWith [b; b] (c :: v ++ z) || includes [b; b] (v ++ z)).
  rewrite (IH z Hv Hz), orb_false_r.
  change (startsWith [b; b] (c :: v ++ z))
    with ((b =? c) && startsWith [b] (v ++ z)).
  now rewrite N.eqb_sym, Hc.
Qed.

Lemma no_pair_around (a v z : jsstring) :
  v <> [] ->
  forallb (fun c => negb (c =? b)) v = true ->
  includes [b; b] a = false ->
  includes [b; b] z = false ->
  includes [b; b] (a ++ v ++ z) = false.
Proof.
  intros Hne Hv Ha Hz. induction a as [|x a IH].
  - cbn [app]. apply no_pair_after; assumption.
  - change (includes [b; b] ((x :: a) ++ v ++ z))
      with (startsWith [b; b] (x :: a ++ v ++ z)
            || includes [b; b] (a ++ v ++ z)).
    change (includes [b; b] (x :: a))
      with (startsWith [b; b] (x :: a) || includes [b; b] a) in Ha.
    apply orb_false_iff in Ha as [Hx Ha].
    rewrite (IH Ha), orb_false_r.
    change (startsWith [b; b] (x :: a ++ v ++ z))
      with ((b =? x) && startsWith [b] (a ++ v ++ z)).
    change (startsWith [b; b] (x :: a))
      with ((b =? x) && startsWith [b] a) in Hx.
    destruct (b =? x); [|reflexivity]. simpl in *.
    destruct a as [|y a].
    + destruct v as [|c v]; [contradiction|].
      simpl in Hv. apply andb_true_iff in Hv as [Hc _].
      apply negb_true_iff in Hc. simpl.
      now rewrite N.eqb_sym, Hc.
    + exact Hx.
Qed.

Lemma no_pair_join (v : jsstring) (l : list jsstring) :
  v <> [] ->
  forallb (fun c => negb (c =? b)) v = true ->
  forallb (fun d => negb (includes [b; b] d)) l = true ->
  includes [b; b] (join v l) = false.
Proof.
  intros Hne Hv. induction l as [|d l IH]; [reflexivity|].
  intros [Hd Hl]%andb_true_iff. apply negb_true_iff in Hd.
  destruct l as [|d' l]; [exact Hd|].
  change (join v (d :: d' :: l)) with (d ++ v ++ join v (d' :: l)).
  apply no_pair_around; auto.
Qed.

End Pair.

(** *** Replacing a text *)

Lemma join_consTo v c l : l <> [] -> join v (consTo c l) = c :: join v l.
Proof. destruct l as [|h [|h' r]]; [contradiction|reflexivity|reflexivity]. Qed.

Lemma consTo_nonempty c l : consTo c l <> [].
Proof. now destruct l. Qed.

Lemma pieces_nonempty p s : forall skip, pieces p skip s <> [].
Proof.
  induction s as [|c s IH]; intros [|k]; simpl; try easy.
  - now destruct (startsWith p []).
  - destruct (startsWith p (c :: s)); [easy|]. apply consTo_nonempty.
Qed.

Lemma join_cons_nil v l : l <> [] -> join v ([] :: l) = v ++ join v l.
Proof. destruct l; [contradiction|reflexivity]. Qed.

(** Replacing the occurrences of [p] by [v] is cutting at the
    occurrences and joining with [v]. *)
Lemma join_pieces b p' v s : forall skip,
  join v (pieces (b :: p') skip s) = replaceLit (b :: p') v skip s.
Proof.
  induction s as [|c s IH]; intros [|k]; try reflexivity.
  - simpl pieces. simpl replaceLit.
    destruct ((b =? c) && startsWith p' s).
    + rewrite join_cons_nil by apply pieces_nonempty. now rewrite IH.
    + rewrite join_consTo by apply pieces_nonempty. now rewrite IH.
  - simpl. apply IH.
Qed.

Lemma decided_app b p' v a : forall skip z,
  decided (b :: p') skip a = true ->
  replaceLit (b :: p') v skip (a ++ z)
  = replaceLit (b :: p') v skip a ++ replaceLit (b :: p') v 0 z.
Proof.
  induction a as [|c a IH]; intros [|k] z Hd; try discriminate.
  - reflexivity.
  - cbn [decided length] in Hd. cbn [app replaceLit length].
    change (c :: a ++ z) with ((c :: a) ++ z).
    destruct (startsWith (b :: p') (c :: a)) eqn:Hs.
    + rewrite (startsWith_app _ _ z Hs). rewrite <- app_assoc.
      f_equal. now apply IH.
    + apply andb_true_iff in Hd as [Hn Hd]. apply negb_true_iff in Hn.
      rewrite (startsWith_app_false _ _ z Hs Hn).
      cbn [app]. f_equal. now apply IH.
  - cbn [decided] in Hd. cbn [app replaceLit]. now apply IH.
Qed.

Lemma replaceLit_pass b p' v x : forall z,
  forallb (fun c => negb (c =? b)) x = true ->
  replaceLit (b :: p') v 0 (x ++ z) = x ++ replaceLit (b :: p') v 0 z.
Proof.
  induction x as [|c x IH]; intros z Hx; [reflexivity|].
  simpl in Hx. apply andb_true_iff in Hx as [Hc Hx].
  apply negb_true_iff in Hc.
  cbn [app replaceLit startsWith]. rewrite N.eqb_sym, Hc. cbn [andb].
  f_equal. now apply IH.
Qed.

Lemma replaceLit_join b p' v x chunks :
  forallb (fun c => negb (c =? b)) x = true ->
  forallb (decided (b :: p') 0) chunks = true ->
  replaceLit (b :: p') v 0 (join x chunks)
  = join x (List.map (replaceLit (b :: p') v 0) chunks).
Proof.
  intros Hx. induction chunks as [|a chunks IH]; [reflexivity|].
  intros [Ha Hrest]%andb_true_iff.
  destruct chunks as [|a' chunks]; [reflexivity|].
  change (join x (a :: a' :: chunks)) with (a ++ x ++ join x (a' :: chunks)).
  rewrite (decided_app _ _ _ _ _ _ Ha), (replaceLit_pass _ _ _ _ _ Hx).
  rewrite (IH Hrest). reflexivity.
Qed.

(** *** Literal patterns in the matcher *)

Lemma rmatch_litOf l k : forall st,
  rmatch (litOf l) k st
  = if startsWith (List.map N_of_ascii l) (after st)
    then k (MState (rev (List.map N_of_ascii l) ++ before st)
                   (skipn (length l) (after st)) (caps st))
    else None.
Proof.
  induction l as [|a l IH]; intros [pre rest cs].
  - reflexivity.
  - cbn [litOf fold_right rmatch after before caps List.map startsWith].
    destruct rest as [|c rest]; [reflexivity|].
    fold (litOf l). destruct (N_of_ascii a =? c) eqn:Hac; [|reflexivity].
    apply N.eqb_eq in Hac. subst c. rewrite IH.
    cbn [after before caps andb skipn length rev].
    now rewrite <- app_assoc.
Qed.

Lemma matchHere_Lit c pre rest :
  matchHere (Lit c) pre rest
  = if startsWith (str c) rest
    then Some (Match (length pre) (firstn (length (str c)) rest) [])
    else None.
Proof.
  unfold matchHere, Lit.
  rewrite rmatch_litOf. unfold str. cbn [after before caps].
  destruct (startsWith _ rest) eqn:Hs; [|reflexivity].
  apply startsWith_length in Hs.
  unfold consumed. cbn [after]. rewrite length_skipn, length_map in *.
  repeat f_equal. lia.
Qed.

(** A replacement text without a dollar stands for itself. *)
Lemma getSubstitution_cons m s c repl :
  c <> 36 ->
  getSubstitution m s (c :: repl) = c :: getSubstitution m s repl.
Proof.
  intros Hc. destruct c as [|p]; [reflexivity|].
  do 6 (try (destruct p as [p|p|]; try reflexivity)).
  contradiction.
Qed.

Lemma getSubstitution_plain m s repl :
  forallb (fun c => negb (c =? 36)) repl = true ->
  getSubstitution m s repl = repl.
Proof.
  induction repl as [|c repl IH]; [reflexivity|].
  simpl forallb. intros [Hc Hr]%andb_true_iff.
  apply negb_true_iff, N.eqb_neq in Hc.
  rewrite getSubstitution_cons by assumption. now rewrite IH.
Qed.

Lemma walk_Lit c repl s : forall skip pre rest,
  forallb (fun c => negb (c =? 36)) repl = true ->
  flat_map (fun p => match p with
                     | Keep c => [c]
                     | Hit m => getSubstitution m s repl
                     end)
           (walk (Lit c) skip pre rest)
  = replaceLit (str c) repl skip rest.
Proof.
  intros skip pre rest Hr. revert skip pre.
  induction rest as [|x rest IH]; intros [|k] pre; try reflexivity.
  - cbn [walk replaceLit]. rewrite matchHere_Lit.
    destruct (startsWith (str c) []); [|reflexivity].
    cbn [flat_map]. now rewrite getSubstitution_plain by assumption.
  - cbn [walk replaceLit]. rewrite matchHere_Lit.
    destruct (startsWith (str c) (x :: rest)) eqn:Hs.
    + cbn [flat_map matched]. rewrite getSubstitution_plain by assumption.
      f_equal. apply startsWith_length in Hs.
      rewrite length_firstn, Nat.min_l by exact Hs.
      destruct (length (str c)); [cbn [flat_map app]; f_equal|]; apply IH.
    + cbn [flat_map app]. f_equal. apply IH.
  - cbn [walk replaceLit]. apply IH.
Qed.

Lemma replaceAll_Lit c repl s :
  forallb (fun c => negb (c =? 36)) repl = true ->
  replaceAll (Lit c) repl s = replaceLit (str c) repl 0 s.
Proof. intros Hr. unfold replaceAll. now apply walk_Lit. Qed.

End StringFacts.

Module TextFacts.
Import JS CommandLine StringFacts.

(** *** Texts: equality, ends, lines and blanks *)

Lemma eqs_eq a : forall b, eqs a b = true -> a = b.
Proof.
  induction a as [|x a IH]; intros [|y b]; simpl; try easy.
  intros [Hx Hab]%andb_true_iff. apply N.eqb_eq in Hx. f_equal; auto.
Qed.

Lemma eqs_sym a : forall b, eqs a b = eqs b a.
Proof.
  induction a as [|x a IH]; intros [|y b]; simpl; try easy.
  now rewrite N.eqb_sym, IH.
Qed.

Lemma startsWith_split p : forall s,
  startsWith p s = true -> exists z, s = p ++ z.
Proof.
  induction p as [|x p IH]; intros [|y s]; simpl; try easy.
  - now exists [].
  - now exists (y :: s).
  - intros [Hx Hp]%andb_true_iff. apply N.eqb_eq in Hx. subst y.
    destruct (IH s Hp) as [z ->]. now exists z.
Qed.

Lemma endsWith_split suffix s :
  endsWith suffix s = true -> exists pre, s = pre ++ suffix.
Proof.
  unfold endsWith. intros [z Hz]%startsWith_split. exists (rev z).
  rewrite <- (rev_involutive s), Hz, rev_app_distr.
  now rewrite rev_involutive.
Qed.

Lemma startsWith_app_same a p s :
  startsWith (a ++ p) (a ++ s) = startsWith p s.
Proof.
  induction a as [|c a IH]; [reflexivity|].
  cbn [app startsWith]. now rewrite N.eqb_refl.
Qed.

Lemma includes_end p a : includes p (a ++ p) = true.
Proof.
  pose proof (includes_middle p a []) as H. now rewrite app_nil_r in H.
Qed.

Lemma includes_absent c p s :
  forallb (fun d => negb (d =? c)) s = true -> includes (c :: p) s = false.
Proof.
  induction s as [|d s IH]; [reflexivity|]. simpl.
  intros [Hd Hs]%andb_true_iff. apply negb_true_iff in Hd.
  rewrite N.eqb_sym, Hd, (IH Hs). reflexivity.
Qed.

Lemma split_none sep s :
  forallb (fun c => negb (c =? sep)) s = true -> split sep s = [s].
Proof.
  induction s as [|c s IH]; [reflexivity|]. simpl.
  intros [Hc Hs]%andb_true_iff. apply negb_true_iff in Hc.
  now rewrite Hc, IH.
Qed.

Lemma trimStart_keep c s :
  isWhiteSpace c = false -> trimStart (c :: s) = c :: s.
Proof. intros Hc. simpl. now rewrite Hc. Qed.

Lemma trimEnd_keep c s :
  isWhiteSpace c = false -> trimEnd (s ++ [c]) = s ++ [c].
Proof.
  intros Hc. unfold trimEnd. rewrite rev_app_distr. cbn [rev app].
  rewrite trimStart_keep by assumption. cbn [rev].
  now rewrite rev_involutive.
Qed.

Lemma trimEnd_drop c s :
  isWhiteSpace c = true -> trimEnd (s ++ [c]) = trimEnd s.
Proof.
  intros Hc. unfold trimEnd. rewrite rev_app_distr. cbn [rev app trimStart].
  now rewrite Hc.
Qed.

Lemma word_not_space c : isWordChar c = true -> isWhiteSpace c = false.
Proof.
  unfold isWordChar, isLower, isUpper, isDigit, isWhiteSpace, inRange.
  intros Hw. apply not_true_is_false. intros Hs.
  repeat (setoid_rewrite orb_true_iff in Hw
          || setoid_rewrite andb_true_iff in Hw
          || setoid_rewrite N.leb_le in Hw
          || setoid_rewrite N.eqb_eq in Hw).
  repeat (setoid_rewrite orb_true_iff in Hs
          || setoid_rewrite andb_true_iff in Hs
          || setoid_rewrite N.leb_le in Hs
          || setoid_rewrite N.eqb_eq in Hs).
  lia.
Qed.

End TextFacts.

(** ** Dollars in a replacement text *)

Module ReplacementFacts.
Import JS ScaffolderTerms StringFacts.

Lemma literalAfterDollar_ne c :
  literalAfterDollar c = true -> c <> 38 /\ c <> 96 /\ c <> 39.
Proof.
  unfold literalAfterDollar. rewrite !andb_true_iff, !negb_true_iff.
  rewrite !N.eqb_neq. tauto.
Qed.

Lemma getSubstitution_dollar m s d r :
  d <> 36 -> d <> 38 -> d <> 96 -> d <> 39 ->
  getSubstitution m s (36 :: d :: r) = 36 :: getSubstitution m s (d :: r).
Proof.
  intros H36 H38 H96 H39. destruct d as [|p]; [reflexivity|].
  do 7 (try (destruct p as [p|p|]; try reflexivity)); contradiction.
Qed.

Lemma dollars_dollar d r :
  d <> 36 -> dollars (36 :: d :: r) = 36 :: dollars (d :: r).
Proof.
  intros H36. destruct d as [|p]; [reflexivity|].
  do 6 (try (destruct p as [p|p|]; try reflexivity)); contradiction.
Qed.

Lemma dollars_cons c repl : c <> 36 -> dollars (c :: repl) = c :: dollars repl.
Proof.
  intros Hc. destruct c as [|p]; [reflexivity|].
  do 6 (try (destruct p as [p|p|]; try reflexivity)).
  contradiction.
Qed.

(** The replacement for a match, when no dollar of the replacement text
    can begin a reference to the match. *)
Lemma getSubstitution_dollars m s : forall n repl,
  (length repl <= n)%nat ->
  forallb literalAfterDollar repl = true ->
  getSubstitution m s repl = dollars repl.
Proof.
  induction n as [|n IH]; intros [|c repl] Hlen Hr; try reflexivity;
    [simpl in Hlen; lia|].
  cbn [forallb] in Hr. apply andb_true_iff in Hr as [Hc Hr].
  cbn [length] in Hlen.
  destruct (N.eq_dec c 36) as [->|Hne].
  - destruct repl as [|d r]; [reflexivity|].
    cbn [forallb] in Hr. apply andb_true_iff in Hr as [Hd Hr'].
    destruct (N.eq_dec d 36) as [->|Hd36].
    + change (getSubstitution m s (36 :: 36 :: r))
        with (36 :: getSubstitution m s r).
      change (dollars (36 :: 36 :: r)) with (36 :: dollars r).
      f_equal. apply IH; [cbn [length] in Hlen; lia|exact Hr'].
    + destruct (literalAfterDollar_ne _ Hd) as (H38 & H96 & H39).
      rewrite getSubstitution_dollar, dollars_dollar by assumption.
      f_equal. apply IH; [lia|]. cbn [forallb]. now rewrite Hd.
  - rewrite getSubstitution_cons, dollars_cons by assumption.
    f_equal. apply IH; [lia|exact Hr].
Qed.

Lemma walk_dollars c repl s : forall skip pre rest,
  forallb literalAfterDollar repl = true ->
  flat_map (fun p => match p with
                     | Keep c => [c]
                     | Hit m => getSubstitution m s repl
                     end)
           (walk (Lit c) skip pre rest)
  = replaceLit (str c) (dollars repl) skip rest.
Proof.
  intros skip pre rest Hr. revert skip pre.
  assert (Hsub : forall m, getSubstitution m s repl = dollars repl)
    by (intros m; now apply (getSubstitution_dollars m s (length repl))).
  induction rest as [|x rest IH]; intros [|k] pre; try reflexivity.
  - cbn [walk replaceLit]. rewrite matchHere_Lit.
    destruct (startsWith (str c) []); [|reflexivity].
    cbn [flat_map]. now rewrite Hsub.
  - cbn [walk replaceLit]. rewrite matchHere_Lit.
    destruct (startsWith (str c) (x :: rest)) eqn:Hs.
    + cbn [flat_map matched]. rewrite Hsub.
      f_equal. apply startsWith_length in Hs.
      rewrite length_firstn, Nat.min_l by exact Hs.
      destruct (length (str c)); [cbn [flat_map app]; f_equal|]; apply IH.
    + cbn [flat_map app]. f_equal. apply IH.
  - cbn [walk replaceLit]. apply IH.
Qed.

(** Replacing a literal pattern by such a text is replacing it by the
    text with its pairs of dollars made one. *)
Lemma replaceAll_dollars c repl s :
  forallb literalAfterDollar repl = true ->
  replaceAll (Lit c) repl s = replaceLit (str c) (dollars repl) 0 s.
Proof. intros Hr. unfold replaceAll. now apply walk_dollars. Qed.

Lemma dollars_Forall (P : N -> bool) : forall n repl,
  (length repl <= n)%nat ->
  forallb P repl = true -> forallb P (dollars repl) = true.
Proof.
  induction n as [|n IH]; intros [|c repl] Hlen Hr; try reflexivity;
    [simpl in Hlen; lia|].
  cbn [forallb] in Hr. apply andb_true_iff in Hr as [Hc Hr].
  cbn [length] in Hlen.
  destruct (N.eq_dec c 36) as [->|Hne].
  - destruct repl as [|d r]; [cbn; now rewrite Hc|].
    cbn [forallb] in Hr. apply andb_true_iff in Hr as [Hd Hr'].
    destruct (N.eq_dec d 36) as [->|Hd36].
    + change (dollars (36 :: 36 :: r)) with (36 :: dollars r).
      cbn [forallb]. rewrite Hc. apply IH; [cbn [length] in Hlen; lia|exact Hr'].
    + rewrite dollars_dollar by assumption. cbn [forallb]. rewrite Hc.
      apply IH; [lia|]. cbn [forallb]. now rewrite Hd.
  - rewrite dollars_cons by assumption. cbn [forallb]. rewrite Hc.
    apply IH; [lia|exact Hr].
Qed.

Lemma dollars_nonempty repl : repl <> [] -> dollars repl <> [].
Proof.
  destruct repl as [|c repl]; [contradiction|]. intros _.
  destruct (N.eq_dec c 36) as [->|Hne].
  - destruct repl as [|d r]; [discriminate|].
    destruct (N.eq_dec d 36) as [->|Hd]; [discriminate|].
    now rewrite dollars_dollar.
  - now rewrite dollars_cons.
Qed.

(** A text without two dollars side by side stands for itself. *)
Lemma dollars_plain : forall n repl,
  (length repl <= n)%nat ->
  includes (str "$$") repl = false -> dollars repl = repl.
Proof.
  induction n as [|n IH]; intros [|c repl] Hlen Hr; try reflexivity;
    [simpl in Hlen; lia|].
  cbn [length] in Hlen.
  change (includes (str "$$") (c :: repl))
    with (startsWith (str "$$") (c :: repl) || includes (str "$$") repl) in Hr.
  apply orb_false_iff in Hr as [Hhere Hr].
  destruct (N.eq_dec c 36) as [->|Hne].
  - destruct repl as [|d r]; [reflexivity|].
    destruct (N.eq_dec d 36) as [->|Hd36]; [discriminate|].
    rewrite dollars_dollar by assumption. f_equal. apply IH; [lia|exact Hr].
  - rewrite dollars_cons by assumption. f_equal. apply IH; [lia|exact Hr].
Qed.

End ReplacementFacts.

(** ** The component scaffolder *)

Module ScaffolderFacts.
Import JS Scaffolder ScaffolderTerms StringFacts TextFacts ReplacementFacts.

(** *** Identifiers *)

Lemma isIdentStart_word c : isIdentStart c = true -> isWordChar c = true.
Proof.
  unfold isIdentStart, isWordChar.
  destruct (isLower c), (isUpper c), (isDigit c), (c =? 95); simpl; congruence.
Qed.

Lemma identifier_word x :
  identifier x = true -> x <> [] /\ forallb isWordChar x = true.
Proof.
  destruct x as [|c x]; [discriminate|]. simpl.
  intros [Hc Hx]%andb_true_iff. split; [discriminate|].
  now rewrite (isIdentStart_word _ Hc).
Qed.

Lemma word_avoids b x :
  isWordChar b = false ->
  forallb isWordChar x = true ->
  forallb (fun c => negb (c =? b)) x = true.
Proof.
  intros Hb. induction x as [|c x IH]; [reflexivity|]. simpl.
  intros [Hc Hx]%andb_true_iff. rewrite (IH Hx), andb_true_r.
  destruct (c =? b) eqn:E; [|reflexivity].
  apply N.eqb_eq in E. congruence.
Qed.

Lemma lowerChar_word c : isWordChar c = true -> isWordChar (lowerChar c) = true.
Proof.
  unfold lowerChar. destruct (isUpper c) eqn:Hu; [|auto]. intros _.
  unfold isUpper, inRange in Hu. apply andb_true_iff in Hu as [H1 H2].
  apply N.leb_le in H1, H2.
  unfold isWordChar, isLower, inRange.
  replace (97 <=? c + 32) with true by (symmetry; apply N.leb_le; lia).
  replace (c + 32 <=? 122) with true by (symmetry; apply N.leb_le; lia).
  reflexivity.
Qed.

Lemma toLowerCase_word x :
  forallb isWordChar x = true -> forallb isWordChar (toLowerCase x) = true.
Proof.
  induction x as [|c x IH]; [reflexivity|]. simpl.
  intros [Hc Hx]%andb_true_iff. now rewrite (lowerChar_word _ Hc), IH.
Qed.

(** *** Rendering a template *)

Lemma includes_occurs p s : includes p s = true -> (1 <= occurrences p s)%nat.
Proof.
  induction s as [|c s IH]; simpl.
  - rewrite orb_false_r. intros ->. lia.
  - destruct (startsWith p (c :: s)); [lia|]. simpl. intros Hs%IH. lia.
Qed.

Lemma forallb_map {A B} (f : A -> B) (P : B -> bool) (l : list A) :
  forallb P (List.map f l) = forallb (fun a => P (f a)) l.
Proof. induction l as [|a l IH]; simpl; [reflexivity|now rewrite IH]. Qed.

(** The rendered text of a template, as the chunks of the template around
    its placeholders joined by the names. *)
Lemma renderComponent_join template x :
  templateOK template = true ->
  identifier x = true ->
  renderComponent template x
  = join x (List.map (fun chunk =>
                        join (toLowerCase x)
                             (pieces componentName_token 0 chunk))
                     (pieces ComponentName_token 0 template)).
Proof.
  intros Hok [Hne Hword]%identifier_word.
  apply andb_true_iff in Hok as [Hok _].
  apply andb_true_iff in Hok as [_ Hdecided].
  unfold renderComponent, ComponentName_pattern, componentName_pattern.
  rewrite !replaceAll_Lit
    by (apply word_avoids; [reflexivity|auto using toLowerCase_word]).
  change (str "{{ComponentName}}") with (123 :: tl ComponentName_token).
  change (str "{{componentName}}") with (123 :: tl componentName_token).
  rewrite <- (join_pieces 123 (tl ComponentName_token) x template 0).
  rewrite replaceLit_join;
    [|apply word_avoids; [reflexivity|assumption]|exact Hdecided].
  f_equal. apply map_ext. intros chunk. symmetry. apply join_pieces.
Qed.

Theorem renderComponent_clean template x :
  templateOK template = true ->
  identifier x = true ->
  occurrences ComponentName_token (renderComponent template x) = 0%nat
  /\ occurrences componentName_token (renderComponent template x) = 0%nat
  /\ (1 <= occurrences x (renderComponent template x))%nat.
Proof.
  intros Hok Hid. rewrite (renderComponent_join _ _ Hok Hid).
  destruct (identifier_word _ Hid) as [Hne Hword].
  apply andb_true_iff in Hok as [Hok Hclean].
  apply andb_true_iff in Hok as [Hlen _]. apply Nat.leb_le in Hlen.
  set (chunks := pieces ComponentName_token 0 template) in *.
  set (inner := fun chunk => join (toLowerCase x)
                                  (pieces componentName_token 0 chunk)).
  assert (Hpair : includes [123; 123] (join x (List.map inner chunks)) = false).
  { apply no_pair_join;
      [assumption|apply word_avoids; [reflexivity|assumption]|].
    rewrite forallb_map. rewrite forallb_forall in Hclean |- *.
    intros chunk Hin. apply negb_true_iff. unfold inner.
    apply no_pair_join.
    - destruct x; [contradiction|discriminate].
    - apply word_avoids; [reflexivity|now apply toLowerCase_word].
    - now apply Hclean. }
  repeat split.
  - apply occurrences_none.
    destruct (includes ComponentName_token _) eqn:E; [|reflexivity].
    apply (includes_prefix [123; 123]) in E; [congruence|reflexivity].
  - apply occurrences_none.
    destruct (includes componentName_token _) eqn:E; [|reflexivity].
    apply (includes_prefix [123; 123]) in E; [congruence|reflexivity].
  - apply includes_occurs.
    destruct chunks as [|c0 [|c1 rest]]; simpl in Hlen; try lia.
    change (join x (List.map inner (c0 :: c1 :: rest)))
      with (inner c0 ++ x ++ join x (List.map inner (c1 :: rest))).
    apply includes_middle.
Qed.

(** *** Names with dollars *)

Lemma identPart_literal x :
  forallb isIdentPart x = true -> forallb literalAfterDollar x = true.
Proof.
  induction x as [|c x IH]; [reflexivity|]. cbn [forallb].
  intros [Hc Hx]%andb_true_iff. rewrite (IH Hx), andb_true_r.
  unfold literalAfterDollar.
  destruct (c =? 38) eqn:E1; [apply N.eqb_eq in E1; now subst c|].
  destruct (c =? 96) eqn:E2; [apply N.eqb_eq in E2; now subst c|].
  destruct (c =? 39) eqn:E3; [apply N.eqb_eq in E3; now subst c|].
  reflexivity.
Qed.

Lemma identPart_avoids b x :
  isIdentPart b = false ->
  forallb isIdentPart x = true ->
  forallb (fun c => negb (c =? b)) x = true.
Proof.
  intros Hb. induction x as [|c x IH]; [reflexivity|]. simpl.
  intros [Hc Hx]%andb_true_iff. rewrite (IH Hx), andb_true_r.
  destruct (c =? b) eqn:E; [|reflexivity].
  apply N.eqb_eq in E. congruence.
Qed.

Lemma jsIdentifier_parts x :
  jsIdentifier x = true -> x <> [] /\ forallb isIdentPart x = true.
Proof.
  destruct x as [|c x]; [discriminate|]. cbn [jsIdentifier forallb].
  intros [Hc Hx]%andb_true_iff. split; [discriminate|].
  rewrite Hx, andb_true_r. unfold isIdentPart.
  apply orb_true_iff in Hc as [Hc|Hc];
    [now rewrite (isIdentStart_word _ Hc)|rewrite Hc; apply orb_true_r].
Qed.

Lemma identifier_jsIdentifier x :
  identifier x = true ->
  jsIdentifier x = true /\ includes (str "$$") x = false.
Proof.
  intros Hid. destruct (identifier_word _ Hid) as [_ Hword].
  split.
  - destruct x as [|c x]; [discriminate|]. cbn [identifier] in Hid.
    apply andb_true_iff in Hid as [Hc Hx]. cbn [jsIdentifier].
    rewrite Hc. cbn [orb andb]. clear Hc Hword.
    induction x as [|d x IH]; [reflexivity|]. cbn [forallb] in Hx |- *.
    apply andb_true_iff in Hx as [Hd Hx]. unfold isIdentPart at 1.
    rewrite Hd. now apply IH.
  - apply includes_absent. now apply word_avoids.
Qed.

Lemma toLowerCase_identPart x :
  forallb isIdentPart x = true -> forallb isIdentPart (toLowerCase x) = true.
Proof.
  induction x as [|c x IH]; [reflexivity|]. simpl.
  intros [Hc Hx]%andb_true_iff. rewrite (IH Hx), andb_true_r.
  unfold isIdentPart in Hc |- *. apply orb_true_iff in Hc as [Hc|Hc].
  - now rewrite (lowerChar_word _ Hc).
  - apply N.eqb_eq in Hc. now subst c.
Qed.

(** The rendered text for a name that may hold dollars: the chunks of
    the template joined by the names with their pairs of dollars made
    one. *)
Lemma renderComponent_dollars template x :
  templateOK template = true ->
  jsIdentifier x = true ->
  renderComponent template x
  = join (dollars x)
         (List.map (fun chunk =>
                      join (dollars (toLowerCase x))
                           (pieces componentName_token 0 chunk))
                   (pieces ComponentName_token 0 template)).
Proof.
  intros Hok [Hne Hparts]%jsIdentifier_parts.
  apply andb_true_iff in Hok as [Hok _].
  apply andb_true_iff in Hok as [_ Hdecided].
  unfold renderComponent, ComponentName_pattern, componentName_pattern.
  rewrite !replaceAll_dollars
    by (apply identPart_literal; auto using toLowerCase_identPart).
  change (str "{{ComponentName}}") with (123 :: tl ComponentName_token).
  change (str "{{componentName}}") with (123 :: tl componentName_token).
  rewrite <- (join_pieces 123 (tl ComponentName_token) (dollars x) template 0).
  rewrite replaceLit_join;
    [|apply (dollars_Forall _ (length x)); [lia|];
      apply identPart_avoids; [reflexivity|assumption]
     |exact Hdecided].
  f_equal. apply map_ext. intros chunk. symmetry. apply join_pieces.
Qed.

Theorem renderComponent_dollars_clean template x :
  templateOK template = true ->
  jsIdentifier x = true ->
  occurrences ComponentName_token (renderComponent template x) = 0%nat
  /\ occurrences componentName_token (renderComponent template x) = 0%nat
  /\ (1 <= occurrences (dollars x) (renderComponent template x))%nat
  /\ (includes (str "$$") x = false ->
      (1 <= occurrences x (renderComponent template x))%nat).
Proof.
  intros Hok Hid. rewrite (renderComponent_dollars _ _ Hok Hid).
  destruct (jsIdentifier_parts _ Hid) as [Hne Hparts].
  apply andb_true_iff in Hok as [Hok Hclean].
  apply andb_true_iff in Hok as [Hlen _]. apply Nat.leb_le in Hlen.
  set (chunks := pieces ComponentName_token 0 template) in *.
  set (inner := fun chunk => join (dollars (toLowerCase x))
                                  (pieces componentName_token 0 chunk)).
  assert (Havoid : forall y, forallb isIdentPart y = true ->
            forallb (fun c => negb (c =? 123)) (dollars y) = true).
  { intros y Hy. apply (dollars_Forall _ (length y)); [lia|].
    apply identPart_avoids; [reflexivity|assumption]. }
  assert (Hpair : includes [123; 123] (join (dollars x) (List.map inner chunks))
                  = false).
  { apply no_pair_join; [now apply dollars_nonempty|now apply Havoid|].
    rewrite forallb_map. rewrite forallb_forall in Hclean |- *.
    intros chunk Hin. apply negb_true_iff. unfold inner.
    apply no_pair_join.
    - apply dollars_nonempty. destruct x; [contradiction|discriminate].
    - apply Havoid. now apply toLowerCase_identPart.
    - now apply Hclean. }
  assert (Hocc : (1 <= occurrences (dollars x)
                         (join (dollars x) (List.map inner chunks)))%nat).
  { apply includes_occurs.
    destruct chunks as [|c0 [|c1 rest]]; simpl in Hlen; try lia.
    change (join (dollars x) (List.map inner (c0 :: c1 :: rest)))
      with (inner c0 ++ dollars x
              ++ join (dollars x) (List.map inner (c1 :: rest))).
    apply includes_middle. }
  split; [|split; [|split]].
  - apply occurrences_none.
    destruct (includes ComponentName_token _) eqn:E; [|reflexivity].
    apply (includes_prefix [123; 123]) in E; [congruence|reflexivity].
  - apply occurrences_none.
    destruct (includes componentName_token _) eqn:E; [|reflexivity].
    apply (includes_prefix [123; 123]) in E; [congruence|reflexivity].
  - exact Hocc.
  - intros Hplain. rewrite (dollars_plain (length x) x) in Hocc at 1;
      [exact Hocc|lia|exact Hplain].
Qed.

(** A dollar in the name is not taken literally: [String.prototype.replace]
    reads [$$] in the replacement text as one dollar. *)
Example replacement_dollar :
  renderComponent (str "export default {{ComponentName}};") (str "$$")
  = str "export default $;".
Proof. reflexivity. Qed.

(** Each of the four templates meets the conditions. *)
Lemma templates_ok :
  Forall (fun t => templateOK t = true)
    [templates.simple; templates.interactive; templates.data; templates.form].
Proof. repeat constructor; vm_compute; reflexivity. Qed.

(** *** Running [createComponent] *)

Lemma bind_inr {A B} (m : M A) (f : A -> M B) w b w2 :
  (m ≫= f) w = (inr b, w2) ->
  exists a w1, m w = (inr a, w1) /\ f a w1 = (inr b, w2).
Proof.
  unfold mbind, M_bind, bind. destruct (m w) as [[e|a] w1]; [discriminate|].
  intros Hf. now exists a, w1.
Qed.

Lemma ret_inr {A} (a b : A) w w' : ret a w = (inr b, w') -> a = b /\ w' = w.
Proof. unfold ret. now intros [= -> ->]. Qed.

Lemma existsSync_inr p w b w' : existsSync p w = (inr b, w') -> w' = w.
Proof. unfold existsSync. now intros [= _ ->]. Qed.

(** What [mkdir -p] does: it changes the directories only, and adds
    the directories it was to make when it returns. *)
Lemma mkdirLoop_spec p todo : forall w r w',
  mkdirLoop p todo w = (r, w') ->
  files w' = files w /\ refuses w' = refuses w /\ stdout w' = stdout w
  /\ dirs w ⊆ dirs w'
  /\ (r = inr tt -> dirs w' = dirs w ∪ list_to_set todo).
Proof.
  induction todo as [|a todo IH]; intros w r w'; cbn [mkdirLoop].
  - intros [= <- <-]. repeat split; [reflexivity|].
    intros _. cbn [list_to_set foldr]. now rewrite (right_id_L ∅ (∪)).
  - destruct (bool_decide (a ∈ dirs w)) eqn:Hin.
    + apply bool_decide_eq_true_1 in Hin.
      intros (Hf & Hr & Ho & Hsub & Hall)%IH. repeat split; try assumption.
      intros ->. rewrite (Hall eq_refl). cbn [list_to_set foldr].
      apply set_eq. intros q. rewrite !elem_of_union, elem_of_singleton.
      split; [tauto|]. intros [?|[->|?]]; tauto.
    + destruct (isFile w a); [intros [= <- <-]; now repeat split|].
      destruct (refuses w a); [intros [= <- <-]; now repeat split|].
      intros (Hf & Hr & Ho & Hsub & Hall)%IH. cbn [files refuses stdout dirs] in *.
      repeat split; try assumption.
      * intros q Hq. apply Hsub. now apply elem_of_union_l.
      * intros ->. rewrite (Hall eq_refl). cbn [list_to_set foldr].
        apply set_eq. intros q. rewrite !elem_of_union, elem_of_singleton.
        tauto.
Qed.

(** What [mkdir -p] throws is an error of the file system. *)
Lemma mkdirLoop_error p todo : forall w e w',
  mkdirLoop p todo w = (inl e, w') -> exists code, e = FsError code p.
Proof.
  induction todo as [|a todo IH]; intros w e w'; cbn [mkdirLoop];
    [discriminate|].
  destruct (bool_decide (a ∈ dirs w)); [apply IH|].
  destruct (isFile w a); [intros [= <- _]; eauto|].
  destruct (refuses w a); [intros [= <- _]; eauto|apply IH].
Qed.

Lemma mkdirSync_spec p w r w' :
  mkdirSync p w = (r, w') ->
  files w' = files w /\ refuses w' = refuses w /\ stdout w' = stdout w
  /\ dirs w ⊆ dirs w'
  /\ (r = inr tt -> dirs w' = dirs w ∪ list_to_set (ancestors [] p)).
Proof. apply mkdirLoop_spec. Qed.

Lemma mkdirSync_inr p w u w' :
  mkdirSync p w = (inr u, w') -> files w' = files w.
Proof. now intros (Hf & _)%mkdirSync_spec. Qed.

(** [mkdir -p] returns when none of the directories is a regular file
    and the system refuses none of those that are missing. *)
Lemma mkdirLoop_returns p todo : forall w,
  (forall a, In a todo -> files w !! a = None) ->
  (forall a, In a todo -> a ∉ dirs w -> refuses w a = None) ->
  exists w', mkdirLoop p todo w = (inr tt, w').
Proof.
  induction todo as [|a todo IH]; intros w Hfiles Hrefuses;
    cbn [mkdirLoop]; [eauto|].
  destruct (bool_decide (a ∈ dirs w)) eqn:Hin.
  - apply IH; intros b Hb; [apply Hfiles|apply Hrefuses]; now right.
  - apply bool_decide_eq_false_1 in Hin. unfold isFile.
    rewrite (Hfiles a) by now left.
    rewrite bool_decide_eq_false_2 by (intros [? ?]; discriminate).
    rewrite (Hrefuses a) by (now left + exact Hin).
    apply IH; cbn [files dirs refuses].
    + intros b Hb. apply Hfiles. now right.
    + intros b Hb Hnot. apply Hrefuses; [now right|].
      intros Hold. apply Hnot. now apply elem_of_union_l.
Qed.

Lemma writeFileSync_spec p data w u w' :
  writeFileSync p data w = (inr u, w') ->
  (p ∉ dirs w)
  /\ (forall a, In a (ancestors [] (parentDir p)) -> files w !! a = None)
  /\ (parentDir p ∈ dirs w)
  /\ refuses w p = None
  /\ files w' = <[p := data]> (files w)
  /\ dirs w' = dirs w /\ refuses w' = refuses w /\ stdout w' = stdout w.
Proof.
  unfold writeFileSync.
  destruct (bool_decide (p ∈ dirs w)) eqn:E1; [discriminate|].
  destruct (existsb _ _) eqn:E2; [discriminate|].
  destruct (bool_decide (parentDir p ∈ dirs w)) eqn:E3; cbn [negb];
    [|discriminate].
  destruct (refuses w p) eqn:E4; [discriminate|].
  intros [= _ <-]. apply bool_decide_eq_false_1 in E1.
  apply bool_decide_eq_true_1 in E3. repeat split; try assumption.
  intros a Ha. destruct (files w !! a) eqn:Ea; [|reflexivity].
  exfalso. apply not_true_iff_false in E2. apply E2.
  apply existsb_exists. exists a. split; [exact Ha|].
  unfold isFile. apply bool_decide_eq_true_2. rewrite Ea. now eexists.
Qed.

Lemma writeFileSync_inr p data w u w' :
  writeFileSync p data w = (inr u, w') -> files w' = <[p := data]> (files w).
Proof. now intros (_ & _ & _ & _ & Hf & _)%writeFileSync_spec. Qed.

(** [writeFileSync] returns where the path can be written. *)
Lemma writeFileSync_returns p data w :
  p ∉ dirs w ->
  (forall a, In a (ancestors [] (parentDir p)) -> files w !! a = None) ->
  parentDir p ∈ dirs w ->
  refuses w p = None ->
  writeFileSync p data w
  = (inr tt, {| files := <[p := data]> (files w); dirs := dirs w;
                refuses := refuses w; stdout := stdout w |}).
Proof.
  intros Hp Hanc Hparent Hrefuses. unfold writeFileSync.
  rewrite (bool_decide_eq_false_2 _ Hp).
  replace (existsb (isFile w) (ancestors [] (parentDir p))) with false.
  - rewrite (bool_decide_eq_true_2 _ Hparent), Hrefuses. reflexivity.
  - symmetry. apply not_true_is_false.
    intros (a & Ha & Hfile)%existsb_exists. unfold isFile in Hfile.
    apply bool_decide_eq_true_1 in Hfile. rewrite (Hanc a Ha) in Hfile.
    now destruct Hfile.
Qed.

Lemma consoleLog_inr ln w u w' :
  consoleLog ln w = (inr u, w') -> files w' = files w.
Proof. unfold consoleLog. now intros [= _ <-]. Qed.

Lemma asTemplate_inr v w t w' :
  asTemplate v w = (inr t, w') -> v = VString t /\ w' = w.
Proof.
  destruct v; simpl; unfold ret, throw; try discriminate.
  now intros [= -> ->].
Qed.

(** The template that [templates[type] || templates.simple] selects,
    when it is a string, is one of the four. *)
Lemma template_selected ty t :
  orElse (getProperty templatesObject ty) (VString templates.simple)
  = VString t ->
  In t [templates.simple; templates.interactive; templates.data;
        templates.form].
Proof.
  unfold getProperty, templatesObject. cbn [List.find fst].
  destruct (eqs (str "simple") ty);
    [intros [= <-]; simpl; tauto|].
  destruct (eqs (str "interactive") ty);
    [intros [= <-]; simpl; tauto|].
  destruct (eqs (str "data") ty);
    [intros [= <-]; simpl; tauto|].
  destruct (eqs (str "form") ty);
    [intros [= <-]; simpl; tauto|].
  destruct (existsb (eqs ty) objectPrototypeKeys); [discriminate|].
  intros [= <-]. simpl; tauto.
Qed.

End ScaffolderFacts.

(** ** Paths *)

Module PathFacts.
Import JS Scaffolder CommandLine ScaffolderTerms PathTerms StringFacts
  TextFacts ScaffolderFacts.

(** *** Cutting at the slashes and joining again *)

Lemma split_sep sep a : forall b,
  split sep (a ++ sep :: b) = split sep a ++ split sep b.
Proof.
  induction a as [|c a IH]; intros b.
  - cbn [app split]. now rewrite N.eqb_refl.
  - cbn [app split]. destruct (c =? sep); [now rewrite IH|].
    rewrite IH. destruct (split sep a) as [|p r] eqn:E; [|reflexivity].
    exfalso. revert E. clear. destruct a as [|x a]; simpl; [discriminate|].
    destruct (x =? sep); [discriminate|]. now destruct (split sep a).
Qed.

Lemma split_not_nil sep s : split sep s <> [].
Proof.
  destruct s as [|c s]; simpl; [discriminate|].
  destruct (c =? sep); [discriminate|]. now destruct (split sep s).
Qed.

Lemma join_split s : join (str "/") (split 47 s) = s.
Proof.
  induction s as [|c s IH]; [reflexivity|]. cbn [split].
  destruct (c =? 47) eqn:E.
  - apply N.eqb_eq in E. subst c.
    destruct (split 47 s) as [|p r] eqn:Es; [now destruct (split_not_nil 47 s)|].
    change (join (str "/") ([] :: p :: r)) with (47 :: join (str "/") (p :: r)).
    now rewrite IH.
  - destruct (split 47 s) as [|p r] eqn:Es; [now destruct (split_not_nil 47 s)|].
    destruct r as [|q r].
    + simpl in IH. subst s. reflexivity.
    + change (join (str "/") ((c :: p) :: q :: r))
        with (c :: join (str "/") (p :: q :: r)).
      now rewrite IH.
Qed.

Lemma split_noSlash s : Forall (fun seg => noSlash seg = true) (split 47 s).
Proof.
  induction s as [|c s IH]; [repeat constructor|]. cbn [split].
  destruct (c =? 47) eqn:E; [now constructor|].
  destruct (split 47 s) as [|p r]; [repeat constructor; simpl; now rewrite E|].
  inversion IH as [|? ? Hp Hr]; subst. constructor; [|exact Hr].
  simpl. now rewrite E.
Qed.

Lemma split_join l :
  l <> [] -> Forall (fun seg => noSlash seg = true) l ->
  split 47 (join (str "/") l) = l.
Proof.
  induction l as [|p l IH]; [contradiction|]. intros _ Hall.
  inversion Hall as [|? ? Hp Hl]; subst.
  destruct l as [|q l]; [now apply split_none|].
  change (join (str "/") (p :: q :: l))
    with (p ++ 47 :: join (str "/") (q :: l)).
  rewrite split_sep, (split_none _ _ Hp), IH by easy. reflexivity.
Qed.

Lemma join_snoc sep l f :
  l <> [] -> join sep (l ++ [f]) = join sep l ++ sep ++ f.
Proof.
  induction l as [|p l IH]; [contradiction|]. intros _.
  destruct l as [|q l]; [reflexivity|].
  change (join sep ((p :: q :: l) ++ [f]))
    with (p ++ sep ++ join sep ((q :: l) ++ [f])).
  rewrite IH by discriminate.
  change (join sep (p :: q :: l)) with (p ++ sep ++ join sep (q :: l)).
  now rewrite <- !app_assoc.
Qed.

Lemma join_snoc_any sep l f :
  exists pre, join sep (l ++ [f]) = pre ++ f.
Proof.
  destruct l as [|p l]; [now exists []|].
  exists (join sep (p :: l) ++ sep). rewrite join_snoc by discriminate.
  now rewrite <- app_assoc.
Qed.

Lemma last_app_cons {A} (l : list A) x d : List.last (l ++ [x]) d = x.
Proof. induction l as [|a [|b l] IH]; try reflexivity. exact IH. Qed.

Lemma last_app_nonempty {A} (a b : list A) d :
  b <> [] -> List.last (a ++ b) d = List.last b d.
Proof.
  intros Hb. induction a as [|x a IH]; [reflexivity|].
  cbn [app]. destruct (a ++ b) eqn:E.
  - destruct a, b; try discriminate. contradiction.
  - exact IH.
Qed.

(** *** Segments *)

Lemma eqs_refl a : eqs a a = true.
Proof. induction a as [|c a IH]; [reflexivity|]. simpl. now rewrite N.eqb_refl. Qed.

Lemma dotdot_eq s : dotdot s = true -> s = str "..".
Proof. apply eqs_eq. Qed.

Lemma ordinary_push a s res rest :
  ordinary s = true ->
  normalizeString a res (s :: rest) = normalizeString a (s :: res) rest.
Proof.
  unfold ordinary. intros H.
  apply andb_true_iff in H as [H H3]. apply andb_true_iff in H as [H1 H2].
  apply negb_true_iff in H1, H2, H3. cbn [normalizeString].
  now rewrite H1, H2, H3.
Qed.

Lemma normalizeString_app a l1 : forall res l2,
  normalizeString a res (l1 ++ l2)
  = normalizeString a (normalizeString a res l1) l2.
Proof.
  induction l1 as [|s l1 IH]; intros res l2; [reflexivity|].
  cbn [app normalizeString].
  destruct (eqs s [] || eqs s (str ".")); [apply IH|].
  destruct (eqs s (str "..")); [|apply IH].
  destruct res as [|top below]; [apply IH|].
  destruct (eqs top (str "..")); apply IH.
Qed.

Lemma all_dotdot_clean res :
  forallb dotdot res = true -> clean true res = true.
Proof.
  induction res as [|top below IH]; [reflexivity|]. cbn [forallb clean].
  intros [Ht Hb]%andb_true_iff. now rewrite Ht, Hb.
Qed.

Lemma clean_below a top below :
  clean a (top :: below) = true -> clean a below = true.
Proof.
  cbn [clean]. destruct (dotdot top).
  - intros [Ha Hb]%andb_true_iff. destruct a; [|discriminate].
    now apply all_dotdot_clean.
  - now intros [_ Hb]%andb_true_iff.
Qed.

Lemma normalizeString_clean a l : forall res,
  clean a res = true -> clean a (normalizeString a res l) = true.
Proof.
  induction l as [|s l IH]; intros res Hres; [exact Hres|].
  cbn [normalizeString].
  destruct (eqs s [] || eqs s (str ".")) eqn:Hskip; [now apply IH|].
  apply orb_false_iff in Hskip as [Hempty Hdot].
  destruct (eqs s (str "..")) eqn:Hdd.
  - apply eqs_eq in Hdd. subst s.
    destruct res as [|top below].
    + apply IH. now destruct a.
    + destruct (eqs top (str "..")) eqn:Htop.
      * apply IH. destruct a; [|exact Hres].
        cbn [clean] in Hres |- *. unfold dotdot in Hres at 1.
        rewrite Htop in Hres. cbn [forallb]. unfold dotdot at 2.
        rewrite Htop. exact Hres.
      * apply IH. eapply clean_below. eassumption.
  - apply IH. cbn [clean]. unfold dotdot, ordinary.
    now rewrite Hdd, Hempty, Hdot, Hres.
Qed.

(** The kept segments, read again, are kept as they are. *)
Lemma normalizeString_replay a res :
  clean a res = true -> normalizeString a [] (rev res) = res.
Proof.
  induction res as [|top below IH]; [reflexivity|]. intros Hres.
  cbn [rev]. rewrite normalizeString_app, IH by (eapply clean_below; eassumption).
  cbn [clean] in Hres. destruct (dotdot top) eqn:Htop.
  - apply andb_true_iff in Hres as [Ha Hb]. destruct a; [|discriminate].
    apply dotdot_eq in Htop. subst top.
    destruct below as [|t below]; [reflexivity|].
    cbn [forallb] in Hb. apply andb_true_iff in Hb as [Ht _].
    unfold dotdot in Ht. cbn [normalizeString].
    change (eqs (str "..") [] || eqs (str "..") (str ".")) with false.
    change (eqs (str "..") (str "..")) with true. cbv iota.
    now rewrite Ht.
  - apply andb_true_iff in Hres as [Ho _]. now apply ordinary_push.
Qed.

Lemma normalizeString_Forall (P : jsstring -> Prop) a l : forall res,
  Forall P res -> Forall P l -> Forall P (normalizeString a res l).
Proof.
  induction l as [|s l IH]; intros res Hres Hl; [exact Hres|].
  inversion Hl as [|? ? Hs Hl']; subst. cbn [normalizeString].
  destruct (eqs s [] || eqs s (str ".")); [now apply IH|].
  destruct (eqs s (str "..")).
  - destruct res as [|top below].
    + apply IH; [|exact Hl']. destruct a; [now constructor|constructor].
    + inversion Hres; subst.
      destruct (eqs top (str "..")); apply IH; try assumption.
      destruct a; [now constructor|assumption].
  - apply IH; [now constructor|exact Hl'].
Qed.

Lemma ordinary_nonempty s : ordinary s = true -> s <> [].
Proof. now destruct s. Qed.

(** *** [path.normalize] of a path whose last segment is ordinary *)

Lemma noSlash_last e : e <> [] -> noSlash e = true -> List.last e 0 <> 47.
Proof.
  intros He Hall. destruct (exists_last He) as (e' & c & ->).
  rewrite last_app_cons. unfold noSlash in Hall.
  rewrite forallb_app in Hall. apply andb_true_iff in Hall as [_ Hc].
  simpl in Hc. rewrite andb_true_r in Hc.
  apply negb_true_iff, N.eqb_neq in Hc. exact Hc.
Qed.

Lemma last_segment q S e :
  split 47 q = S ++ [e] -> e <> [] -> List.last q 0 = List.last e 0.
Proof.
  intros Hq He. rewrite <- (join_split q), Hq.
  destruct S as [|p S]; [reflexivity|].
  rewrite join_snoc by discriminate.
  rewrite app_assoc. now apply last_app_nonempty.
Qed.

Lemma split_last_nonempty q S e :
  split 47 q = S ++ [e] -> e <> [] -> q <> [].
Proof.
  intros Hq He ->. destruct S as [|s S]; [|destruct S; discriminate].
  cbn in Hq. injection Hq as <-. contradiction.
Qed.

Lemma normalize_last q S e :
  split 47 q = S ++ [e] -> ordinary e = true ->
  normalize q
  = root q
    ++ join (str "/")
         (rev (normalizeString (negb (isAbsolute q)) [] S) ++ [e]).
Proof.
  intros Hq He. pose proof (ordinary_nonempty _ He) as Hne.
  assert (Hslash : noSlash e = true).
  { pose proof (split_noSlash q) as Hall. rewrite Hq in Hall.
    apply Forall_app in Hall as [_ Hall]. now inversion Hall. }
  assert (Hlast : (List.last q 0 =? 47) = false).
  { rewrite (last_segment q S e Hq Hne).
    apply N.eqb_neq. now apply noSlash_last. }
  destruct q as [|c q']; [now destruct (split_last_nonempty [] S e Hq Hne)|].
  unfold normalize. cbv zeta. rewrite Hlast, Hq.
  rewrite normalizeString_app, ordinary_push by exact He.
  cbn [normalizeString rev]. unfold root, isAbsolute.
  destruct (rev _ ++ [e]) as [|k ks] eqn:Ek;
    [now destruct (rev (normalizeString (negb (c =? 47)) [] S))|].
  now rewrite app_nil_r.
Qed.

Lemma split_root_join (a : bool) (l : list jsstring) :
  l <> [] -> Forall (fun seg => noSlash seg = true) l ->
  Forall (fun seg => seg <> []) l ->
  split 47 ((if a then str "/" else []) ++ join (str "/") l)
  = (if a then [[]] else []) ++ l.
Proof.
  intros Hl Hall Hne. destruct a; cbn [app].
  - change (str "/" ++ join (str "/") l) with ([] ++ 47 :: join (str "/") l).
    rewrite split_sep, split_join by assumption. reflexivity.
  - now apply split_join.
Qed.

Lemma kept_Forall (P : jsstring -> Prop) a S :
  Forall P S -> Forall P (rev (normalizeString a [] S)).
Proof.
  intros HS. apply Forall_rev. apply normalizeString_Forall; [constructor|exact HS].
Qed.

Lemma split_snoc_noSlash q S e :
  split 47 q = S ++ [e] ->
  Forall (fun seg => noSlash seg = true) S /\ noSlash e = true.
Proof.
  intros Hq. pose proof (split_noSlash q) as Hall. rewrite Hq in Hall.
  apply Forall_app in Hall as [HS He]. split; [exact HS|now inversion He].
Qed.

Lemma clean_Forall_nonempty a res :
  clean a res = true -> Forall (fun seg => seg <> []) res.
Proof.
  induction res as [|top below IH]; [constructor|]. intros Hres.
  constructor; [|apply IH; eapply clean_below; eassumption].
  cbn [clean] in Hres. destruct (dotdot top) eqn:Ht.
  - apply dotdot_eq in Ht. now subst top.
  - apply andb_true_iff in Hres as [Ho _]. now apply ordinary_nonempty.
Qed.

Lemma lastSegment_normalize q S e :
  split 47 q = S ++ [e] -> ordinary e = true ->
  lastSegment (normalize q) = e.
Proof.
  intros Hq He. rewrite (normalize_last q S e Hq He).
  destruct (split_snoc_noSlash q S e Hq) as [HS Hes].
  unfold lastSegment, root.
  set (a := isAbsolute q).
  assert (Hclean : clean (negb a) (normalizeString (negb a) [] S) = true)
    by now apply normalizeString_clean.
  rewrite split_root_join.
  - rewrite app_assoc. apply last_app_cons.
  - now destruct (rev _).
  - apply Forall_app. split; [now apply kept_Forall|now repeat constructor].
  - apply Forall_app. split.
    + apply Forall_rev. eapply clean_Forall_nonempty. eassumption.
    + repeat constructor. now apply ordinary_nonempty.
Qed.

(** *** [path.join] *)

Lemma pathJoin_nonempty dir f :
  f <> [] ->
  pathJoin dir f = normalize (if eqs dir [] then f else dir ++ 47 :: f).
Proof.
  intros Hf. unfold pathJoin, pathJoinAll. cbn [List.filter].
  destruct dir as [|c dir], f as [|d f]; try contradiction; reflexivity.
Qed.

(** The last segment of [path.join(dir, f)] is the last segment of [f],
    when that one is ordinary. *)
Lemma lastSegment_pathJoin dir f S e :
  split 47 f = S ++ [e] -> ordinary e = true ->
  lastSegment (pathJoin dir f) = e.
Proof.
  intros Hf He.
  assert (Hne : f <> [])
    by (apply (split_last_nonempty f S e Hf); now apply ordinary_nonempty).
  rewrite (pathJoin_nonempty dir f Hne).
  destruct (eqs dir []) eqn:Hd.
  - now apply (lastSegment_normalize f S e).
  - apply (lastSegment_normalize _ (split 47 dir ++ S) e); [|exact He].
    now rewrite split_sep, Hf, app_assoc.
Qed.

(** *** Joining a normalized directory and a name *)

Lemma join_head_noSlash (l : list jsstring) :
  l <> [] ->
  Forall (fun seg => noSlash seg = true) l ->
  Forall (fun seg => seg <> []) l ->
  isAbsolute (join (str "/") l) = false.
Proof.
  intros Hl Hs Hn. destruct l as [|p l]; [contradiction|].
  inversion Hs as [|? ? Hp _]; inversion Hn as [|? ? Hpn _]; subst.
  destruct p as [|c p]; [contradiction|].
  assert (Hc : (c =? 47) = false).
  { simpl in Hp. apply andb_true_iff in Hp as [Hc _].
    now apply negb_true_iff in Hc. }
  destruct l; exact Hc.
Qed.

Lemma ordinary_not_dotdot e : ordinary e = true -> dotdot e = false.
Proof.
  unfold ordinary, dotdot. intros H. apply andb_true_iff in H as [_ H].
  now apply negb_true_iff in H.
Qed.

Lemma normalizeString_skip a res rest :
  normalizeString a res ([] :: rest) = normalizeString a res rest.
Proof. reflexivity. Qed.

(** [path.join(d, f)] puts a slash between [d] and [f], when [d] is
    normalized, ends with an ordinary segment, and [f] is an ordinary
    segment. *)
Lemma pathJoin_normalEnding d f :
  normalEnding d -> ordinary f = true -> noSlash f = true ->
  pathJoin d f = d ++ 47 :: f.
Proof.
  intros (q & S & e & Hq & He & ->) Hf Hfs.
  pose proof (ordinary_nonempty _ Hf) as Hfne.
  pose proof (ordinary_nonempty _ He) as Hene.
  destruct (split_snoc_noSlash q S e Hq) as [HS Hes].
  rewrite (normalize_last q S e Hq He).
  set (a := isAbsolute q). unfold root. fold a.
  set (R := normalizeString (negb a) [] S).
  assert (Hclean : clean (negb a) R = true)
    by now apply normalizeString_clean.
  assert (Hkept : Forall (fun seg => noSlash seg = true) (rev R ++ [e])).
  { apply Forall_app. split; [now apply kept_Forall|now repeat constructor]. }
  assert (Hkne : Forall (fun seg => seg <> []) (rev R ++ [e])).
  { apply Forall_app. split.
    - apply Forall_rev. eapply clean_Forall_nonempty. eassumption.
    - now repeat constructor. }
  assert (Hnil : rev R ++ [e] <> []) by now destruct (rev R).
  set (d := (if a then str "/" else []) ++ join (str "/") (rev R ++ [e])).
  assert (Habs : isAbsolute d = a).
  { unfold d. destruct a eqn:Ea; [reflexivity|].
    now apply join_head_noSlash. }
  assert (Hd : eqs d [] = false).
  { unfold d. destruct a; [reflexivity|]. cbn [app].
    destruct (join (str "/") (rev R ++ [e])) eqn:E; [|reflexivity].
    destruct (join_snoc_any (str "/") (rev R) e) as [pre Hpre].
    rewrite Hpre in E. apply app_eq_nil in E as [_ E]. contradiction. }
  rewrite (pathJoin_nonempty d f Hfne), Hd.
  rewrite (normalize_last (d ++ 47 :: f) (split 47 d) f);
    [|now rewrite split_sep, (split_none _ _ Hfs)|exact Hf].
  assert (Habs' : isAbsolute (d ++ 47 :: f) = a).
  { rewrite <- Habs. destruct d; [discriminate|reflexivity]. }
  unfold root. rewrite Habs'. unfold d at 1.
  rewrite split_root_join by assumption.
  assert (Hreplay : normalizeString (negb a) []
                      ((if a then [[]] else []) ++ rev R ++ [e])
                    = e :: R).
  { destruct a; cbn [app]; rewrite ?normalizeString_skip;
      change (rev R ++ [e]) with (rev (e :: R));
      apply normalizeString_replay; cbn [clean];
      now rewrite (ordinary_not_dotdot _ He), He, Hclean. }
  rewrite Hreplay. cbn [rev]. rewrite join_snoc by exact Hnil.
  unfold d. now rewrite <- !app_assoc.
Qed.

(** *** The paths of a component *)

Lemma pathSegment_ordinary x :
  pathSegment x = true -> ordinary x = true /\ noSlash x = true.
Proof.
  unfold pathSegment, ordinary, noSlash. intros H.
  apply andb_true_iff in H as [H Hdd]. apply andb_true_iff in H as [H Hd].
  apply andb_true_iff in H as [H _]. apply andb_true_iff in H as [Hne Hall].
  rewrite Hne, Hd, Hdd. split; [reflexivity|].
  rewrite forallb_forall in Hall |- *. intros c Hc.
  specialize (Hall c Hc). now apply andb_true_iff in Hall as [Hs _].
Qed.

Lemma word_wellFormed x : forallb isWordChar x = true -> wellFormed x = true.
Proof.
  induction x as [|c x IH]; [reflexivity|]. cbn [forallb wellFormed].
  intros [Hc Hx]%andb_true_iff. rewrite (IH Hx), andb_true_r.
  assert (Hlow : c <= 122).
  { unfold isWordChar, isLower, isUpper, isDigit, inRange in Hc.
    repeat (setoid_rewrite orb_true_iff in Hc
            || setoid_rewrite andb_true_iff in Hc
            || setoid_rewrite N.leb_le in Hc
            || setoid_rewrite N.eqb_eq in Hc).
    lia. }
  unfold isHighSurrogate, isLowSurrogate, inRange.
  replace (55296 <=? c) with false by (symmetry; apply N.leb_gt; lia).
  replace (56320 <=? c) with false by (symmetry; apply N.leb_gt; lia).
  reflexivity.
Qed.

(** An identifier is a segment of a path. *)
Lemma identifier_pathSegment x : identifier x = true -> pathSegment x = true.
Proof.
  intros Hid. destruct (identifier_word _ Hid) as [Hne Hword].
  unfold pathSegment. rewrite (word_wellFormed _ Hword).
  assert (Hall : forallb (fun c => negb (c =? 47) && negb (c =? 0)) x = true).
  { rewrite forallb_forall in Hword |- *. intros c Hc.
    specialize (Hword c Hc).
    destruct (c =? 47) eqn:E1; [apply N.eqb_eq in E1; now subst c|].
    destruct (c =? 0) eqn:E2; [apply N.eqb_eq in E2; now subst c|].
    reflexivity. }
  rewrite Hall.
  destruct x as [|c x]; [contradiction|]. cbn [forallb] in Hword.
  apply andb_true_iff in Hword as [Hc _].
  assert (Hdot : (c =? 46) = false).
  { destruct (c =? 46) eqn:E; [apply N.eqb_eq in E; now subst c|reflexivity]. }
  change (eqs (c :: x) []) with false.
  change (eqs (c :: x) (str ".")) with ((c =? 46) && eqs x []).
  change (eqs (c :: x) (str "..")) with ((c =? 46) && eqs x (str ".")).
  now rewrite Hdot.
Qed.

Lemma identPart_small c :
  isIdentPart c = true -> 36 <= c <= 122 /\ c <> 47 /\ c <> 46.
Proof.
  unfold isIdentPart, isWordChar, isLower, isUpper, isDigit, inRange.
  intros Hc.
  repeat (setoid_rewrite orb_true_iff in Hc
          || setoid_rewrite andb_true_iff in Hc
          || setoid_rewrite N.leb_le in Hc
          || setoid_rewrite N.eqb_eq in Hc).
  lia.
Qed.

(** So is an identifier with dollars. *)
Lemma jsIdentifier_pathSegment x :
  jsIdentifier x = true -> pathSegment x = true.
Proof.
  intros Hid. destruct (jsIdentifier_parts _ Hid) as [Hne Hparts].
  unfold pathSegment.
  assert (Hwf : wellFormed x = true).
  { clear Hid Hne. induction x as [|c x IH]; [reflexivity|].
    cbn [forallb wellFormed] in Hparts |- *.
    apply andb_true_iff in Hparts as [Hc Hx]. rewrite (IH Hx), andb_true_r.
    apply identPart_small in Hc as (Hc & _).
    unfold isHighSurrogate, isLowSurrogate, inRange.
    replace (55296 <=? c) with false by (symmetry; apply N.leb_gt; lia).
    replace (56320 <=? c) with false by (symmetry; apply N.leb_gt; lia).
    reflexivity. }
  assert (Hall : forallb (fun c => negb (c =? 47) && negb (c =? 0)) x = true).
  { rewrite forallb_forall in Hparts |- *. intros c Hc.
    apply Hparts, identPart_small in Hc as (Hc & H47 & _).
    apply N.eqb_neq in H47. rewrite H47.
    replace (c =? 0) with false by (symmetry; apply N.eqb_neq; lia).
    reflexivity. }
  rewrite Hwf, Hall.
  destruct x as [|c x]; [contradiction|]. cbn [forallb] in Hparts.
  apply andb_true_iff in Hparts as [Hc _].
  apply identPart_small in Hc as (_ & _ & Hdot). apply N.eqb_neq in Hdot.
  change (eqs (c :: x) []) with false.
  change (eqs (c :: x) (str ".")) with ((c =? 46) && eqs x []).
  change (eqs (c :: x) (str "..")) with ((c =? 46) && eqs x (str ".")).
  now rewrite Hdot.
Qed.

Lemma noSlash_app a b :
  noSlash a = true -> noSlash b = true -> noSlash (a ++ b) = true.
Proof. unfold noSlash. rewrite forallb_app. now intros -> ->. Qed.

Lemma noSlash_includes f : noSlash f = true -> includes (str "/") f = false.
Proof.
  induction f as [|c f IH]; [reflexivity|]. cbn [noSlash forallb].
  intros [Hc Hf]%andb_true_iff. apply negb_true_iff in Hc.
  change (includes (str "/") (c :: f))
    with ((47 =? c) && true || includes (str "/") f).
  now rewrite N.eqb_sym, Hc, (IH Hf).
Qed.

(** A text that ends with an extension is no dot segment. *)
Lemma extension_ordinary l ext :
  (3 <= length ext)%nat -> ordinary (l ++ ext) = true.
Proof.
  intros Hext. unfold ordinary.
  assert (Hlen : (3 <= length (l ++ ext))%nat)
    by (rewrite length_app; lia).
  destruct (eqs (l ++ ext) []) eqn:E1;
    [apply eqs_eq in E1; rewrite E1 in Hlen; simpl in Hlen; lia|].
  destruct (eqs (l ++ ext) (str ".")) eqn:E2;
    [apply eqs_eq in E2; rewrite E2 in Hlen; simpl in Hlen; lia|].
  destruct (eqs (l ++ ext) (str "..")) eqn:E3;
    [apply eqs_eq in E3; rewrite E3 in Hlen; simpl in Hlen; lia|].
  reflexivity.
Qed.

Lemma componentFile_ordinary x f :
  noSlash x = true -> In f (componentFiles x) ->
  ordinary f = true /\ noSlash f = true.
Proof.
  intros Hx Hf.
  unfold componentFiles, componentFileName, cssFileName, testFileName,
    indexFileName in Hf.
  repeat destruct Hf as [<-|Hf]; try contradiction;
    try (split; [apply extension_ordinary; simpl; lia
                |apply noSlash_app; [exact Hx|reflexivity]]).
  split; reflexivity.
Qed.

(** The directory of a component is normalized and ends with the name
    of the component. *)
Lemma componentDirText_split cwd x :
  ordinary x = true -> noSlash x = true ->
  exists S,
    split 47 (componentDirText cwd x) = (S ++ [str "components"]) ++ [x].
Proof.
  intros Ho Hx. unfold componentDirText. cbn [List.filter].
  change (negb (eqs (str "components") [])) with true. cbv iota.
  assert (Hxe : eqs x [] = false)
    by (pose proof (ordinary_nonempty _ Ho); now destruct x).
  rewrite Hxe. cbn [negb].
  destruct (eqs cwd []) eqn:Hc; cbn [negb].
  - exists [].
    change (join (str "/") [str "components"; x])
      with (str "components" ++ 47 :: x).
    now rewrite split_sep, (split_none _ _ Hx).
  - exists (split 47 cwd).
    change (join (str "/") [cwd; str "components"; x])
      with (cwd ++ 47 :: str "components" ++ 47 :: x).
    rewrite split_sep, split_sep, (split_none _ _ Hx).
    now rewrite <- app_assoc.
Qed.

Lemma componentDirOf_normalize cwd x :
  ordinary x = true ->
  componentDirOf cwd x = normalize (componentDirText cwd x).
Proof.
  intros Ho. unfold componentDirOf, pathJoinAll, componentDirText.
  destruct (List.filter _ _) as [|p l] eqn:E; [|reflexivity].
  exfalso. cbn [List.filter] in E.
  change (negb (eqs (str "components") [])) with true in E.
  destruct (negb (eqs cwd [])); discriminate.
Qed.

Lemma componentDir_normalEnding cwd x :
  ordinary x = true -> noSlash x = true ->
  normalEnding (componentDirOf cwd x).
Proof.
  intros Ho Hx. destruct (componentDirText_split cwd x Ho Hx) as [S HS].
  exists (componentDirText cwd x), (S ++ [str "components"]), x.
  split; [exact HS|split; [exact Ho|]]. now apply componentDirOf_normalize.
Qed.

(** [path.join(componentDir, f)] for a file of the component. *)
Lemma component_join cwd x f :
  pathSegment x = true -> In f (componentFiles x) ->
  pathJoin (componentDirOf cwd x) f = componentDirOf cwd x ++ 47 :: f.
Proof.
  intros [Ho Hx]%pathSegment_ordinary Hf.
  destruct (componentFile_ordinary x f Hx Hf) as [Hfo Hfs].
  apply pathJoin_normalEnding; [now apply componentDir_normalEnding|..];
    assumption.
Qed.

(** The directory of a component is [components/N] under some base. *)
Lemma componentDir_shape cwd x :
  pathSegment x = true ->
  exists base,
    componentDirOf cwd x = base ++ str "components/" ++ x
    /\ (base = [] \/ List.last base 0 = 47).
Proof.
  intros [Ho Hx]%pathSegment_ordinary.
  destruct (componentDirText_split cwd x Ho Hx) as [S HS].
  rewrite (componentDirOf_normalize cwd x Ho).
  rewrite (normalize_last _ _ _ HS Ho).
  rewrite normalizeString_app, ordinary_push by reflexivity.
  cbn [normalizeString rev].
  set (R := normalizeString _ [] S).
  rewrite join_snoc by now destruct (rev R).
  destruct (rev R) as [|k ks] eqn:Ek.
  - exists (root (componentDirText cwd x)). split; [reflexivity|].
    unfold root. destruct (isAbsolute _); [now right|now left].
  - exists (root (componentDirText cwd x) ++ join (str "/") (k :: ks)
            ++ str "/").
    split.
    + rewrite join_snoc by discriminate. now rewrite <- !app_assoc.
    + right. rewrite !app_assoc. apply last_app_cons.
Qed.

Lemma join_snoc_two (l : list jsstring) (a b : jsstring) :
  l <> [] ->
  join (str "/") (l ++ [a; b]) = join (str "/") l ++ 47 :: a ++ 47 :: b.
Proof.
  intros Hl. change (l ++ [a; b]) with (l ++ [a] ++ [b]).
  rewrite app_assoc, join_snoc by now destruct l.
  rewrite join_snoc by exact Hl. now rewrite <- app_assoc.
Qed.

(** Under an absolute working directory, as [process.cwd()] gives it,
    the directory of a component is [components/N] in that directory. *)
Lemma componentDir_under cwd x :
  pathSegment x = true ->
  startsWith (str "/") cwd = true -> normalize cwd = cwd ->
  componentDirOf cwd x
  = cwd ++ (if List.last cwd 0 =? 47 then [] else str "/")
      ++ str "components/" ++ x.
Proof.
  intros [Ho Hx]%pathSegment_ordinary Habs Hn.
  destruct cwd as [|c cwd']; [discriminate|].
  assert (Hc : (c =? 47) = true).
  { cbn in Habs. apply andb_true_iff in Habs as [Hc _].
    now rewrite N.eqb_sym. }
  set (cwd := c :: cwd') in *.
  set (K := rev (normalizeString false [] (split 47 cwd))).
  set (t := List.last cwd 0 =? 47).
  assert (Hxe : eqs x [] = false)
    by (pose proof (ordinary_nonempty _ Ho); now destruct x).
  assert (HS : split 47 (componentDirText cwd x)
               = (split 47 cwd ++ [str "components"]) ++ [x]).
  { unfold componentDirText. cbn [List.filter].
    change (negb (eqs (str "components") [])) with true. cbv iota.
    rewrite Hxe. change (eqs cwd []) with false. cbn [negb].
    change (join (str "/") [cwd; str "components"; x])
      with (cwd ++ 47 :: str "components" ++ 47 :: x).
    rewrite split_sep, split_sep, (split_none _ _ Hx).
    now rewrite <- app_assoc. }
  assert (HL : componentDirOf cwd x
               = str "/" ++ join (str "/") (K ++ [str "components"; x])).
  { rewrite (componentDirOf_normalize cwd x Ho).
    rewrite (normalize_last _ _ _ HS Ho).
    assert (Ha : isAbsolute (componentDirText cwd x) = true).
    { unfold componentDirText. cbn [List.filter].
      change (negb (eqs (str "components") [])) with true. cbv iota.
      rewrite Hxe. change (eqs cwd []) with false. cbn [negb].
      exact Hc. }
    unfold root. rewrite Ha. cbn [negb].
    rewrite normalizeString_app, ordinary_push by reflexivity.
    cbn [normalizeString rev]. fold K.
    now rewrite <- app_assoc. }
  assert (HR : cwd = str "/"
                     ++ match K with
                        | [] => []
                        | _ :: _ => join (str "/") K
                                    ++ (if t then str "/" else [])
                        end).
  { rewrite <- Hn at 1. unfold normalize, cwd. cbv zeta. rewrite Hc.
    cbn [negb]. fold cwd. fold K. fold t.
    destruct K; [reflexivity|]. now destruct t. }
  rewrite HL.
  destruct K as [|k ks] eqn:EK.
  - assert (Ht : t = true) by (unfold t; now rewrite HR).
    rewrite Ht. rewrite HR at 1. reflexivity.
  - rewrite join_snoc_two by discriminate.
    rewrite HR at 1.
    destruct t; rewrite <- ?app_assoc; reflexivity.
Qed.

Lemma componentDir_nonempty cwd x :
  pathSegment x = true -> componentDirOf cwd x <> [].
Proof.
  intros Hx. destruct (componentDir_shape cwd x Hx) as (base & -> & _).
  now destruct base.
Qed.

(** *** The directory a file is in *)

Lemma dirname_join dir f :
  noSlash f = true -> dirname (dir ++ 47 :: f) = dir.
Proof.
  intros Hf%noSlash_includes. induction dir as [|c dir IH].
  - change (dirname ([] ++ 47 :: f))
      with (if includes (str "/") f then 47 :: dirname f else []).
    now rewrite Hf.
  - cbn [app dirname].
    pose proof (includes_middle (str "/") dir f) as Hm.
    change (dir ++ str "/" ++ f) with (dir ++ 47 :: f) in Hm.
    now rewrite Hm, IH.
Qed.

Lemma parentDir_join dir f :
  dir <> [] -> noSlash f = true -> parentDir (dir ++ 47 :: f) = dir.
Proof.
  intros Hd Hf. pose proof (dirname_join dir f Hf) as H.
  unfold parentDir. rewrite H.
  now destruct dir.
Qed.

Lemma ancestors_length p : forall pre a,
  In a (ancestors pre p) -> (length a <= length pre + length p)%nat.
Proof.
  induction p as [|c p IH]; intros pre a; cbn [ancestors].
  - intros [<-|[]]. rewrite length_rev. lia.
  - destruct ((c =? 47) && negb (eqs pre [])).
    + intros [<-|Hin].
      * rewrite length_rev. simpl. lia.
      * apply IH in Hin. simpl in *. lia.
    + intros Hin%IH. simpl in *. lia.
Qed.

Lemma ancestors_last p : forall pre, In (rev pre ++ p) (ancestors pre p).
Proof.
  induction p as [|c p IH]; intros pre; cbn [ancestors].
  - left. now rewrite app_nil_r.
  - specialize (IH (c :: pre)). cbn [rev] in IH. rewrite <- app_assoc in IH.
    destruct ((c =? 47) && negb (eqs pre [])); [right|]; exact IH.
Qed.

Lemma not_ancestor dir f : ~ In (dir ++ 47 :: f) (ancestors [] dir).
Proof.
  intros Hin%ancestors_length. rewrite length_app in Hin. simpl in Hin. lia.
Qed.

(** What is known of the path of a file of a component. *)
Lemma component_path cwd x f :
  pathSegment x = true -> In f (componentFiles x) ->
  let dir := componentDirOf cwd x in
  parentDir (pathJoin dir f) = dir /\ ~ In (pathJoin dir f) (ancestors [] dir).
Proof.
  intros Hx Hf dir. subst dir. rewrite (component_join cwd x f Hx Hf).
  apply pathSegment_ordinary in Hx as Hox. destruct Hox as [_ Hxs].
  destruct (componentFile_ordinary x f Hxs Hf) as [_ Hfs].
  split; [|apply not_ancestor].
  apply parentDir_join; [now apply componentDir_nonempty|exact Hfs].
Qed.

(** *** The four paths are four *)

Lemma split_app_noSlash a b :
  noSlash b = true ->
  exists S lx, split 47 a = S ++ [lx] /\ split 47 (a ++ b) = S ++ [lx ++ b].
Proof.
  intros Hb. induction a as [|c a IH].
  - exists [], []. split; [reflexivity|]. cbn [app]. now apply split_none.
  - destruct IH as (S & lx & Ha & Hab). cbn [app split].
    destruct (c =? 47).
    + exists ([] :: S), lx. now rewrite Ha, Hab.
    + rewrite Ha, Hab. destruct S as [|s S]; cbn [app].
      * now exists [], (c :: lx).
      * now exists ((c :: s) :: S), lx.
Qed.

(** The last segment of the path of a file of a component, whatever the
    name of the component: the last segment of the name, then the
    extension; [index.ts] for the barrel file. *)
Lemma componentFile_lastSegment dir x :
  exists lx,
    lastSegment (pathJoin dir (componentFileName x)) = lx ++ str ".tsx"
    /\ lastSegment (pathJoin dir (cssFileName x)) = lx ++ str ".module.css"
    /\ lastSegment (pathJoin dir indexFileName) = str "index.ts"
    /\ lastSegment (pathJoin dir (testFileName x)) = lx ++ str ".test.tsx".
Proof.
  destruct (split_app_noSlash x (str ".tsx") eq_refl) as (S & lx & Hx & H1).
  destruct (split_app_noSlash x (str ".module.css") eq_refl)
    as (S2 & lx2 & Hx2 & H2).
  destruct (split_app_noSlash x (str ".test.tsx") eq_refl)
    as (S3 & lx3 & Hx3 & H3).
  rewrite Hx in Hx2, Hx3.
  apply app_inj_tail in Hx2 as [<- <-]. apply app_inj_tail in Hx3 as [<- <-].
  exists lx. repeat split.
  - apply (lastSegment_pathJoin dir _ S); [exact H1|].
    apply extension_ordinary. simpl. lia.
  - apply (lastSegment_pathJoin dir _ S); [exact H2|].
    apply extension_ordinary. simpl. lia.
  - now apply (lastSegment_pathJoin dir _ []).
  - apply (lastSegment_pathJoin dir _ S); [exact H3|].
    apply extension_ordinary. simpl. lia.
Qed.

Lemma app_index_ne lx ext :
  ext = str ".tsx" \/ ext = str ".module.css" \/ ext = str ".test.tsx" ->
  lx ++ ext <> str "index.ts".
Proof.
  intros Hext H. apply (f_equal (@rev N)) in H. rewrite rev_app_distr in H.
  destruct Hext as [-> | [-> | ->]]; discriminate.
Qed.

(** Two files of a component at the same path are the same file. *)
Lemma pathJoin_inj dir x a b :
  In a (componentFiles x) -> In b (componentFiles x) ->
  pathJoin dir a = pathJoin dir b -> a = b.
Proof.
  intros Ha Hb Hab. apply (f_equal lastSegment) in Hab.
  destruct (componentFile_lastSegment dir x) as (lx & H1 & H2 & H3 & H4).
  unfold componentFiles in Ha, Hb.
  repeat destruct Ha as [<-|Ha]; try contradiction;
    repeat destruct Hb as [<-|Hb]; try contradiction;
    try reflexivity; exfalso;
    rewrite ?H1, ?H2, ?H3, ?H4 in Hab;
    first [ apply app_inv_head in Hab; discriminate
          | apply app_index_ne in Hab; [exact Hab|tauto]
          | symmetry in Hab; apply app_index_ne in Hab; [exact Hab|tauto] ].
Qed.

Lemma pathJoin_ne dir x a b :
  In a (componentFiles x) -> In b (componentFiles x) ->
  a <> b -> pathJoin dir a <> pathJoin dir b.
Proof. intros Ha Hb Hab H. apply Hab. eapply pathJoin_inj; eassumption. Qed.

End PathFacts.

Module ScaffolderRun.
Import JS Scaffolder ScaffolderTerms StringFacts ScaffolderFacts PathFacts.

Lemma css_truthy ty :
  truthy (orElse (getProperty cssTemplatesObject ty)
                 (VString cssTemplates.simple)) = true.
Proof.
  unfold getProperty, cssTemplatesObject. cbn [List.find fst].
  repeat (match goal with
          | |- context [eqs ?a ty] => destruct (eqs a ty)
          end; [vm_compute; reflexivity|]).
  destruct (existsb (eqs ty) objectPrototypeKeys); vm_compute; reflexivity.
Qed.

(** What a run of [createComponent] that returns has written. *)
Lemma createComponent_inr cwd x opts w w' :
  createComponent cwd x opts w = (inr tt, w') ->
  exists template css,
    orElse (getProperty templatesObject (default (str "simple") (type opts)))
           (VString templates.simple) = VString template
    /\ files w'
       = <[pathJoin (componentDirOf cwd x) (testFileName x) := testContent x]>
         (<[pathJoin (componentDirOf cwd x) indexFileName
            := indexContent (default true (typed opts)) x]>
          ((if default true (styled opts)
            then <[pathJoin (componentDirOf cwd x) (cssFileName x) := css]>
            else id)
             (<[pathJoin (componentDirOf cwd x) (componentFileName x)
                := renderComponent template x]> (files w)))).
Proof.
  unfold createComponent. cbv zeta. intros Hrun.
  apply bind_inr in Hrun as (present & w1 & Hex & Hrun).
  apply existsSync_inr in Hex. subst w1.
  apply bind_inr in Hrun as (u1 & w2 & Hmk & Hrun).
  assert (Hw2 : files w2 = files w).
  { destruct (negb present); [eapply mkdirSync_inr; eassumption|].
    apply ret_inr in Hmk as [_ ->]. reflexivity. }
  clear Hmk.
  apply bind_inr in Hrun as (t & w3 & Ht & Hrun).
  apply asTemplate_inr in Ht as [Ht ->].
  apply bind_inr in Hrun as (u2 & w4 & Hw4 & Hrun).
  apply writeFileSync_inr in Hw4.
  apply bind_inr in Hrun as (u3 & w5 & Hcss & Hrun).
  apply bind_inr in Hrun as (u4 & w6 & Hw6 & Hrun).
  apply writeFileSync_inr in Hw6.
  apply bind_inr in Hrun as (u5 & w7 & Hw7 & Hrun).
  apply writeFileSync_inr in Hw7.
  assert (Hlog : files w' = files w7).
  { apply bind_inr in Hrun as (? & w8 & H8%consoleLog_inr & Hrun).
    apply bind_inr in Hrun as (? & w9 & H9%consoleLog_inr & Hrun).
    apply bind_inr in Hrun as (? & w10 & H10%consoleLog_inr & Hrun).
    apply bind_inr in Hrun as (? & w11 & H11%consoleLog_inr & Hrun).
    apply bind_inr in Hrun as (? & w12 & H12 & Hrun).
    apply bind_inr in Hrun as (? & w13 & H13%consoleLog_inr & Hrun).
    apply consoleLog_inr in Hrun.
    assert (files w12 = files w11) as E12.
    { destruct (default true (styled opts));
        [eapply consoleLog_inr; eassumption|].
      apply ret_inr in H12 as [_ ->]. reflexivity. }
    congruence. }
  destruct (default true (styled opts)).
  - destruct (truthy _) eqn:Hcss' in Hcss.
    + apply bind_inr in Hcss as (cssText & w4' & Hc & Hcss).
      apply asTemplate_inr in Hc as [_ ->].
      apply writeFileSync_inr in Hcss.
      exists t, (renderCss cssText x). split; [exact Ht|].
      now rewrite Hlog, Hw7, Hw6, Hcss, Hw4, Hw2.
    + rewrite css_truthy in Hcss'. discriminate.
  - apply ret_inr in Hcss as [_ ->].
    exists t, []. split; [exact Ht|]. unfold id.
    now rewrite Hlog, Hw7, Hw6, Hw4, Hw2.
Qed.

(** *** The names of the files *)

Lemma tsx_css x : componentFileName x <> cssFileName x.
Proof. intros H. apply app_inv_head in H. discriminate. Qed.

Lemma tsx_test x : componentFileName x <> testFileName x.
Proof. intros H. apply app_inv_head in H. discriminate. Qed.

Lemma css_test x : cssFileName x <> testFileName x.
Proof. intros H. apply app_inv_head in H. discriminate. Qed.

Lemma tsx_index x : componentFileName x <> indexFileName.
Proof.
  intros H. apply (f_equal (@rev N)) in H.
  unfold componentFileName in H. rewrite rev_app_distr in H. discriminate.
Qed.

Lemma css_index x : cssFileName x <> indexFileName.
Proof.
  intros H. apply (f_equal (@rev N)) in H.
  unfold cssFileName in H. rewrite rev_app_distr in H. discriminate.
Qed.

Lemma test_index x : testFileName x <> indexFileName.
Proof.
  intros H. apply (f_equal (@rev N)) in H.
  unfold testFileName in H. rewrite rev_app_distr in H. discriminate.
Qed.

Lemma componentFiles_tsx x : In (componentFileName x) (componentFiles x).
Proof. now left. Qed.

Lemma componentFiles_css x : In (cssFileName x) (componentFiles x).
Proof. right. now left. Qed.

Lemma componentFiles_index x : In indexFileName (componentFiles x).
Proof. do 2 right. now left. Qed.

Lemma componentFiles_test x : In (testFileName x) (componentFiles x).
Proof. do 3 right. now left. Qed.

#[export] Hint Resolve componentFiles_tsx componentFiles_css
  componentFiles_index componentFiles_test : core.

Lemma writtenFiles_NoDup cwd x opts : NoDup (writtenFiles cwd x opts).
Proof.
  unfold writtenFiles.
  destruct (default true (styled opts)); cbn [app];
    repeat (apply NoDup_cons_2;
            [rewrite ?elem_of_cons, elem_of_nil;
             intros H; repeat destruct H as [H|H]; try contradiction;
             (apply (pathJoin_inj _ x) in H; [|auto..]); revert H;
             first [ apply tsx_css | apply tsx_test | apply css_test
                   | apply tsx_index | apply css_index | apply test_index
                   | apply not_eq_sym; apply test_index ]
            |]);
    apply NoDup_nil_2.
Qed.

End ScaffolderRun.

(** *** When [createComponent] returns *)

Module ScaffolderReturns.
Import JS Scaffolder ScaffolderTerms ScaffolderExtraTerms StringFacts
  TextFacts ScaffolderFacts PathFacts ScaffolderRun.

Lemma template_string own fallback ty :
  existsb (eqs ty) objectPrototypeKeys = false ->
  exists t, orElse (getProperty own ty) (VString fallback) = VString t.
Proof.
  intros Hkey. unfold getProperty, orElse.
  destruct (List.find _ own) as [[k v]|].
  - cbn [truthy]. destruct (negb (eqs v [])); eauto.
  - rewrite Hkey. cbn [truthy]. eauto.
Qed.

(** **** Runs in a directory that is there *)

Lemma returnsAt_ret {A} dir paths (a : A) : returnsAt dir paths (ret a).
Proof. intros w Hw. now exists a, w. Qed.

Lemma returnsAt_bind {A B} dir paths (m : M A) (f : A -> M B) :
  returnsAt dir paths m -> (forall a, returnsAt dir paths (f a)) ->
  returnsAt dir paths (m ≫= f).
Proof.
  intros Hm Hf w Hw. destruct (Hm w Hw) as (a & w1 & Hrun & Hd1 & Hw1).
  unfold mbind, M_bind, bind. rewrite Hrun.
  destruct (Hf a w1 Hw1) as (b & w2 & Hrun2 & Hd2 & Hw2).
  exists b, w2. split; [exact Hrun2|split; [congruence|exact Hw2]].
Qed.

Lemma returnsAt_consoleLog dir paths ln : returnsAt dir paths (consoleLog ln).
Proof. intros w Hw. now eexists tt, _. Qed.

Lemma returnsAt_writeFileSync dir paths p data :
  In p paths -> returnsAt dir paths (writeFileSync p data).
Proof.
  intros Hin w (Hdir & Hanc & Hpaths).
  destruct (Hpaths p Hin) as (Hp & Hrefuses & Hparent & Hnot).
  rewrite writeFileSync_returns;
    [|exact Hp|now rewrite Hparent|now rewrite Hparent|exact Hrefuses].
  eexists tt, _. split; [reflexivity|]. split; [reflexivity|].
  split; [exact Hdir|]. split; [|exact Hpaths].
  intros a Ha. cbn [files]. rewrite lookup_insert_ne; [now apply Hanc|].
  intros ->. contradiction.
Qed.

(** The paths [createComponent] writes to are paths of files of the
    component. *)
Lemma writtenFiles_joined cwd x opts p :
  In p (writtenFiles cwd x opts) ->
  exists f, In f (componentFiles x) /\ p = pathJoin (componentDirOf cwd x) f.
Proof.
  unfold writtenFiles.
  destruct (default true (styled opts)); cbn [app];
    intros Hp; repeat destruct Hp as [<-|Hp]; try contradiction; eauto.
Qed.

(** What follows the making of the directory returns, and makes no
    directory, when the templates of the type are strings. *)
Lemma createComponent_starts cwd x opts t c w :
  let dir := componentDirOf cwd x in
  let ty := default (str "simple") (type opts) in
  orElse (getProperty templatesObject ty) (VString templates.simple)
  = VString t ->
  (default true (styled opts) = true ->
   orElse (getProperty cssTemplatesObject ty) (VString cssTemplates.simple)
   = VString c) ->
  (forall a, In a (ancestors [] dir) -> files w !! a = None) ->
  (dir ∈ dirs w
   \/ forall a, In a (ancestors [] dir) -> a ∉ dirs w -> refuses w a = None) ->
  (forall p, In p (writtenFiles cwd x opts) ->
     (p ∉ dirs w) /\ refuses w p = None
     /\ parentDir p = dir /\ ~ In p (ancestors [] dir)) ->
  exists w', createComponent cwd x opts w = (inr tt, w')
             /\ (dir ∈ dirs w -> dirs w' = dirs w).
Proof.
  intros dir ty Ht Hc Hanc Hdir Hpaths.
  set (paths := writtenFiles cwd x opts) in *.
  assert (Hrest : forall rest : M unit, returnsAt dir paths rest ->
            exists w',
              (present ← existsSync dir;
               (if negb present then mkdirSync dir else ret tt) ;; rest) w
              = (inr tt, w') /\ (dir ∈ dirs w -> dirs w' = dirs w)).
  { intros rest Hsafe. unfold mbind, M_bind, bind, existsSync.
    destruct (decide (dir ∈ dirs w)) as [Hin|Hout].
    - rewrite (bool_decide_eq_true_2 _ Hin). cbn [orb negb]. unfold ret.
      destruct (Hsafe w (conj Hin (conj Hanc Hpaths)))
        as ([] & w' & Hrun & Hd & _).
      eauto.
    - destruct Hdir as [Hin|Hrefuses]; [contradiction|].
      rewrite (bool_decide_eq_false_2 _ Hout). unfold isFile.
      rewrite (Hanc dir) by apply (ancestors_last dir []).
      rewrite bool_decide_eq_false_2 by (intros [? ?]; discriminate).
      cbn [orb negb].
      destruct (mkdirLoop_returns dir (ancestors [] dir) w Hanc Hrefuses)
        as [w1 Hmk].
      unfold mkdirSync. rewrite Hmk.
      apply mkdirLoop_spec in Hmk as (Hf1 & Hr1 & _ & _ & Hd1).
      specialize (Hd1 eq_refl).
      destruct (Hsafe w1) as ([] & w' & Hrun & _).
      + split; [|split].
        * rewrite Hd1. apply elem_of_union_r, elem_of_list_to_set.
          apply list_elem_of_In, (ancestors_last dir []).
        * intros a Ha. rewrite Hf1. now apply Hanc.
        * intros p Hp. destruct (Hpaths p Hp) as (Hp1 & Hp2 & Hp3 & Hp4).
          rewrite Hr1, Hd1. repeat split; try assumption.
          intros [Hold|Hnew%elem_of_list_to_set%list_elem_of_In]
            %elem_of_union; contradiction.
      + exists w'. split; [exact Hrun|]. contradiction. }
  unfold createComponent. cbv zeta. fold dir ty. apply Hrest. rewrite Ht.
  assert (Htsx : In (pathJoin dir (componentFileName x)) paths)
    by (unfold paths, writtenFiles; fold dir; now left).
  assert (Hindex : In (pathJoin dir indexFileName) paths)
    by (unfold paths, writtenFiles; fold dir;
        rewrite !in_app_iff; simpl; tauto).
  assert (Htest : In (pathJoin dir (testFileName x)) paths)
    by (unfold paths, writtenFiles; fold dir;
        rewrite !in_app_iff; simpl; tauto).
  apply returnsAt_bind; [intros w1 Hw1; now exists t, w1|intros templateText].
  apply returnsAt_bind; [apply returnsAt_writeFileSync; exact Htsx|].
  intros _. apply returnsAt_bind.
  { subst paths. unfold writtenFiles in *. fold dir in Hc |- *.
    destruct (default true (styled opts)); [|apply returnsAt_ret].
    rewrite css_truthy, (Hc eq_refl).
    apply returnsAt_bind; [intros w1 Hw1; now exists c, w1|intros cssText].
    apply returnsAt_writeFileSync.
    rewrite !in_app_iff; simpl; tauto. }
  intros _.
  apply returnsAt_bind; [apply returnsAt_writeFileSync; exact Hindex|].
  intros _.
  apply returnsAt_bind; [apply returnsAt_writeFileSync; exact Htest|].
  intros _.
  repeat (apply returnsAt_bind;
          [first [ apply returnsAt_consoleLog
                 | destruct (default true (styled opts));
                   [apply returnsAt_consoleLog|apply returnsAt_ret] ]
          |intros _]).
  apply returnsAt_consoleLog.
Qed.

(** [createComponent] returns, and makes no directory, when the templates
    of the type are strings, the directory of the component exists and
    the paths it writes to can be written. *)
Lemma createComponent_again cwd x opts t c w :
  let dir := componentDirOf cwd x in
  let ty := default (str "simple") (type opts) in
  orElse (getProperty templatesObject ty) (VString templates.simple)
  = VString t ->
  (default true (styled opts) = true ->
   orElse (getProperty cssTemplatesObject ty) (VString cssTemplates.simple)
   = VString c) ->
  writableAt dir (writtenFiles cwd x opts) w ->
  exists w', createComponent cwd x opts w = (inr tt, w')
             /\ dirs w' = dirs w.
Proof.
  intros dir ty Ht Hc (Hdir & Hanc & Hpaths).
  destruct (createComponent_starts cwd x opts t c w Ht Hc Hanc
              (or_introl Hdir) Hpaths) as (w' & Hrun & Hdirs).
  exists w'. split; [exact Hrun|now apply Hdirs].
Qed.

(** [createComponent] returns when the world is ready for the component
    and the template type is no member of [Object.prototype]. *)
Theorem createComponent_returns cwd x opts w :
  pathSegment x = true ->
  existsb (eqs (default (str "simple") (type opts))) objectPrototypeKeys
  = false ->
  projectReady cwd x w ->
  exists w', createComponent cwd x opts w = (inr tt, w').
Proof.
  intros Hx Hkey (Hanc & Hdir & Hfiles).
  destruct (template_string templatesObject templates.simple _ Hkey)
    as [t Ht].
  destruct (template_string cssTemplatesObject cssTemplates.simple _ Hkey)
    as [c Hc].
  destruct (createComponent_starts cwd x opts t c w Ht (fun _ => Hc) Hanc Hdir)
    as (w' & Hrun & _); [|eauto].
  intros p (f & Hf & ->)%writtenFiles_joined.
  destruct (Hfiles f Hf) as [Hp Hr].
  destruct (component_path cwd x f Hx Hf) as [Hparent Hnot].
  now repeat split.
Qed.

(** **** Template types that are members of [Object.prototype] *)

Lemma prototype_getProperty ty :
  existsb (eqs ty) objectPrototypeKeys = true ->
  getProperty templatesObject ty = VObject.
Proof.
  intros (k & Hk & Heq)%existsb_exists. apply eqs_eq in Heq. subst k.
  unfold objectPrototypeKeys in Hk. cbn [List.map] in Hk.
  repeat destruct Hk as [<-|Hk]; try contradiction; vm_compute; reflexivity.
Qed.

(** With such a type the run throws and writes nothing: once the
    directory is there, [template.replace] is no function. *)
Lemma prototype_run cwd x opts w :
  existsb (eqs (default (str "simple") (type opts))) objectPrototypeKeys
  = true ->
  let dir := componentDirOf cwd x in
  exists e w',
    createComponent cwd x opts w = (inl e, w')
    /\ files w' = files w
    /\ stdout w' = stdout w
    /\ dirs w ⊆ dirs w'
    /\ (e = TypeError (str "template.replace is not a function")
        -> dir ∈ dirs w' \/ is_Some (files w !! dir))
    /\ ((forall a, In a (ancestors [] dir) -> files w !! a = None) ->
        (dir ∈ dirs w
         \/ forall a, In a (ancestors [] dir) -> a ∉ dirs w ->
                      refuses w a = None) ->
        e = TypeError (str "template.replace is not a function")).
Proof.
  intros Hty dir. pose proof (prototype_getProperty _ Hty) as Hget.
  unfold createComponent. cbv zeta. fold dir. rewrite Hget.
  cbn [orElse truthy asTemplate].
  unfold mbind, M_bind, bind, existsSync.
  destruct (bool_decide (dir ∈ dirs w)) eqn:Hd.
  - cbn [orb negb]. unfold ret, throw. eexists _, w.
    split; [reflexivity|]. do 3 (split; [reflexivity|]).
    split; [|reflexivity].
    intros _. left. now apply bool_decide_eq_true_1 in Hd.
  - apply bool_decide_eq_false_1 in Hd. unfold isFile.
    destruct (bool_decide (is_Some (files w !! dir))) eqn:Hf.
    + cbn [orb negb]. unfold ret, throw. eexists _, w.
      split; [reflexivity|]. do 3 (split; [reflexivity|]).
      split; [|reflexivity].
      intros _. right. now apply bool_decide_eq_true_1 in Hf.
    + cbn [orb negb].
      destruct (mkdirSync dir w) as [[err|[]] w1] eqn:Hmk;
        pose proof (mkdirSync_spec _ _ _ _ Hmk) as (Hf1 & _ & Ho1 & Hsub & Hall).
      * eexists _, w1. split; [reflexivity|].
        split; [exact Hf1|]. split; [exact Ho1|]. split; [exact Hsub|].
        split.
        -- intros He. apply mkdirLoop_error in Hmk as [code Hcode].
           congruence.
        -- intros Hanc [Hin|Hrefuses]; [contradiction|].
           destruct (mkdirLoop_returns dir (ancestors [] dir) w Hanc Hrefuses)
             as [w2 Hret].
           unfold mkdirSync in Hmk. rewrite Hret in Hmk. discriminate.
      * unfold throw. eexists _, w1. split; [reflexivity|].
        split; [exact Hf1|]. split; [exact Ho1|]. split; [exact Hsub|].
        split; [|reflexivity].
        intros _. left. rewrite (Hall eq_refl).
        apply elem_of_union_r, elem_of_list_to_set, list_elem_of_In.
        apply (ancestors_last dir []).
Qed.

End ScaffolderReturns.

Module ScaffolderClaims.
Import JS Scaffolder ScaffolderTerms StringFacts ScaffolderFacts PathFacts
  ScaffolderRun ScaffolderReturns.

Lemma is_Some_insert_here (m : gmap jsstring jsstring) p v :
  is_Some (<[p := v]> m !! p).
Proof. rewrite lookup_insert_eq. now eexists. Qed.

Lemma is_Some_insert_later (m : gmap jsstring jsstring) k p v :
  is_Some (m !! p) -> is_Some (<[k := v]> m !! p).
Proof.
  intros Hp. destruct (decide (k = p)) as [->|Hne].
  - apply is_Some_insert_here.
  - now rewrite lookup_insert_ne.
Qed.

(** The style sheet is among the paths written exactly when the
    component is to be styled. *)
Lemma css_written cwd x opts :
  In (pathJoin (componentDirOf cwd x) (cssFileName x)) (writtenFiles cwd x opts)
  <-> styled opts <> Some false.
Proof.
  assert (Hstyled : default true (styled opts) = true
                    <-> styled opts <> Some false).
  { destruct (styled opts) as [[|]|]; simpl; split; congruence. }
  unfold writtenFiles. split.
  - intros Hin. apply Hstyled.
    destruct (default true (styled opts)); [reflexivity|].
    cbn [app] in Hin. repeat destruct Hin as [Hin|Hin]; try contradiction;
      (apply (pathJoin_inj _ x) in Hin; [|auto..]); exfalso;
      first [ exact (tsx_css _ Hin) | exact (css_index _ (eq_sym Hin))
            | exact (css_test _ (eq_sym Hin)) ].
  - intros Hs%Hstyled. rewrite Hs. simpl. tauto.
Qed.

(** The project directory [/app] is ready for the component [Button]. *)
Lemma freshWorld_ready : projectReady (str "/app") (str "Button") freshWorld.
Proof.
  split; [|split].
  - intros a _. apply lookup_empty.
  - right. reflexivity.
  - intros f Hf. split; [|reflexivity].
    intros Hin. unfold freshWorld in Hin. cbn [dirs] in Hin.
    apply elem_of_singleton in Hin.
    repeat destruct Hf as [<-|Hf]; try contradiction;
      vm_compute in Hin; discriminate.
Qed.

(** C6 (what the code does): for a component name [N] that is one
    segment of a path (every identifier is one) and any options, in a
    world that is ready for the component, the directory of the component
    is [components/N] under the working directory (an absolute,
    normalized path, as [process.cwd()] gives it), and the paths of its
    files are [N.tsx], [N.module.css], [index.ts] and [N.test.tsx] in that
    directory; the paths to write are distinct, and the style sheet is
    among them exactly when [options.styled] is not [false].  When the
    template type is no member of [Object.prototype], [createComponent]
    returns: the files are then the files there were with the component
    file, the style sheet (when the component is to be styled), the
    barrel file and the test file written, so each of these paths holds a
    file and every other path holds what it held before.  When the
    template type is a member of [Object.prototype] ([constructor],
    [toString], ...), [createComponent] throws the [TypeError]
    [template.replace is not a function] and has written no file, where
    the specification has an unknown type fall back to [simple]. *)
Theorem createComponent_writes cwd N opts w :
  pathSegment N = true ->
  projectReady cwd N w ->
  let dir := componentDirOf cwd N in
  let written := writtenFiles cwd N opts in
  let ty := default (str "simple") (type opts) in
  (exists base,
     dir = base ++ str "components/" ++ N
     /\ (base = [] \/ List.last base 0 = 47))
  /\ (startsWith (str "/") cwd = true -> normalize cwd = cwd ->
      dir = cwd ++ (if List.last cwd 0 =? 47 then [] else str "/")
              ++ str "components/" ++ N)
  /\ (forall f, In f (componentFiles N) -> pathJoin dir f = dir ++ str "/" ++ f)
  /\ NoDup written
  /\ (In (pathJoin dir (cssFileName N)) written <-> styled opts <> Some false)
  /\ (existsb (eqs ty) objectPrototypeKeys = false ->
      exists w' src css,
        createComponent cwd N opts w = (inr tt, w')
        /\ files w'
           = <[pathJoin dir (testFileName N) := testContent N]>
             (<[pathJoin dir indexFileName
                := indexContent (default true (typed opts)) N]>
              ((if default true (styled opts)
                then <[pathJoin dir (cssFileName N) := css]> else id)
                 (<[pathJoin dir (componentFileName N) := src]> (files w))))
        /\ (forall p, In p written -> is_Some (files w' !! p))
        /\ (forall p, ~ In p written -> files w' !! p = files w !! p))
  /\ (existsb (eqs ty) objectPrototypeKeys = true ->
      exists w',
        createComponent cwd N opts w
        = (inl (TypeError (str "template.replace is not a function")), w')
        /\ files w' = files w).
Proof.
  intros HN Hready dir written ty.
  split; [now apply componentDir_shape|].
  split; [now apply componentDir_under|].
  split; [intros f Hf; now apply component_join|].
  split; [apply writtenFiles_NoDup|].
  split; [apply css_written|].
  split.
  - intros Hkey.
    destruct (createComponent_returns cwd N opts w HN Hkey Hready)
      as [w' Hrun].
    destruct (createComponent_inr _ _ _ _ _ Hrun) as (t & css & _ & Hfiles).
    fold dir in Hfiles.
    exists w', (renderComponent t N), css.
    split; [exact Hrun|]. split; [exact Hfiles|].
    subst written. unfold writtenFiles. fold dir. split.
    + intros p Hp. rewrite Hfiles.
      destruct (default true (styled opts)); cbn [app] in Hp;
        repeat destruct Hp as [<-|Hp]; try contradiction; unfold id;
        repeat first [ apply is_Some_insert_here
                     | apply is_Some_insert_later ].
    + intros p Hp. rewrite Hfiles.
      destruct (default true (styled opts)); cbn [app] in Hp; unfold id;
        repeat rewrite lookup_insert_ne
          by (intros <-; apply Hp; simpl; tauto);
        reflexivity.
  - intros Hkey. destruct Hready as (Hanc & Hdir & _).
    destruct (prototype_run cwd N opts w Hkey)
      as (e & w' & Hrun & Hfiles & _ & _ & _ & He).
    rewrite (He Hanc Hdir) in Hrun. now exists w'.
Qed.

(** A run in a fresh project directory, without the style sheet: it
    returns, the component file is there and the style sheet is not. *)
Lemma createComponent_writes_witness :
  componentDirOf (str "/app") (str "Button") = str "/app/components/Button"
  /\ exists w',
       createComponent (str "/app") (str "Button") unstyledOptions freshWorld
       = (inr tt, w')
       /\ is_Some (files w' !! str "/app/components/Button/Button.tsx")
       /\ files w' !! str "/app/components/Button/Button.module.css" = None.
Proof.
  destruct (createComponent_writes (str "/app") (str "Button")
              unstyledOptions freshWorld eq_refl freshWorld_ready)
    as (_ & Hdir & _ & _ & _ & Hreturns & _).
  split; [exact (Hdir eq_refl eq_refl)|].
  destruct (Hreturns eq_refl) as (w' & src & css & Hrun & _ & Hsome & Hframe).
  exists w'. split; [exact Hrun|]. split.
  - apply Hsome. vm_compute. tauto.
  - rewrite Hframe; [reflexivity|].
    vm_compute. intros H. repeat destruct H as [H|H]; try discriminate H.
    exact H.
Defined.

(** The same call with the template type [constructor]: it throws, and
    no file is written. *)
Example createComponent_constructor :
  exists w',
    createComponent (str "/app") (str "Button")
      {| type := Some (str "constructor"); styled := None; typed := None |}
      freshWorld
    = (inl (TypeError (str "template.replace is not a function")), w')
    /\ files w' = ∅
    /\ dirs w' = {[ str "/app"; str "/app/components";
                    str "/app/components/Button" ]}.
Proof.
  eexists. split; [vm_compute; reflexivity|]. split; [reflexivity|].
  apply set_eq. intros q. cbn [dirs]. set_solver.
Qed.

(** A name that is more than one segment is outside the statement: for
    [a/b] the directory [components/a/b] is made and the first write, to
    [components/a/b/a/b.tsx], fails; for [..] the files are written into
    the working directory itself. *)
Example createComponent_two_segments :
  exists w',
    createComponent (str "/app") (str "a/b")
      {| type := None; styled := None; typed := None |} freshWorld
    = (inl (FsError (str "ENOENT") (str "/app/components/a/b/a/b.tsx")), w')
    /\ files w' = ∅.
Proof. eexists. split; [vm_compute; reflexivity|reflexivity]. Qed.

Example createComponent_dotdot :
  componentDirOf (str "/app") (str "..") = str "/app"
  /\ writtenFiles (str "/app") (str "..") unstyledOptions
     = [str "/app/...tsx"; str "/app/index.ts"; str "/app/...test.tsx"].
Proof. split; vm_compute; reflexivity. Qed.

(** In the root directory, and in a directory given with a slash at its
    end. *)
Example componentDirOf_root :
  componentDirOf (str "/") (str "Button") = str "/components/Button"
  /\ writtenFiles (str "/") (str "Button") unstyledOptions
     = [str "/components/Button/Button.tsx";
        str "/components/Button/index.ts";
        str "/components/Button/Button.test.tsx"]
  /\ componentDirOf (str "/app/") (str "Button")
     = str "/app/components/Button".
Proof. repeat split; vm_compute; reflexivity. Qed.

(** The component file after a run that returned. *)
Lemma lookup_source cwd x opts w w' :
  createComponent cwd x opts w = (inr tt, w') ->
  exists t,
    orElse (getProperty templatesObject (default (str "simple") (type opts)))
           (VString templates.simple) = VString t
    /\ files w' !! pathJoin (componentDirOf cwd x) (componentFileName x)
       = Some (renderComponent t x).
Proof.
  intros Hrun.
  destruct (createComponent_inr _ _ _ _ _ Hrun) as (t & css & Ht & Hfiles).
  exists t. split; [exact Ht|]. rewrite Hfiles.
  rewrite lookup_insert_ne
    by (apply (pathJoin_ne _ x); [auto..|apply not_eq_sym, tsx_test]).
  rewrite lookup_insert_ne
    by (apply (pathJoin_ne _ x); [auto..|apply not_eq_sym, tsx_index]).
  destruct (default true (styled opts)); unfold id.
  - rewrite lookup_insert_ne
      by (apply (pathJoin_ne _ x); [auto..|apply not_eq_sym, tsx_css]).
    apply lookup_insert_eq.
  - apply lookup_insert_eq.
Qed.

Lemma supported_not_prototype ty :
  In ty supportedTypes -> existsb (eqs ty) objectPrototypeKeys = false.
Proof.
  intros Hty. repeat destruct Hty as [<-|Hty]; try contradiction;
    vm_compute; reflexivity.
Qed.

(** C7 (what the code does): for each of the template types [simple],
    [interactive], [data] and [form], given or by default, and every name
    [X] that is an
    identifier written in ASCII (letters, digits, underscores and
    dollars), [createComponent] returns in a world that is ready for the
    component, and the component source that a run that returns has
    written to [X.tsx] is the rendering of the template of that type; it
    holds no occurrence of [{{ComponentName}}] and no occurrence of
    [{{componentName}}].  What it holds in the place of the placeholder
    is [X] with each [$$] made one [$]: at least one occurrence of [X]
    when [X] holds no [$$].  For the identifier [$$] the source of each
    of the four types holds no occurrence of [$$]: the name is the
    replacement text of [String.prototype.replace], which reads [$$] as
    one dollar, where the specification asks for a literal
    substitution. *)
Theorem component_source_dollars :
  (forall cwd X opts ty w w',
     In ty supportedTypes ->
     default (str "simple") (type opts) = ty ->
     jsIdentifier X = true ->
     createComponent cwd X opts w = (inr tt, w') ->
     exists template src,
       getProperty templatesObject ty = VString template
       /\ src = renderComponent template X
       /\ files w' !! pathJoin (componentDirOf cwd X) (componentFileName X)
          = Some src
       /\ occurrences ComponentName_token src = 0%nat
       /\ occurrences componentName_token src = 0%nat
       /\ (1 <= occurrences (dollars X) src)%nat
       /\ (includes (str "$$") X = false -> (1 <= occurrences X src)%nat))
  /\ (forall cwd X opts ty w,
        In ty supportedTypes ->
        default (str "simple") (type opts) = ty ->
        jsIdentifier X = true ->
        projectReady cwd X w ->
        exists w', createComponent cwd X opts w = (inr tt, w'))
  /\ (forall ty,
        In ty supportedTypes ->
        exists w' src,
          createComponent (str "/app") (str "$$")
            {| type := Some ty; styled := None; typed := None |} freshWorld
          = (inr tt, w')
          /\ files w' !! str "/app/components/$$/$$.tsx" = Some src
          /\ occurrences ComponentName_token src = 0%nat
          /\ occurrences componentName_token src = 0%nat
          /\ occurrences (str "$$") src = 0%nat
          /\ (1 <= occurrences (str "$") src)%nat).
Proof.
  split; [|split].
  - intros cwd X opts ty w w' Hty Hopt Hid Hrun.
    destruct (lookup_source _ _ _ _ _ Hrun) as (t & Ht & Hfile).
    rewrite Hopt in Ht.
    assert (Hget : getProperty templatesObject ty = VString t)
      by (repeat destruct Hty as [<-|Hty]; try contradiction; exact Ht).
    assert (Hok : templateOK t = true).
    { apply template_selected in Ht.
      exact (proj1 (List.Forall_forall _ _) templates_ok t Ht). }
    destruct (renderComponent_dollars_clean t X Hok Hid)
      as (H1 & H2 & H3 & H4).
    exists t, (renderComponent t X). now repeat split.
  - intros cwd X opts ty w Hty Hopt Hid Hready.
    apply createComponent_returns;
      [now apply jsIdentifier_pathSegment| |exact Hready].
    rewrite Hopt. now apply supported_not_prototype.
  - intros ty Hty.
    repeat destruct Hty as [<-|Hty]; try contradiction;
      match goal with
      | |- context [createComponent ?cwd ?x ?opts ?w] =>
          exists (snd (createComponent cwd x opts w));
          assert (Hrun : createComponent cwd x opts w
                         = (inr tt, snd (createComponent cwd x opts w)))
            by (vm_compute; reflexivity);
          destruct (lookup_source _ _ _ _ _ Hrun) as (t & Ht & Hfile);
          exists (renderComponent t x);
          vm_compute in Ht; injection Ht as <-;
          split; [exact Hrun|];
          split; [exact Hfile|];
          repeat split; vm_compute; reflexivity || lia
      end.
Qed.

End ScaffolderClaims.

(** ** The type generator *)

Module TypeGeneratorFacts.
Import JS TypeGenerator TypeGeneratorTerms StringFacts.

Lemma split_nonempty sep s : split sep s <> [].
Proof.
  destruct s as [|c s]; simpl; [discriminate|].
  destruct (c =? sep); [discriminate|]. now destruct (split sep s).
Qed.

(** The first piece of a split is a prefix of the text. *)
Lemma split_head sep s : forall piece rest,
  split sep s = piece :: rest -> exists z, s = piece ++ z.
Proof.
  induction s as [|c s IH]; intros piece rest; simpl.
  - intros [= <- _]. now exists [].
  - destruct (c =? sep).
    + intros [= <- _]. now exists (c :: s).
    + destruct (split sep s) as [|p r] eqn:E.
      * now destruct (split_nonempty sep s).
      * intros [= <- _]. destruct (IH p r eq_refl) as [z ->].
        now exists z.
Qed.

Lemma includes_app_l p a : forall z,
  includes p a = true -> includes p (a ++ z) = true.
Proof.
  induction a as [|c a IH]; intros z.
  - simpl. rewrite orb_false_r. intros Hp.
    destruct p; [|discriminate]. now destruct z.
  - cbn [includes app]. intros [Hp|Ha]%orb_true_iff.
    + change (c :: a ++ z) with ((c :: a) ++ z).
      now rewrite (startsWith_app _ _ z Hp).
    + rewrite (IH z Ha). apply orb_true_r.
Qed.

(** What a line of a text includes, the text includes. *)
Lemma includes_line p sep s : forall ln,
  In ln (split sep s) -> includes p ln = true -> includes p s = true.
Proof.
  induction s as [|c s IH]; intros ln; cbn [split].
  - intros [<-|[]]. auto.
  - destruct (c =? sep).
    + intros [<-|Hin] Hp.
      * simpl in Hp. rewrite orb_false_r in Hp.
        destruct p; [reflexivity|discriminate].
      * apply includes_cons. eapply IH; eassumption.
    + destruct (split sep s) as [|piece r] eqn:E.
      * now destruct (split_nonempty sep s).
      * destruct (split_head _ _ _ _ E) as [z Hz].
        intros [<-|Hin] Hp.
        -- apply (includes_app_l p (c :: piece) z) in Hp.
           rewrite Hz. exact Hp.
        -- apply includes_cons. apply (IH ln); [now right|exact Hp].
Qed.

Section Facts.
Context `{Numbers}.

Lemma generateTypeScriptTypes_text name props :
  generateTypeScriptTypes
    {| schemaName := name; properties := props; interfaces := Some [] |}
  = match mapM propertyText props with
    | inl err => inl err
    | inr texts => inr (twoInterfaces name (join [LF] texts))
    end.
Proof.
  unfold generateTypeScriptTypes. cbn [schemaName properties interfaces].
  destruct (mapM propertyText props) as [err|texts]; [reflexivity|].
  f_equal. unfold twoInterfaces, interfaceText.
  cbn [default from_option length Nat.ltb Nat.leb].
  rewrite <- !app_assoc. reflexivity.
Qed.

(** On the GraphQL path no property has a description, so every property
    has a text. *)
Lemma graphqlProperties_description typeName lines : forall flag p,
  In p (graphqlProperties typeName flag lines) -> description p = None.
Proof.
  induction lines as [|ln lines IH]; intros flag p; cbn [graphqlProperties];
    [contradiction|].
  destruct (includes (typeMarker typeName) ln); [apply IH|].
  destruct flag; [|apply IH].
  destruct (includes (str "}") ln); [contradiction|].
  destruct (negb (eqs (trim ln) []) && negb (startsWith (str "#") ln));
    [|apply IH].
  destruct (exec field_pattern ln) as [m|]; [|apply IH].
  destruct (capture 1 (groups m)); [|apply IH].
  destruct (capture 2 (groups m)); [|apply IH].
  destruct (capture 3 (groups m)); [|apply IH].
  intros [<-|Hin]; [reflexivity|]. eapply IH; eassumption.
Qed.

Lemma mapM_propertyText_plain props :
  (forall p, In p props -> description p = None) ->
  exists texts, mapM propertyText props = inr texts.
Proof.
  induction props as [|p props IH]; intros Hnone; [now exists []|].
  destruct IH as [texts Htexts]; [intros q Hq; apply Hnone; now right|].
  simpl. unfold propertyText at 1. rewrite (Hnone p) by now left.
  cbn [truthy]. rewrite Htexts. eauto.
Qed.

End Facts.

End TypeGeneratorFacts.

Module TypeGeneratorClaims.
Import JS TypeGenerator TypeGeneratorTerms StringFacts TypeGeneratorFacts.

Section Claims.
Context `{Numbers}.

(** C2 (what the code does on the schema of the claim): for the type
    [User] with the fields [id: ID!] and [name: String], one per line,
    both fields are emitted as optional, [id?: ID;] and [name?: String;]:
    the pattern looks for the [!] after the name of the field, and in
    [id: ID!] it follows the type.  When the declaration is on one line,
    the line that holds [type User] is skipped and no field is emitted. *)
Theorem graphql_user_fields :
  generateFromGraphQL userSchema (str "User")
  = inr (str "export interface User {
  id?: ID;
  name?: String;
}

export interface UserProps {
  id?: ID;
  name?: String;
}
")
  /\ generateFromGraphQL userSchemaOneLine (str "User")
     = inr (str "export interface User {

}

export interface UserProps {

}
").
Proof. split; vm_compute; reflexivity. Qed.

Lemma generateFromGraphQL_found schema typeName :
  existsb (includes (typeMarker typeName)) (split LF schema) = true ->
  exists texts,
    mapM propertyText (graphqlProperties typeName false (split LF schema))
    = inr texts
    /\ generateFromGraphQL schema typeName
       = inr (twoInterfaces typeName (join [LF] texts)).
Proof.
  intros Hfound. unfold generateFromGraphQL. rewrite Hfound. cbn [negb].
  destruct (mapM_propertyText_plain
              (graphqlProperties typeName false (split LF schema)))
    as [texts Htexts].
  { intros p. apply graphqlProperties_description. }
  exists texts. split; [exact Htexts|].
  now rewrite generateTypeScriptTypes_text, Htexts.
Qed.

(** C3 (what the code does): the test for the presence of the type is
    [line.includes(`type ${typeName}`)] on the lines of the schema text.
    [generateFromGraphQL] throws the error
    [Type N not found in GraphQL schema] exactly when no line includes
    the text [type N], in particular when the schema text does not
    include it; when some line includes it, the two interfaces [N] and
    [NProps] are returned.  So a name that is not declared is accepted
    when it begins the name of a declared type: the schema that declares
    [User] only gives, for the name [Use], the interface [Use] with the
    fields of [User], where the specification asks for an error; and in
    a schema that declares [UserProfile] before [User], the interface
    [User] is given the fields of [UserProfile]. *)
Theorem graphql_presence_check :
  (forall schema typeName,
     (forall ln, In ln (split LF schema) ->
                 includes (typeMarker typeName) ln = false)
     <-> generateFromGraphQL schema typeName
         = inl (ErrorMessage (notFound typeName)))
  /\ (forall schema typeName,
        includes (typeMarker typeName) schema = false ->
        generateFromGraphQL schema typeName
        = inl (ErrorMessage (notFound typeName)))
  /\ (forall schema typeName ln,
        In ln (split LF schema) ->
        includes (typeMarker typeName) ln = true ->
        exists texts,
          mapM propertyText
               (graphqlProperties typeName false (split LF schema))
          = inr texts
          /\ generateFromGraphQL schema typeName
             = inr (twoInterfaces typeName (join [LF] texts)))
  /\ declaredTypes userSchema = [str "User"]
  /\ declaresType userSchema (str "Use") = false
  /\ generateFromGraphQL userSchema (str "Use")
     = inr (str "export interface Use {
  id?: ID;
  name?: String;
}

export interface UseProps {
  id?: ID;
  name?: String;
}
")
  /\ declaredTypes profileSchema = [str "UserProfile"; str "User"]
  /\ generateFromGraphQL profileSchema (str "User")
     = inr (str "export interface User {
  bio?: String;
}

export interface UserProps {
  bio?: String;
}
").
Proof.
  assert (Hthrow : forall schema typeName,
            (forall ln, In ln (split LF schema) ->
                        includes (typeMarker typeName) ln = false) ->
            generateFromGraphQL schema typeName
            = inl (ErrorMessage (notFound typeName))).
  { intros schema typeName Hnone. unfold generateFromGraphQL.
    destruct (existsb _ _) eqn:E; [|reflexivity].
    apply existsb_exists in E as (ln & Hin & Hln).
    rewrite (Hnone ln Hin) in Hln. discriminate. }
  split; [|split; [|split]].
  - intros schema typeName. split; [apply Hthrow|].
    intros Herr ln Hin.
    destruct (includes (typeMarker typeName) ln) eqn:Hln; [|reflexivity].
    destruct (generateFromGraphQL_found schema typeName) as (texts & _ & Hout).
    { apply existsb_exists. eauto. }
    rewrite Hout in Herr. discriminate.
  - intros schema typeName Hnone. apply Hthrow. intros ln Hin.
    destruct (includes (typeMarker typeName) ln) eqn:Hln; [|reflexivity].
    rewrite (includes_line _ _ _ _ Hin Hln) in Hnone. discriminate.
  - intros schema typeName ln Hin Hln.
    apply generateFromGraphQL_found. apply existsb_exists. eauto.
  - repeat split; vm_compute; reflexivity.
Qed.

(** C8: the text that either path returns is an interface declaration
    [export interface N { ... }], a blank line, and the declaration
    [export interface NProps { ... }] with the same lines of fields, which
    are the texts of the properties, one per line. *)
Theorem two_interfaces :
  (forall jsonSchema typeName out,
     generateFromJSON jsonSchema typeName = inr out ->
     exists props texts,
       jsonProperties jsonSchema = inr props
       /\ mapM propertyText props = inr texts
       /\ out = twoInterfaces typeName (join [LF] texts))
  /\ (forall schema typeName out,
        generateFromGraphQL schema typeName = inr out ->
        exists texts,
          mapM propertyText
               (graphqlProperties typeName false (split LF schema))
          = inr texts
          /\ out = twoInterfaces typeName (join [LF] texts)).
Proof.
  split.
  - intros jsonSchema typeName out. unfold generateFromJSON.
    destruct (jsonProperties jsonSchema) as [err|props]; [discriminate|].
    rewrite generateTypeScriptTypes_text.
    destruct (mapM propertyText props) as [err|texts] eqn:E; [discriminate|].
    intros [= <-]. now exists props, texts.
  - intros schema typeName out Hout.
    destruct (existsb (includes (typeMarker typeName)) (split LF schema))
      eqn:E.
    + destruct (generateFromGraphQL_found _ _ E) as (texts & Htexts & Hgen).
      rewrite Hgen in Hout. injection Hout as <-. now exists texts.
    + unfold generateFromGraphQL in Hout. rewrite E in Hout. discriminate.
Qed.

End Claims.

Lemma two_interfaces_witness :
  (exists fields,
     @generateFromJSON naturals itemSchema (str "Item")
     = inr (twoInterfaces (str "Item") fields))
  /\ (exists fields,
        @generateFromGraphQL naturals userSchema (str "User")
        = inr (twoInterfaces (str "User") fields)).
Proof.
  split.
  - assert (Hrun : @generateFromJSON naturals itemSchema (str "Item")
                   = inr (twoInterfaces (str "Item")
                            (str "  id: string;
  count?: number;")))
      by (vm_compute; reflexivity).
    destruct (proj1 (@two_interfaces naturals) _ _ _ Hrun)
      as (props & texts & _ & _ & Hout).
    exists (join [LF] texts). now rewrite Hrun, Hout.
  - assert (Hrun : @generateFromGraphQL naturals userSchema (str "User")
                   = inr (twoInterfaces (str "User")
                            (str "  id?: ID;
  name?: String;")))
      by (vm_compute; reflexivity).
    destruct (proj2 (@two_interfaces naturals) _ _ _ Hrun)
      as (texts & _ & Hout).
    exists (join [LF] texts). now rewrite Hrun, Hout.
Defined.

End TypeGeneratorClaims.

Module JsonSchemaClaims.
Import JS TypeGenerator TypeGeneratorTerms StringFacts TypeGeneratorFacts.

Section Claims.
Context `{Numbers}.

Lemma getMemberOpt_memberOf key v : getMemberOpt (Some v) key = memberOf key v.
Proof. now destruct v. Qed.

Lemma isRequired_listed members key :
  schemaDocument (JObject members) = true ->
  isRequired (JObject members) key
  = inr (listedRequired (JObject members) key).
Proof.
  unfold schemaDocument, isRequired, listedRequired, getMember, memberOf.
  intros [_ Hreq]%andb_true_iff.
  destruct (lookupMember (str "required") members) as [[| | | | |]|];
    try discriminate; reflexivity.
Qed.

Lemma tsTypeOf_table prop :
  propertySchema prop = true -> tsTypeOf prop = inr (tableType prop).
Proof.
  destruct prop as [| | | | |members]; try discriminate; try reflexivity.
  unfold propertySchema. intros [Hitems _]%andb_true_iff.
  unfold tsTypeOf, tableType, getMember.
  rewrite !getMemberOpt_memberOf. unfold itemTypeName.
  cbn [memberOf] in *.
  destruct (lookupMember (str "type") members) as [[| | |kind| |]|];
    try reflexivity.
  destruct (eqs kind (str "string")); [reflexivity|].
  destruct (eqs kind (str "number")); [reflexivity|].
  destruct (eqs kind (str "boolean")); [reflexivity|].
  destruct (eqs kind (str "array")).
  - destruct (lookupMember (str "items") members) as [[| | | | |items]|];
      try reflexivity.
    cbn [getMemberOpt memberOf].
    destruct (lookupMember (str "type") items) as [[| | |t| |]|];
      try discriminate; [|reflexivity].
    cbn [truthy toString]. now destruct (eqs t []).
  - destruct (eqs kind (str "object")); [|reflexivity].
    now destruct (truthy _).
Qed.

Lemma propertyOfEntry_table members entry :
  schemaDocument (JObject members) = true ->
  propertySchema (snd entry) = true ->
  propertyOfEntry (JObject members) entry
  = inr (tableProperty (JObject members) entry).
Proof.
  intros Hdoc Hprop. destruct entry as [key prop]. cbn [snd] in Hprop.
  unfold propertyOfEntry.
  rewrite (isRequired_listed _ _ Hdoc), (tsTypeOf_table _ Hprop).
  now rewrite getMemberOpt_memberOf.
Qed.

Lemma mapM_map {A B} (f : A -> Result B) (g : A -> B) (l : list A) :
  (forall a, In a l -> f a = inr (g a)) -> mapM f l = inr (List.map g l).
Proof.
  induction l as [|a l IH]; intros Hfg; [reflexivity|].
  simpl. rewrite (Hfg a) by now left.
  rewrite IH by (intros b Hb; apply Hfg; now right). reflexivity.
Qed.

(** The properties that the loop of [generateFromJSON] collects are
    those of the table. *)
Lemma jsonProperties_table schema :
  schemaDocument schema = true ->
  jsonProperties schema
  = inr (List.map (tableProperty schema) (schemaProperties schema)).
Proof.
  intros Hdoc. pose proof Hdoc as Hdoc'.
  destruct schema as [| | | | |members]; try discriminate; try reflexivity.
  unfold schemaDocument in Hdoc'. apply andb_true_iff in Hdoc' as [Hprops _].
  unfold jsonProperties, schemaProperties, getMember.
  cbn [memberOf] in *.
  destruct (lookupMember (str "properties") members) as [[| | | | |props]|];
    try discriminate; [|reflexivity].
  cbn [truthy entries]. apply mapM_map. intros entry Hin.
  apply propertyOfEntry_table; [exact Hdoc|].
  rewrite forallb_forall in Hprops. now apply Hprops.
Qed.





Lemma schemaProperties_wf schema :
  schemaDocument schema = true ->
  forallb (fun e => propertySchema (snd e)) (schemaProperties schema) = true.
Proof.
  destruct schema as [| | | | |members]; try discriminate; try reflexivity.
  unfold schemaDocument, schemaProperties. cbn [memberOf].
  intros [Hprops _]%andb_true_iff.
  destruct (lookupMember (str "properties") members) as [[| | | | |props]|];
    try reflexivity. exact Hprops.
Qed.


End Claims.


End JsonSchemaClaims.

(** ** More on the matcher *)

Module RegexFacts.
Import JS RegexTerms.

Lemma span_app p s : s = spanRun p s ++ spanRest p s.
Proof.
  induction s as [|c s IH]; [reflexivity|]. simpl.
  destruct (p c); [simpl; now f_equal|reflexivity].
Qed.

Lemma spanRun_all p s : forallb p (spanRun p s) = true.
Proof.
  induction s as [|c s IH]; [reflexivity|]. simpl.
  destruct (p c) eqn:E; [simpl; now rewrite E|reflexivity].
Qed.

Lemma spanRest_stops p s : stops p (spanRest p s) = true.
Proof.
  induction s as [|c s IH]; [reflexivity|]. simpl.
  destruct (p c) eqn:E; [exact IH|simpl; now rewrite E].
Qed.

Lemma spanRest_nil p s : spanRest p s = [] <-> forallb p s = true.
Proof.
  induction s as [|c s IH]; [easy|]. simpl.
  destruct (p c); simpl; [exact IH|easy].
Qed.

(** A run followed by a text that stops the class is the span of the whole. *)
Lemma span_unique p run rest :
  forallb p run = true -> stops p rest = true ->
  spanRun p (run ++ rest) = run /\ spanRest p (run ++ rest) = rest.
Proof.
  intros Hrun Hrest. induction run as [|c run IH].
  - destruct rest as [|c rest]; [easy|]. simpl in *.
    apply negb_true_iff in Hrest. now rewrite Hrest.
  - simpl in *. apply andb_true_iff in Hrun as [Hc Hrun]. rewrite Hc.
    destruct (IH Hrun) as [-> ->]. easy.
Qed.

Lemma rmatch_Seq r1 r2 k st :
  rmatch (Seq r1 r2) k st = rmatch r1 (rmatch r2 k) st.
Proof. reflexivity. Qed.

Lemma rmatch_Chr p k st :
  rmatch (Chr p) k st
  = match after st with
    | c :: rest =>
        if p c then k (MState (c :: before st) rest (caps st)) else None
    | [] => None
    end.
Proof. reflexivity. Qed.

Lemma rmatch_WordB k st :
  rmatch WordB k st
  = if xorb (isWordAt (before st)) (isWordAt (after st)) then k st else None.
Proof. reflexivity. Qed.

Lemma rmatch_Group i r k st :
  rmatch (Group i r) k st
  = rmatch r (fun st' =>
                k (MState (before st') (after st')
                          ((i, consumed st st') :: caps st'))) st.
Proof. reflexivity. Qed.

(** The greedy repetition of a class, on a run of the class. *)
Lemma starLoop_chr p k run : forall fuel pre rest cs,
  forallb p run = true -> stops p rest = true ->
  (length run < fuel)%nat ->
  starLoop (rmatch (Chr p)) fuel k (MState pre (run ++ rest) cs)
  = backtrack k pre run rest cs.
Proof.
  induction run as [|c run IH]; intros fuel pre rest cs Hrun Hrest Hfuel.
  - destruct fuel as [|fuel]; [lia|]. cbn [starLoop rmatch after app backtrack].
    destruct rest as [|c rest]; [reflexivity|]. simpl in Hrest.
    apply negb_true_iff in Hrest. now rewrite Hrest.
  - destruct fuel as [|fuel]; [simpl in Hfuel; lia|].
    simpl in Hrun. apply andb_true_iff in Hrun as [Hc Hrun].
    cbn [starLoop rmatch after before caps app backtrack]. rewrite Hc.
    cbn [after length].
    replace (length (run ++ rest) <? S (length (run ++ rest)))%nat with true
      by (symmetry; apply Nat.ltb_lt; lia).
    rewrite IH by (auto; simpl in Hfuel; lia). reflexivity.
Qed.

Lemma rmatch_star_chr p k st :
  rmatch (Star (Chr p)) k st
  = backtrack k (before st) (spanRun p (after st)) (spanRest p (after st))
      (caps st).
Proof.
  destruct st as [pre rest cs]. cbn [rmatch after before caps].
  rewrite (span_app p rest) at 2.
  apply starLoop_chr;
    [apply spanRun_all|apply spanRest_stops|].
  rewrite (span_app p rest) at 2. rewrite length_app. lia.
Qed.

(** The longest run is tried first. *)
Lemma backtrack_first k run : forall pre rest cs e,
  k (MState (rev run ++ pre) rest cs) = Some e ->
  backtrack k pre run rest cs = Some e.
Proof.
  induction run as [|c run IH]; intros pre rest cs e Hk; [exact Hk|].
  cbn [backtrack]. rewrite (IH (c :: pre) rest cs e); [reflexivity|].
  cbn [rev] in Hk. now rewrite <- app_assoc in Hk.
Qed.

Lemma backtrack_some k run : forall pre rest cs e,
  backtrack k pre run rest cs = Some e ->
  exists run1 run2,
    run = run1 ++ run2
    /\ k (MState (rev run1 ++ pre) (run2 ++ rest) cs) = Some e.
Proof.
  induction run as [|c run IH]; intros pre rest cs e.
  - intros Hk. now exists [], [].
  - cbn [backtrack].
    destruct (backtrack k (c :: pre) run rest cs) as [e'|] eqn:E.
    + intros [= <-]. destruct (IH _ _ _ _ E) as (run1 & run2 & -> & Hk).
      exists (c :: run1), run2. split; [reflexivity|].
      cbn [rev]. now rewrite <- app_assoc.
    + intros Hk. now exists [], (c :: run).
Qed.

Lemma backtrack_none k run : forall pre rest cs,
  (forall run1 run2, run = run1 ++ run2 ->
     k (MState (rev run1 ++ pre) (run2 ++ rest) cs) = None) ->
  backtrack k pre run rest cs = None.
Proof.
  intros pre rest cs Hk.
  destruct (backtrack k pre run rest cs) as [e|] eqn:E; [|reflexivity].
  destruct (backtrack_some _ _ _ _ _ _ E) as (run1 & run2 & Hrun & Hsome).
  now rewrite (Hk run1 run2 Hrun) in Hsome.
Qed.

(** When the rest of the pattern is the end of the input, only the whole
    run can do. *)
Lemma backtrack_Eol run : forall pre rest cs,
  backtrack (rmatch Eol Some) pre run rest cs
  = match rest with
    | [] => Some (MState (rev run ++ pre) [] cs)
    | _ :: _ => None
    end.
Proof.
  induction run as [|c run IH]; intros pre rest cs.
  - cbn [backtrack rmatch after rev app]. now destruct rest.
  - cbn [backtrack]. rewrite IH. destruct rest as [|d rest].
    + cbn [rev]. now rewrite <- app_assoc.
    + reflexivity.
Qed.

(** A pattern that begins with [^] matches at position 0 or nowhere. *)
Lemma execFrom_Bol r c pre rest : execFrom (Seq Bol r) (c :: pre) rest = None.
Proof.
  revert c pre. induction rest as [|d rest IH]; intros c pre.
  - reflexivity.
  - cbn [execFrom]. unfold matchHere at 1. cbn [rmatch before].
    apply IH.
Qed.

Lemma test_Bol r s :
  test (Seq Bol r) s
  = match rmatch r Some (MState [] s []) with
    | Some _ => true
    | None => false
    end.
Proof.
  unfold test, exec. destruct s as [|c s].
  - cbn [execFrom]. unfold matchHere. cbn [rmatch before].
    now destruct (rmatch r Some _).
  - cbn [execFrom]. unfold matchHere at 1. cbn [rmatch before].
    destruct (rmatch r Some _); [reflexivity|]. now rewrite execFrom_Bol.
Qed.

(** A match found by the scan of a pattern with the [g] flag is a match
    at a position of the input. *)
Lemma walk_hit r m : forall rest skip pre,
  In (Hit m) (walk r skip pre rest) ->
  exists pre' rest',
    rev pre' ++ rest' = rev pre ++ rest
    /\ matchHere r pre' rest' = Some m.
Proof.
  induction rest as [|c rest IH]; intros skip pre.
  - destruct skip as [|skip]; cbn [walk]; [|contradiction].
    destruct (matchHere r pre []) as [m'|] eqn:E; [|contradiction].
    intros [[= <-]|[]]. now exists pre, [].
  - assert (Hnext : forall skip', In (Hit m) (walk r skip' (c :: pre) rest) ->
              exists pre' rest',
                rev pre' ++ rest' = rev pre ++ c :: rest
                /\ matchHere r pre' rest' = Some m).
    { intros skip' Hin. destruct (IH _ _ Hin) as (pre' & rest' & Heq & Hm).
      exists pre', rest'. split; [|exact Hm].
      rewrite Heq. cbn [rev]. now rewrite <- app_assoc. }
    destruct skip as [|skip]; cbn [walk]; [|apply Hnext].
    destruct (matchHere r pre (c :: rest)) as [m'|] eqn:E.
    + intros [[= <-]|Hin]; [now exists pre, (c :: rest)|].
      destruct (length (matched m')); [|now apply Hnext in Hin].
      destruct Hin as [[=]|Hin]. now apply Hnext in Hin.
    + intros [[=]|Hin]. now apply Hnext in Hin.
Qed.

End RegexFacts.

(** ** More on the style validator *)

Module ValidatorExtras.
Import JS Validator ValidatorTerms ValidatorExtraTerms RegexTerms RegexFacts
  StringFacts ValidatorFacts.

(** *** The patterns of the rules, without the matcher *)

Lemma test_classNaming s : test classNaming_pattern s = camelCase s.
Proof.
  unfold classNaming_pattern. rewrite test_Bol.
  destruct s as [|c t]; [reflexivity|].
  rewrite rmatch_Seq, rmatch_Chr. cbn [after before caps camelCase].
  destruct (isLower c); [|reflexivity]. cbn [andb].
  rewrite rmatch_Seq, rmatch_star_chr. cbn [after before caps]. rewrite backtrack_Eol.
  destruct (spanRest isAlnum t) eqn:E.
  - apply spanRest_nil in E. now rewrite E.
  - destruct (forallb isAlnum t) eqn:F; [|reflexivity].
    apply spanRest_nil in F. congruence.
Qed.

Lemma forallb_negb_existsb (c : N) s :
  forallb (fun x => negb (x =? c)) s = negb (occursIn c s).
Proof.
  unfold occursIn. induction s as [|x s IH]; [reflexivity|]. simpl.
  rewrite IH, negb_orb. now rewrite (N.eqb_sym c x).
Qed.

Lemma test_noneOf c s : test (noneOf c) s = negb (occursIn c s).
Proof.
  unfold noneOf. rewrite test_Bol, rmatch_Seq, rmatch_star_chr.
  cbn [after before caps]. rewrite backtrack_Eol.
  rewrite <- forallb_negb_existsb.
  destruct (spanRest _ s) eqn:E.
  - apply spanRest_nil in E. now rewrite E.
  - destruct (forallb _ s) eqn:F; [|reflexivity].
    apply spanRest_nil in F. congruence.
Qed.

(** The issues of a selector, rule by rule. *)
Lemma selectorIssues_exact lineNum selector :
  selectorIssues lineNum selector
  = (if camelCase selector then []
     else [Issue lineNum (str "classNaming") classNaming_message selector])
    ++ (if occursIn 35 selector
        then [Issue lineNum (str "noIds")
                (str "Avoid using ID selectors (#) in CSS modules") selector]
        else [])
    ++ (if occursIn 42 selector
        then [Issue lineNum (str "noUniversal")
                (str "Avoid using universal selector (" ++ str "*) in CSS modules")
                selector]
        else [])
    ++ (if occursIn 33 selector
        then [Issue lineNum (str "noImportant")
                (str "Avoid using !important in CSS modules") selector]
        else []).
Proof.
  unfold selectorIssues, validationRules.
  cbn [flat_map rule_pattern classNaming noIds noUniversal noImportant
       preferRelativeUnits app].
  rewrite test_classNaming, !test_noneOf, !negb_involutive.
  destruct (camelCase selector), (occursIn 35 selector),
    (occursIn 42 selector), (occursIn 33 selector); reflexivity.
Qed.

Lemma forEachLine_In lines : forall index x,
  In x (forEachLine index lines) ->
  exists i ln, nth_error lines i = Some ln
               /\ In x (validateLine (index + i) ln).
Proof.
  induction lines as [|l0 rest IH]; intros index x; cbn [forEachLine];
    [contradiction|].
  rewrite in_app_iff. intros [Hhere|Hlater].
  - exists 0%nat, l0. now rewrite Nat.add_0_r.
  - destruct (IH _ _ Hlater) as (i & ln & Hnth & Hin).
    exists (S i), ln. split; [exact Hnth|].
    now replace (index + S i)%nat with (S index + i)%nat by lia.
Qed.

(** Where an issue of a line comes from. *)
Lemma validateLine_In index ln x :
  In x (validateLine index ln) ->
  examined ln = true
  /\ ((includes (str "{") (trim ln) = true
       /\ In x (selectorIssues (index + 1) (selectorOf (trim ln))))
      \/ In x (validateIssues preferRelativeUnits (str "preferRelativeUnits")
                 (index + 1) (trim ln))).
Proof.
  unfold validateLine, examined.
  destruct (eqs (trim ln) [] || startsWith (str "/*") (trim ln)
            || startsWith (str "//") (trim ln)); [contradiction|].
  split; [reflexivity|].
  apply in_app_iff in H as [Hsel|Hunit]; [left|now right].
  destruct (includes (str "{") (trim ln)); [|contradiction].
  split; [reflexivity|].
  apply in_app_iff in Hsel as [Hsel|[]]. exact Hsel.
Qed.

Lemma validateLine_selector index ln x :
  examined ln = true ->
  includes (str "{") (trim ln) = true ->
  In x (selectorIssues (index + 1) (selectorOf (trim ln))) ->
  In x (validateLine index ln).
Proof.
  unfold validateLine, examined. intros Hex Hbrace Hin.
  apply negb_true_iff in Hex. rewrite Hex, Hbrace.
  apply in_app_iff. left. apply in_app_iff. now left.
Qed.

Lemma validateIssues_rule r ruleName lineNum trimmed x :
  In x (validateIssues r ruleName lineNum trimmed) ->
  rule x = ruleName /\ content x = trimmed.
Proof.
  unfold validateIssues.
  destruct (rule_validate r) as [validate|]; [|contradiction].
  destruct (negb (valid (validate trimmed))); [|contradiction].
  intros [<-|[]]. easy.
Qed.

(** X1: each of the rules [noIds], [noUniversal] and [noImportant] is
    reported for an examined line with a brace exactly when the selector
    of the line holds the character of the rule ([#], [*], [!]), and an
    issue of the rule always carries a selector that holds it. *)
Theorem character_rules_exact css filePath ruleName c msg :
  In (ruleName, c, msg) characterRules ->
  (forall i ln,
     nth_error (split LF css) i = Some ln ->
     examined ln = true ->
     includes (str "{") (trim ln) = true ->
     (In (Issue (i + 1) ruleName msg (selectorOf (trim ln)))
         (validateCSS css filePath)
      <-> occursIn c (selectorOf (trim ln)) = true))
  /\ (forall x, In x (validateCSS css filePath) ->
                rule x = ruleName -> occursIn c (content x) = true).
Proof.
  intros Hrule.
  assert (Honly : forall x, In x (validateCSS css filePath) ->
                    rule x = ruleName -> occursIn c (content x) = true).
  { intros x Hx Hname. unfold validateCSS in Hx.
    apply forEachLine_In in Hx as (i & ln & _ & Hx).
    apply validateLine_In in Hx as [_ [[_ Hsel]|Hunit]].
    - rewrite selectorIssues_exact in Hsel.
      destruct (camelCase _), (occursIn 35 _) eqn:E35,
        (occursIn 42 _) eqn:E42, (occursIn 33 _) eqn:E33;
        cbn [app] in Hsel;
        repeat destruct Hsel as [<-|Hsel]; try contradiction;
        cbn [rule content] in *;
        repeat destruct Hrule as [[= <- <- <-]|Hrule]; try contradiction;
        try discriminate Hname; assumption.
    - apply validateIssues_rule in Hunit as [Hr _]. rewrite Hr in Hname.
      repeat destruct Hrule as [[= <- <- <-]|Hrule]; try contradiction;
        discriminate Hname. }
  split; [|exact Honly].
  intros i ln Hnth Hex Hbrace. split.
  - intros Hin. exact (Honly _ Hin eq_refl).
  - intros Hocc. unfold validateCSS.
    apply (forEachLine_nth _ 0 i ln); [exact Hnth|].
    apply validateLine_selector; [assumption..|].
    rewrite selectorIssues_exact. cbn [Nat.add].
    repeat destruct Hrule as [[= <- <- <-]|Hrule]; try contradiction;
      rewrite Hocc; rewrite !in_app_iff; simpl; tauto.
Qed.

Lemma character_rules_exact_witness :
  In (Issue 1 (str "noIds") (str "Avoid using ID selectors (#) in CSS modules")
        (str "#id"))
     (validateCSS (str "#id { color: blue; }") []).
Proof.
  apply (proj1 (character_rules_exact (str "#id { color: blue; }") []
                  (str "noIds") 35 _ (or_introl eq_refl))
           0%nat (str "#id { color: blue; }") eq_refl eq_refl eq_refl).
  reflexivity.
Defined.

(** X2: the rule [classNaming] is reported for an examined line with a
    brace exactly when its selector is not a lowercase letter followed by
    letters and digits, and an issue of the rule always carries such a
    selector. *)
Theorem classNaming_exact css filePath :
  (forall i ln,
     nth_error (split LF css) i = Some ln ->
     examined ln = true ->
     includes (str "{") (trim ln) = true ->
     (In (Issue (i + 1) (str "classNaming") classNaming_message
                (selectorOf (trim ln)))
         (validateCSS css filePath)
      <-> camelCase (selectorOf (trim ln)) = false))
  /\ (forall x, In x (validateCSS css filePath) ->
                rule x = str "classNaming" -> camelCase (content x) = false).
Proof.
  assert (Honly : forall x, In x (validateCSS css filePath) ->
                    rule x = str "classNaming" ->
                    camelCase (content x) = false).
  { intros x Hx Hname. unfold validateCSS in Hx.
    apply forEachLine_In in Hx as (i & ln & _ & Hx).
    apply validateLine_In in Hx as [_ [[_ Hsel]|Hunit]].
    - rewrite selectorIssues_exact in Hsel.
      destruct (camelCase _) eqn:Ecc, (occursIn 35 _), (occursIn 42 _),
        (occursIn 33 _); cbn [app] in Hsel;
        repeat destruct Hsel as [<-|Hsel]; try contradiction;
        cbn [rule content] in *; try discriminate Hname; assumption.
    - apply validateIssues_rule in Hunit as [Hr _]. rewrite Hr in Hname.
      discriminate Hname. }
  split; [|exact Honly].
  intros i ln Hnth Hex Hbrace. split.
  - intros Hin. exact (Honly _ Hin eq_refl).
  - intros Hcc. unfold validateCSS.
    apply (forEachLine_nth _ 0 i ln); [exact Hnth|].
    apply validateLine_selector; [assumption..|].
    rewrite selectorIssues_exact, Hcc. now left.
Qed.

Lemma classNaming_exact_witness :
  In (Issue 2 (str "classNaming") classNaming_message (str "card:hover"))
     (validateCSS (str "card { color: red; }
card:hover { color: blue; }") []).
Proof.
  apply (proj1 (classNaming_exact (str "card { color: red; }
card:hover { color: blue; }") []) 1%nat (str "card:hover { color: blue; }")
           eq_refl eq_refl eq_refl).
  reflexivity.
Defined.

End ValidatorExtras.

Module ValidatorUnits.
Import JS Validator ValidatorTerms ValidatorExtraTerms RegexTerms RegexFacts
  StringFacts ValidatorFacts ValidatorExtras.

Lemma matchAll_hit r s :
  matchAll r s <> [] ->
  exists m pre rest, rev pre ++ rest = s /\ matchHere r pre rest = Some m.
Proof.
  unfold matchAll. intros Hne.
  destruct (flat_map _ (walk r 0 [] s)) as [|t l] eqn:E; [contradiction|].
  assert (Hin : In t (flat_map (fun p => match p with
                                          | Hit m => [matched m]
                                          | Keep _ => []
                                          end) (walk r 0 [] s)))
    by (rewrite E; now left).
  apply in_flat_map in Hin as ([c|m] & Hwalk & Hm); [contradiction|].
  destruct (walk_hit _ _ _ _ _ Hwalk) as (pre & rest & Heq & Hmatch).
  now exists m, pre, rest.
Qed.

Lemma includes_start p s : startsWith p s = true -> includes p s = true.
Proof. intros Hp. destruct s; simpl in *; now rewrite Hp. Qed.

Lemma forallb_app_l {A} (p : A -> bool) l1 l2 :
  forallb p (l1 ++ l2) = true -> forallb p l1 = true.
Proof. rewrite forallb_app. now intros [? _]%andb_true_iff. Qed.

(** A match of [\b\d+px\b] holds a digit followed by [px]. *)
Lemma px_match pre rest m :
  matchHere px_pattern pre rest = Some m ->
  exists d, isDigit d = true /\ includes [d; 112; 120] rest = true.
Proof.
  unfold matchHere, px_pattern, Plus.
  destruct (rmatch _ Some _) as [e|] eqn:E; [|discriminate]. intros _.
  rewrite rmatch_Seq, rmatch_WordB in E.
  destruct (xorb _ _); [|discriminate].
  rewrite !rmatch_Seq, rmatch_Chr in E. cbn [after before caps] in E.
  destruct rest as [|d rest]; [discriminate|].
  destruct (isDigit d) eqn:Hd; [|discriminate].
  rewrite rmatch_star_chr in E. cbn [after before caps] in E.
  apply backtrack_some in E as (run1 & run2 & Hrun & Hk).
  rewrite rmatch_Seq in Hk. unfold Lit in Hk. rewrite rmatch_litOf in Hk. cbn [after] in Hk.
  destruct (startsWith _ (run2 ++ spanRest isDigit rest)) eqn:Hpx;
    [|discriminate].
  pose proof (spanRun_all isDigit rest) as Hall. rewrite Hrun in Hall.
  assert (Hrun2 : run2 = []).
  { destruct run2 as [|c run2]; [reflexivity|].
    rewrite forallb_app in Hall. apply andb_true_iff in Hall as [_ Hall].
    simpl in Hall. apply andb_true_iff in Hall as [Hc _].
    change (startsWith (List.map N_of_ascii (list_ascii_of_string "px"))
              ((c :: run2) ++ spanRest isDigit rest))
      with ((112 =? c) && startsWith [120] (run2 ++ spanRest isDigit rest))
      in Hpx.
    apply andb_true_iff in Hpx as [Hp _]. apply N.eqb_eq in Hp. subst c.
    discriminate. }
  subst run2. rewrite app_nil_r in Hrun. cbn [app] in Hpx.
  apply forallb_app_l in Hall.
  assert (Hrest : rest = run1 ++ spanRest isDigit rest)
    by (rewrite <- Hrun; apply span_app).
  destruct (exists_last (l := d :: run1)) as (front & d' & Hlast);
    [discriminate|].
  assert (Hd' : isDigit d' = true).
  { assert (Hboth : forallb isDigit (d :: run1) = true)
      by (simpl; now rewrite Hd, Hall).
    rewrite Hlast, forallb_app in Hboth.
    apply andb_true_iff in Hboth as [_ Hboth]. simpl in Hboth.
    now apply andb_true_iff in Hboth as [? _]. }
  exists d'. split; [exact Hd'|].
  rewrite Hrest. change (d :: run1 ++ ?t) with ((d :: run1) ++ t).
  rewrite Hlast, <- app_assoc. apply includes_app_r, includes_start.
  change (List.map N_of_ascii (list_ascii_of_string "px")) with [112; 120]
    in Hpx.
  change (startsWith [d'; 112; 120] ([d'] ++ spanRest isDigit rest))
    with ((d' =? d') && startsWith [112; 120] (spanRest isDigit rest)).
  now rewrite N.eqb_refl, Hpx.
Qed.

(** X3: an issue of the rule [preferRelativeUnits] is only reported for a
    line that holds a digit followed by [px] and on which the pattern of
    the relative units ([rem], [em]) finds nothing; its text is the
    trimmed line. *)
Theorem unit_issue_needs_px css filePath x :
  In x (validateCSS css filePath) ->
  rule x = str "preferRelativeUnits" ->
  (exists d, isDigit d = true /\ includes [d; 112; 120] (content x) = true)
  /\ matchAll remEm_pattern (content x) = []
  /\ exists ln, In ln (split LF css) /\ content x = trim ln.
Proof.
  intros Hx Hname. unfold validateCSS in Hx.
  apply forEachLine_In in Hx as (i & ln & Hnth & Hx).
  apply validateLine_In in Hx as [_ [[_ Hsel]|Hunit]].
  - exfalso. rewrite selectorIssues_exact in Hsel.
    destruct (camelCase _), (occursIn 35 _), (occursIn 42 _), (occursIn 33 _);
      cbn [app] in Hsel;
      repeat destruct Hsel as [<-|Hsel]; try contradiction;
      discriminate Hname.
  - unfold validateIssues in Hunit.
    cbn [rule_validate preferRelativeUnits valid] in Hunit.
    destruct (negb _) eqn:Hvalid in Hunit; [|contradiction].
    destruct Hunit as [<-|[]]. cbn [content].
    apply negb_true_iff, orb_false_iff in Hvalid as [Hrem Hpx].
    split; [|split].
    + destruct (matchAll_hit px_pattern (trim ln))
        as (m & pre & rest & Heq & Hm).
      { intros Hnil. rewrite Hnil in Hpx. discriminate. }
      destruct (px_match _ _ _ Hm) as (d & Hd & Hinc).
      exists d. split; [exact Hd|]. rewrite <- Heq. now apply includes_app_r.
    + destruct (matchAll remEm_pattern (trim ln)); [reflexivity|discriminate].
    + exists ln. split; [|reflexivity]. eapply nth_error_In. eassumption.
Qed.

Lemma unit_issue_needs_px_witness :
  exists d, isDigit d = true
            /\ includes [d; 112; 120] (str "width: 10px;") = true.
Proof.
  refine (proj1 (unit_issue_needs_px (str ".box {
  width: 10px;
}") []
                   (Issue 2 (str "preferRelativeUnits")
                      (str "Found 1 px units. Consider using rem/em for better accessibility")
                      (str "width: 10px;")) _ eq_refl)).
  vm_compute. tauto.
Defined.

(** *** The order of the issues *)

Lemma StronglySorted_app {A} (R : A -> A -> Prop) l1 l2 :
  StronglySorted R l1 -> StronglySorted R l2 ->
  (forall x y, In x l1 -> In y l2 -> R x y) ->
  StronglySorted R (l1 ++ l2).
Proof.
  intros H1 H2 H12. induction H1 as [|a l1 Hs IH Hall]; [exact H2|].
  cbn [app]. constructor.
  - apply IH. intros x y Hx Hy. apply H12; [now right|exact Hy].
  - apply List.Forall_forall. intros y [Hy|Hy]%in_app_iff.
    + rewrite List.Forall_forall in Hall. now apply Hall.
    + apply H12; [now left|exact Hy].
Qed.

Lemma same_line_sorted (l : list ValidationIssue) n :
  (forall x, In x l -> line x = n) ->
  StronglySorted (fun x y => (line x <= line y)%nat) l.
Proof.
  induction l as [|a l IH]; intros Hl; constructor.
  - apply IH. intros x Hx. apply Hl. now right.
  - apply List.Forall_forall. intros y Hy.
    rewrite (Hl a) by now left. rewrite (Hl y) by now right. lia.
Qed.

Lemma forEachLine_bounds lines : forall index x,
  In x (forEachLine index lines) ->
  (index + 1 <= line x <= index + length lines)%nat.
Proof.
  intros index x Hx. apply forEachLine_In in Hx as (i & ln & Hnth & Hx).
  apply validateLine_line in Hx.
  assert (i < length lines)%nat by (apply nth_error_Some; congruence).
  lia.
Qed.

Lemma forEachLine_sorted lines : forall index,
  StronglySorted (fun x y => (line x <= line y)%nat)
                 (forEachLine index lines).
Proof.
  induction lines as [|ln rest IH]; intros index; cbn [forEachLine];
    [constructor|].
  apply StronglySorted_app.
  - apply (same_line_sorted _ (index + 1)%nat).
    intros x. apply validateLine_line.
  - apply IH.
  - intros x y Hx%validateLine_line Hy%forEachLine_bounds. lia.
Qed.

(** X4: the issues of [validateCSS] come in the order of the lines, and
    the line number of each of them is between 1 and the number of lines
    of the content. *)
Theorem issues_in_line_order css filePath :
  StronglySorted (fun x y => (line x <= line y)%nat)
                 (validateCSS css filePath)
  /\ forall x, In x (validateCSS css filePath) ->
               (1 <= line x <= length (split LF css))%nat.
Proof.
  split; [apply forEachLine_sorted|].
  intros x Hx. apply forEachLine_bounds in Hx. lia.
Qed.

(** *** Contents put one after the other *)

Lemma split_app_sep sep a : forall b,
  split sep (a ++ sep :: b) = split sep a ++ split sep b.
Proof.
  induction a as [|c a IH]; intros b.
  - cbn [app split]. now rewrite N.eqb_refl.
  - cbn [app split]. destruct (c =? sep); [now rewrite IH|].
    rewrite IH. destruct (split sep a) as [|p r] eqn:E; [|reflexivity].
    exfalso. revert E. clear. destruct a as [|x a]; simpl; [discriminate|].
    destruct (x =? sep); [discriminate|]. now destruct (split sep a).
Qed.

Lemma selectorIssues_shift n lineNum selector :
  selectorIssues (n + lineNum) selector
  = List.map (shiftLine n) (selectorIssues lineNum selector).
Proof.
  rewrite !selectorIssues_exact.
  destruct (camelCase selector), (occursIn 35 selector),
    (occursIn 42 selector), (occursIn 33 selector); reflexivity.
Qed.

Lemma validateIssues_shift r ruleName n lineNum trimmed :
  validateIssues r ruleName (n + lineNum) trimmed
  = List.map (shiftLine n) (validateIssues r ruleName lineNum trimmed).
Proof.
  unfold validateIssues. destruct (rule_validate r) as [v|]; [|reflexivity].
  now destruct (negb (valid (v trimmed))).
Qed.

Lemma validateLine_shift n index ln :
  validateLine (n + index) ln = List.map (shiftLine n) (validateLine index ln).
Proof.
  unfold validateLine.
  destruct (eqs (trim ln) [] || startsWith (str "/*") (trim ln)
            || startsWith (str "//") (trim ln)); [reflexivity|].
  rewrite <- !Nat.add_assoc, !List.map_app.
  rewrite <- !validateIssues_shift.
  destruct (includes (str "{") (trim ln)); [|reflexivity].
  now rewrite List.map_app, <- selectorIssues_shift, <- validateIssues_shift.
Qed.

Lemma forEachLine_shift n lines : forall index,
  forEachLine (n + index) lines
  = List.map (shiftLine n) (forEachLine index lines).
Proof.
  induction lines as [|ln rest IH]; intros index; [reflexivity|].
  cbn [forEachLine]. rewrite List.map_app, <- validateLine_shift.
  f_equal. rewrite <- IH. f_equal. lia.
Qed.

Lemma forEachLine_app l1 l2 : forall index,
  forEachLine index (l1 ++ l2)
  = forEachLine index l1 ++ forEachLine (length l1 + index) l2.
Proof.
  induction l1 as [|ln l1 IH]; intros index; [reflexivity|].
  cbn [app forEachLine length]. rewrite IH, <- app_assoc.
  do 3 f_equal. lia.
Qed.

(** X5: the issues of two contents put one after the other, with a line
    feed in between, are the issues of the first followed by the issues
    of the second, moved down by the number of lines of the first. *)
Theorem validateCSS_append first second filePath :
  validateCSS (first ++ LF :: second) filePath
  = validateCSS first filePath
    ++ List.map (shiftLine (length (split LF first)))
                (validateCSS second filePath).
Proof.
  unfold validateCSS. rewrite split_app_sep, forEachLine_app.
  now rewrite forEachLine_shift.
Qed.

End ValidatorUnits.

(** ** The directory scan and the command line of the validator *)

Module ValidatorCLIFacts.
Import JS Validator ValidatorTerms CommandLine ValidatorCLI ValidatorCLITerms.

Lemma pathOf_cons dir f names :
  pathOf dir (f :: names) = pathOf (Scaffolder.pathJoin dir f) names.
Proof. reflexivity. Qed.

Lemma last_cons {A} (names : list A) : forall f d,
  List.last (f :: names) d = List.last names f.
Proof.
  induction names as [|a names IH]; intros f d; [reflexivity|].
  change (List.last (f :: a :: names) d) with (List.last (a :: names) d).
  now rewrite !IH.
Qed.

(** What a visit finds, and when it fails. *)
Lemma visit_exact n : forall filePath file,
  match visit filePath file n with
  | inr found =>
      forall p, In p found <->
        exists names,
          reaches n names FileNode
          /\ endsWith (str ".module.css") (List.last names file) = true
          /\ p = pathOf filePath names
  | inl _ => exists names msg, reaches n names (Denied msg)
  end.
Proof.
  induction n as [|entries IH|msg] using Node_induction; intros filePath file.
  - cbn [visit]. intros p. split.
    + destruct (endsWith _ file) eqn:E; [|contradiction].
      intros [<-|[]]. exists []. repeat split; [constructor|exact E].
    + intros (names & Hreach & Hend & ->). inversion Hreach; subst.
      cbn [List.last] in Hend. rewrite Hend. now left.
  - cbn [visit]. induction IH as [|[f child] rest Hchild _ IHrest].
    + intros p. split; [contradiction|].
      intros (names & Hreach & _). inversion Hreach; subst. contradiction.
    + cbn [snd] in Hchild.
      specialize (Hchild (Scaffolder.pathJoin filePath f) f).
      destruct (visit (Scaffolder.pathJoin filePath f) f child)
        as [err|found].
      * destruct Hchild as (names & msg & Hreach).
        exists (f :: names), msg. econstructor; [now left|exact Hreach].
      * match goal with
        | |- match (match ?t with inl e => _ | inr m => _ end) with _ => _ end =>
            destruct t as [err|more]
        end.
        -- destruct IHrest as (names & msg & Hreach).
           inversion Hreach; subst.
           exists (f0 :: names0), msg. econstructor; [right; eassumption|eassumption].
        -- intros p. rewrite in_app_iff, Hchild, IHrest. split.
           ++ intros [(names & Hreach & Hend & ->)|(names & Hreach & Hend & ->)].
              ** exists (f :: names). split; [|split].
                 --- econstructor; [now left|exact Hreach].
                 --- now rewrite last_cons.
                 --- reflexivity.
              ** inversion Hreach; subst.
                 exists (f0 :: names0). split; [|split].
                 --- econstructor; [right; eassumption|eassumption].
                 --- exact Hend.
                 --- reflexivity.
           ++ intros (names & Hreach & Hend & ->).
              inversion Hreach as [|? f' child' names' ? Hin Hsub]; subst.
              destruct Hin as [[= -> ->]|Hin].
              ** left. exists names'. split; [|split].
                 --- exact Hsub.
                 --- now rewrite last_cons in Hend.
                 --- reflexivity.
              ** right. exists (f' :: names'). split; [|split].
                 --- econstructor; eassumption.
                 --- exact Hend.
                 --- reflexivity.
  - cbn [visit]. exists [], msg. constructor.
Qed.

(** An entry that cannot be examined ends the visit. *)
Lemma visit_denied n names msg :
  reaches n names (Denied msg) ->
  forall filePath file, exists err, visit filePath file n = inl err.
Proof.
  intros Hreach. remember (Denied msg) as target eqn:Et.
  induction Hreach as [n|entries f child names target Hin Hreach IH];
    intros filePath file.
  - subst n. cbn [visit]. eauto.
  - specialize (IH Et). cbn [visit]. induction entries as [|[g other] rest IHrest];
      [contradiction|].
    destruct Hin as [[= -> ->]|Hin].
    + destruct (IH (Scaffolder.pathJoin filePath f) f) as [err ->]. eauto.
    + destruct (visit (Scaffolder.pathJoin filePath g) g other); [eauto|].
      destruct (IHrest Hin) as [err ->]. eauto.
Qed.

(** X6: [findCSSModules] throws exactly when what it is given is no
    directory or an entry under it cannot be examined; when it returns,
    the paths it returns are exactly the paths of the regular files under
    the directory whose name ends with [.module.css], each path being the
    directory joined with the names on the way, one [path.join] after
    the other. *)
Theorem findCSSModules_exact dir root :
  ((exists err, findCSSModules dir root = inl err)
   <-> (isDirectory root = false
        \/ exists names msg, reaches root names (Denied msg)))
  /\ forall modules,
       findCSSModules dir root = inr modules ->
       forall p, In p modules <->
         exists names,
           reaches root names FileNode
           /\ endsWith (str ".module.css") (List.last names []) = true
           /\ p = pathOf dir names.
Proof.
  split.
  - split.
    + intros [err Herr]. destruct root as [|entries|msg]; [now left| |now left].
      right. unfold findCSSModules in Herr.
      pose proof (visit_exact (DirNode entries) dir []) as Hv.
      rewrite Herr in Hv. exact Hv.
    + intros [Hdir|(names & msg & Hreach)].
      * destruct root; [eexists; reflexivity|discriminate|eexists; reflexivity].
      * destruct root as [|entries|msg'];
          [eexists; reflexivity| |eexists; reflexivity].
        unfold findCSSModules. now apply (visit_denied _ names msg).
  - intros modules Hrun. destruct root as [|entries|msg]; try discriminate.
    unfold findCSSModules in Hrun.
    pose proof (visit_exact (DirNode entries) dir []) as Hv.
    rewrite Hrun in Hv. exact Hv.
Qed.

(** On the small tree the scan finds the one module; the path is
    normalized by [path.join]. *)
Example findCSSModules_sampleTree :
  findCSSModules (str "src") sampleTree
  = inr [str "src/Button/Button.module.css"]
  /\ findCSSModules (str "./src/") sampleTree
     = inr [str "src/Button/Button.module.css"]
  /\ findCSSModules (str "/") sampleTree
     = inr [str "/Button/Button.module.css"].
Proof. repeat split; vm_compute; reflexivity. Qed.

(** A tree with an entry that cannot be examined. *)
Example findCSSModules_denied :
  findCSSModules (str "src")
    (DirNode [ (str "a.module.css", FileNode);
               (str "private", Denied (str "EACCES: permission denied"));
               (str "b.module.css", FileNode) ])
  = inl (str "EACCES: permission denied").
Proof. reflexivity. Qed.

Lemma dirLoop_total env modules :
  snd (dirLoop env modules)
  = list_sum (List.map (fun m => length (validateFile (readFileSync env) m))
                       modules).
Proof.
  induction modules as [|m rest IH]; [reflexivity|].
  cbn [dirLoop List.map list_sum]. unfold dirModule at 1.
  destruct (dirLoop env rest) as [printed total]. cbn [snd] in *.
  now rewrite IH.
Qed.

Lemma list_sum_positive env modules :
  (0 <? list_sum (List.map (fun m => length (validateFile (readFileSync env) m))
                           modules))%nat
  = existsb (hasIssues env) modules.
Proof.
  induction modules as [|m rest IH]; [reflexivity|].
  cbn [List.map list_sum existsb]. rewrite <- IH. unfold hasIssues.
  destruct (length (validateFile (readFileSync env) m)); [reflexivity|].
  reflexivity.
Qed.

(** X7: the [file] command ends with code 1 when the file has issues or
    cannot be read, and with code 0 otherwise; the [dir] command ends
    with code 1 when one of the modules found has issues or cannot be
    read, with code 0 when none has, and with an exception when the scan
    throws. *)
Theorem validator_exit_codes env :
  (forall filePath more,
     filePath <> [] ->
     outcome (main env (str "file" :: filePath :: more))
     = Exited (if hasIssues env filePath then 1 else 0))
  /\ (forall filePath more msg,
        filePath <> [] ->
        readFileSync env filePath = ReadError msg ->
        outcome (main env (str "file" :: filePath :: more)) = Exited 1)
  /\ (forall rest,
        let dir := orDefault (argAt rest 0) (str "components") in
        outcome (main env (str "dir" :: rest))
        = match findCSSModules dir (nodeAt env dir) with
          | inr modules =>
              Exited (if existsb (hasIssues env) modules then 1 else 0)
          | inl err => Uncaught err
          end).
Proof.
  assert (Hfile : forall filePath more,
            filePath <> [] ->
            outcome (main env (str "file" :: filePath :: more))
            = Exited (if hasIssues env filePath then 1 else 0)).
  { intros filePath more Hne.
    change (main env (str "file" :: filePath :: more))
      with (mainFile env (str "file" :: filePath :: more)).
    unfold mainFile, hasIssues. cbn [argAt nth_error missing default from_option].
    destruct filePath as [|c filePath]; [contradiction|]. cbn [eqs].
    now destruct (Nat.eqb _ 0). }
  split; [exact Hfile|split].
  - intros filePath more msg Hne Hread. rewrite (Hfile _ _ Hne).
    unfold hasIssues, validateFile. now rewrite Hread.
  - intros rest dir.
    change (main env (str "dir" :: rest)) with (mainDir env (str "dir" :: rest)).
    unfold mainDir. change (argAt (str "dir" :: rest) 1) with (argAt rest 0).
    fold dir. destruct (findCSSModules dir (nodeAt env dir)) as [err|modules];
      [reflexivity|].
    pose proof (dirLoop_total env modules) as Htotal.
    destruct (dirLoop env modules) as [printed total]. cbn [snd] in Htotal.
    cbn [outcome]. rewrite Htotal, list_sum_positive.
    now destruct (existsb _ modules).
Qed.

Lemma validator_exit_codes_witness :
  outcome (main {| readFileSync := unreadable; nodeAt := fun _ => FileNode |}
             [str "file"; str "missing.module.css"])
  = Exited 1.
Proof.
  exact (proj1 (proj2 (validator_exit_codes
                         {| readFileSync := unreadable;
                            nodeAt := fun _ => FileNode |}))
           (str "missing.module.css") [] _ ltac:(discriminate) eq_refl).
Defined.

End ValidatorCLIFacts.

(** ** More on the component scaffolder *)

Module ScaffolderExtras.
Import JS Scaffolder ScaffolderTerms ScaffolderExtraTerms StringFacts
  ScaffolderFacts PathFacts ScaffolderRun ScaffolderReturns.

Lemma existsSync_value p w b w' :
  existsSync p w = (inr b, w') ->
  w' = w
  /\ b = (bool_decide (p ∈ dirs w) || bool_decide (is_Some (files w !! p))).
Proof. unfold existsSync. now intros [= <- <-]. Qed.

Lemma consoleLog_inr_full ln w u w' :
  consoleLog ln w = (inr u, w') ->
  files w' = files w /\ dirs w' = dirs w /\ refuses w' = refuses w.
Proof. unfold consoleLog. now intros [= _ <-]. Qed.

(** What a run of [createComponent] that returns has done, in full. *)
Lemma createComponent_inr_full cwd x opts w w' :
  pathSegment x = true ->
  createComponent cwd x opts w = (inr tt, w') ->
  let dir := componentDirOf cwd x in
  let ty := default (str "simple") (type opts) in
  exists t c,
    orElse (getProperty templatesObject ty) (VString templates.simple)
    = VString t
    /\ (default true (styled opts) = true ->
        orElse (getProperty cssTemplatesObject ty)
               (VString cssTemplates.simple) = VString c)
    /\ files w' = finalFiles cwd x opts t c (files w)
    /\ dir ∈ dirs w'
    /\ (forall p, In p (writtenFiles cwd x opts) -> p ∉ dirs w')
    /\ (dir ∈ dirs w -> dirs w' = dirs w)
    /\ dirs w ⊆ dirs w'
    /\ writableAt dir (writtenFiles cwd x opts) w'.
Proof.
  intros Hx Hrun dir ty. unfold createComponent in Hrun. cbv zeta in Hrun.
  fold dir ty in Hrun.
  assert (Hpath : forall f, In f (componentFiles x) ->
            parentDir (pathJoin dir f) = dir
            /\ ~ In (pathJoin dir f) (ancestors [] dir))
    by (intros f Hf; now apply component_path).
  apply bind_inr in Hrun as (present & w1 & Hex & Hrun).
  apply existsSync_value in Hex as [-> Hpresent].
  apply bind_inr in Hrun as (u1 & w2 & Hmk & Hrun).
  assert (Hw2 : files w2 = files w /\ dirs w ⊆ dirs w2
                /\ (dir ∈ dirs w -> dirs w2 = dirs w)
                /\ refuses w2 = refuses w).
  { destruct (negb present) eqn:Hp.
    - apply mkdirSync_spec in Hmk as (Hf & Hr & _ & Hsub & _).
      split; [exact Hf|split; [exact Hsub|split; [|exact Hr]]].
      intros Hin. rewrite (bool_decide_eq_true_2 _ Hin) in Hpresent.
      subst present. discriminate.
    - apply ret_inr in Hmk as [_ ->]. easy. }
  destruct Hw2 as (Hf2 & Hsub & Hsame & Hr2). clear Hmk Hpresent.
  apply bind_inr in Hrun as (t & w3 & Ht & Hrun).
  apply asTemplate_inr in Ht as [Ht ->].
  apply bind_inr in Hrun as (u2 & w4 & Hw4 & Hrun).
  apply writeFileSync_spec in Hw4
    as (Hn4 & Ha4 & Hd4 & Hq4 & Hf4 & Hdirs4 & Hr4 & _).
  rewrite (proj1 (Hpath _ (componentFiles_tsx x))) in Hd4, Ha4.
  apply bind_inr in Hrun as (u3 & w5 & Hcss & Hrun).
  apply bind_inr in Hrun as (u4 & w6 & Hw6 & Hrun).
  apply writeFileSync_spec in Hw6
    as (Hn6 & _ & _ & Hq6 & Hf6 & Hdirs6 & Hr6 & _).
  apply bind_inr in Hrun as (u5 & w7 & Hw7 & Hrun).
  apply writeFileSync_spec in Hw7
    as (Hn7 & _ & _ & Hq7 & Hf7 & Hdirs7 & Hr7 & _).
  assert (files w' = files w7 /\ dirs w' = dirs w7 /\ refuses w' = refuses w7)
    as (Hflog & Hdlog & Hrlog).
  { apply bind_inr in Hrun as (? & v1 & (F1 & D1 & R1)%consoleLog_inr_full & Hrun).
    apply bind_inr in Hrun as (? & v2 & (F2 & D2 & R2)%consoleLog_inr_full & Hrun).
    apply bind_inr in Hrun as (? & v3 & (F3 & D3 & R3)%consoleLog_inr_full & Hrun).
    apply bind_inr in Hrun as (? & v4 & (F4 & D4 & R4)%consoleLog_inr_full & Hrun).
    apply bind_inr in Hrun as (? & v5 & H5 & Hrun).
    apply bind_inr in Hrun as (? & v6 & (F6 & D6 & R6)%consoleLog_inr_full & Hrun).
    apply consoleLog_inr_full in Hrun as (F7 & D7 & R7).
    assert (files v5 = files v4 /\ dirs v5 = dirs v4
            /\ refuses v5 = refuses v4) as (F5 & D5 & R5).
    { destruct (default true (styled opts));
        [now apply consoleLog_inr_full in H5|].
      now apply ret_inr in H5 as [_ ->]. }
    repeat split; congruence. }
  assert (Hkeep : forall (m : gmap jsstring jsstring) f data a,
            In f (componentFiles x) -> In a (ancestors [] dir) ->
            m !! a = None -> <[pathJoin dir f := data]> m !! a = None).
  { intros m f data a Hf Ha Hm. rewrite lookup_insert_ne; [exact Hm|].
    intros <-. now apply (proj2 (Hpath f Hf)). }
  unfold finalFiles, writtenFiles. fold dir.
  destruct (default true (styled opts)).
  - destruct (truthy _) eqn:Htruthy in Hcss;
      [|rewrite css_truthy in Htruthy; discriminate].
    apply bind_inr in Hcss as (c & w4' & Hc & Hcss).
    apply asTemplate_inr in Hc as [Hc ->].
    apply writeFileSync_spec in Hcss
      as (Hn5 & _ & _ & Hq5 & Hf5 & Hdirs5 & Hr5 & _).
    assert (Hnot : forall p,
              In p ([pathJoin dir (componentFileName x)]
                    ++ [pathJoin dir (cssFileName x)]
                    ++ [pathJoin dir indexFileName;
                        pathJoin dir (testFileName x)]) ->
              (p ∉ dirs w') /\ refuses w' p = None
              /\ parentDir p = dir /\ ~ In p (ancestors [] dir)).
    { intros p Hp. rewrite Hdlog, Hdirs7, Hdirs6, Hdirs5, Hdirs4.
      rewrite Hrlog, Hr7, Hr6, Hr5, Hr4.
      cbn [app] in Hp. repeat destruct Hp as [<-|Hp]; try contradiction.
      - split; [congruence|]. split; [exact Hq4|]. now apply Hpath.
      - split; [congruence|]. split; [congruence|]. now apply Hpath.
      - split; [congruence|]. split; [congruence|]. now apply Hpath.
      - split; [congruence|]. split; [congruence|]. now apply Hpath. }
    exists t, c. split; [exact Ht|]. split; [intros _; exact Hc|].
    split; [now rewrite Hflog, Hf7, Hf6, Hf5, Hf4, Hf2|].
    split; [congruence|].
    split; [intros p Hp; now apply Hnot|].
    split; [intros Hin; rewrite <- (Hsame Hin); congruence|].
    split; [intros p Hp; rewrite Hdlog, Hdirs7, Hdirs6, Hdirs5, Hdirs4;
            now apply Hsub|].
    split; [congruence|]. split; [|exact Hnot].
    intros a Ha. rewrite Hflog, Hf7, Hf6, Hf5, Hf4.
    repeat (apply Hkeep; [auto|exact Ha|]). now apply Ha4.
  - apply ret_inr in Hcss as [_ ->].
    assert (Hnot : forall p,
              In p ([pathJoin dir (componentFileName x)]
                    ++ []
                    ++ [pathJoin dir indexFileName;
                        pathJoin dir (testFileName x)]) ->
              (p ∉ dirs w') /\ refuses w' p = None
              /\ parentDir p = dir /\ ~ In p (ancestors [] dir)).
    { intros p Hp. rewrite Hdlog, Hdirs7, Hdirs6, Hdirs4.
      rewrite Hrlog, Hr7, Hr6, Hr4.
      cbn [app] in Hp. repeat destruct Hp as [<-|Hp]; try contradiction.
      - split; [congruence|]. split; [exact Hq4|]. now apply Hpath.
      - split; [congruence|]. split; [congruence|]. now apply Hpath.
      - split; [congruence|]. split; [congruence|]. now apply Hpath. }
    exists t, []. split; [exact Ht|]. split; [discriminate|].
    split; [now rewrite Hflog, Hf7, Hf6, Hf4, Hf2|].
    split; [congruence|].
    split; [intros p Hp; now apply Hnot|].
    split; [intros Hin; rewrite <- (Hsame Hin); congruence|].
    split; [intros p Hp; rewrite Hdlog, Hdirs7, Hdirs6, Hdirs4;
            now apply Hsub|].
    split; [congruence|]. split; [|exact Hnot].
    intros a Ha. rewrite Hflog, Hf7, Hf6, Hf4. unfold id.
    repeat (apply Hkeep; [auto|exact Ha|]). now apply Ha4.
Qed.

Lemma finalFiles_again cwd x opts t c m :
  finalFiles cwd x opts t c (finalFiles cwd x opts t c m)
  = finalFiles cwd x opts t c m.
Proof.
  apply map_eq. intros p. unfold finalFiles.
  set (dir := componentDirOf cwd x).
  destruct (decide (p = pathJoin dir (testFileName x))) as [->|Htest];
    [now rewrite !lookup_insert_eq|].
  rewrite (lookup_insert_ne _ _ _ _ (not_eq_sym Htest)).
  rewrite (lookup_insert_ne _ (pathJoin dir (testFileName x)) p)
    by now apply not_eq_sym.
  destruct (decide (p = pathJoin dir indexFileName)) as [->|Hindex];
    [now rewrite !lookup_insert_eq|].
  rewrite !(lookup_insert_ne _ (pathJoin dir indexFileName) p)
    by now apply not_eq_sym.
  destruct (default true (styled opts)); unfold id.
  - destruct (decide (p = pathJoin dir (cssFileName x))) as [->|Hcss];
      [now rewrite !lookup_insert_eq|].
    rewrite !(lookup_insert_ne _ (pathJoin dir (cssFileName x)) p)
      by now apply not_eq_sym.
    destruct (decide (p = pathJoin dir (componentFileName x))) as [->|Htsx];
      [now rewrite !lookup_insert_eq|].
    rewrite (lookup_insert_ne _ (pathJoin dir (componentFileName x)) p)
      by now apply not_eq_sym.
    rewrite (lookup_insert_ne _ (pathJoin dir (testFileName x)) p)
      by now apply not_eq_sym.
    rewrite (lookup_insert_ne _ (pathJoin dir indexFileName) p)
      by now apply not_eq_sym.
    rewrite (lookup_insert_ne _ (pathJoin dir (cssFileName x)) p)
      by now apply not_eq_sym.
    now rewrite (lookup_insert_ne _ (pathJoin dir (componentFileName x)) p)
      by now apply not_eq_sym.
  - destruct (decide (p = pathJoin dir (componentFileName x))) as [->|Htsx];
      [now rewrite !lookup_insert_eq|].
    rewrite (lookup_insert_ne _ (pathJoin dir (componentFileName x)) p)
      by now apply not_eq_sym.
    rewrite (lookup_insert_ne _ (pathJoin dir (testFileName x)) p)
      by now apply not_eq_sym.
    rewrite (lookup_insert_ne _ (pathJoin dir indexFileName) p)
      by now apply not_eq_sym.
    now rewrite (lookup_insert_ne _ (pathJoin dir (componentFileName x)) p)
      by now apply not_eq_sym.
Qed.

(** X8: generating is idempotent.  After a run of [createComponent] that
    returned, for an identifier, the same call returns again and leaves
    the files and the directories as the first run left them. *)
Theorem createComponent_idempotent cwd x opts w w1 :
  identifier x = true ->
  createComponent cwd x opts w = (inr tt, w1) ->
  exists w2,
    createComponent cwd x opts w1 = (inr tt, w2)
    /\ files w2 = files w1
    /\ dirs w2 = dirs w1.
Proof.
  intros Hid%identifier_pathSegment Hrun.
  destruct (createComponent_inr_full _ _ _ _ _ Hid Hrun)
    as (t & c & Ht & Hc & Hfiles & _ & _ & _ & _ & Hwritable).
  destruct (createComponent_again cwd x opts t c w1 Ht Hc Hwritable)
    as (w2 & Hrun2 & Hdirs2).
  exists w2. split; [exact Hrun2|split; [|exact Hdirs2]].
  destruct (createComponent_inr_full _ _ _ _ _ Hid Hrun2)
    as (t' & c' & Ht' & Hc' & Hfiles2 & _).
  rewrite Ht in Ht'. injection Ht' as <-.
  rewrite Hfiles2, Hfiles.
  destruct (default true (styled opts)) eqn:Hs.
  - pose proof (Hc eq_refl) as E. rewrite (Hc' eq_refl) in E.
    injection E as ->. apply finalFiles_again.
  - unfold finalFiles at 1 2 3. rewrite Hs.
    pose proof (finalFiles_again cwd x opts t c (files w)) as Hagain.
    unfold finalFiles in Hagain. rewrite Hs in Hagain. exact Hagain.
Qed.

Lemma createComponent_idempotent_witness :
  exists w2,
    createComponent (str "/app") (str "Button") unstyledOptions
      (snd (createComponent (str "/app") (str "Button") unstyledOptions
              freshWorld))
    = (inr tt, w2)
    /\ files w2
       = files (snd (createComponent (str "/app") (str "Button")
                       unstyledOptions freshWorld)).
Proof.
  assert (Hrun : createComponent (str "/app") (str "Button") unstyledOptions
                   freshWorld
                 = (inr tt, snd (createComponent (str "/app") (str "Button")
                                   unstyledOptions freshWorld)))
    by (vm_compute; reflexivity).
  destruct (createComponent_idempotent (str "/app") (str "Button")
              unstyledOptions freshWorld _ eq_refl Hrun)
    as (w2 & Hrun2 & Hfiles & _).
  exists w2. split; [exact Hrun2|exact Hfiles].
Defined.

End ScaffolderExtras.

Module ScaffolderFrame.
Import JS Scaffolder ScaffolderTerms ScaffolderExtraTerms StringFacts
  TextFacts ScaffolderFacts ScaffolderRun ScaffolderReturns ScaffolderExtras.

(** *** What a run never touches *)

Lemma keeps_ret {A} paths (a : A) : keeps paths (ret a).
Proof. intros w r w' [= _ <-]. reflexivity. Qed.

Lemma keeps_throw {A} paths e : keeps paths (throw (A := A) e).
Proof. intros w r w' [= _ <-]. reflexivity. Qed.

Lemma keeps_bind {A B} paths (m : M A) (f : A -> M B) :
  keeps paths m -> (forall a, keeps paths (f a)) -> keeps paths (m ≫= f).
Proof.
  intros Hm Hf w r w'. unfold mbind, M_bind, bind.
  destruct (m w) as [[e|a] w1] eqn:E.
  - intros [= _ <-]. eapply Hm. eassumption.
  - intros Hrun p Hp. rewrite (Hf a _ _ _ Hrun p Hp). eapply Hm; eassumption.
Qed.

Lemma keeps_existsSync paths p : keeps paths (existsSync p).
Proof. intros w r w' [= _ <-]. reflexivity. Qed.

Lemma keeps_mkdirSync paths p : keeps paths (mkdirSync p).
Proof.
  intros w r w' (Hfiles & _)%mkdirSync_spec q _. now rewrite Hfiles.
Qed.

Lemma keeps_consoleLog paths ln : keeps paths (consoleLog ln).
Proof. intros w r w' [= _ <-]. reflexivity. Qed.

Lemma keeps_asTemplate paths v : keeps paths (asTemplate v).
Proof. destruct v; [apply keeps_ret|apply keeps_throw..]. Qed.

Lemma keeps_writeFileSync paths p data :
  In p paths -> keeps paths (writeFileSync p data).
Proof.
  intros Hin w r w'. unfold writeFileSync.
  destruct (bool_decide _); [now intros [= _ <-]|].
  destruct (existsb _ _); [now intros [= _ <-]|].
  destruct (negb _); [now intros [= _ <-]|].
  destruct (refuses w p); [now intros [= _ <-]|].
  intros [= _ <-] q Hq. cbn [files]. apply lookup_insert_ne.
  intros ->. contradiction.
Qed.

Lemma createComponent_keeps cwd x opts :
  keeps (writtenFiles cwd x opts) (createComponent cwd x opts).
Proof.
  unfold createComponent, writtenFiles. cbv zeta.
  set (dir := componentDirOf cwd x).
  apply keeps_bind; [apply keeps_existsSync|intros present].
  apply keeps_bind;
    [destruct (negb present); [apply keeps_mkdirSync|apply keeps_ret]|].
  intros _. apply keeps_bind; [apply keeps_asTemplate|intros templateText].
  apply keeps_bind;
    [apply keeps_writeFileSync; rewrite !in_app_iff; cbn [In]; tauto
    |intros _].
  apply keeps_bind.
  { destruct (default true (styled opts)); [|apply keeps_ret].
    destruct (truthy _); [|apply keeps_ret].
    apply keeps_bind; [apply keeps_asTemplate|intros cssText].
    apply keeps_writeFileSync. rewrite !in_app_iff. cbn [In]. tauto. }
  intros _.
  apply keeps_bind;
    [apply keeps_writeFileSync; rewrite !in_app_iff; cbn [In]; tauto
    |intros _].
  apply keeps_bind;
    [apply keeps_writeFileSync; rewrite !in_app_iff; cbn [In]; tauto
    |intros _].
  repeat (apply keeps_bind;
          [first [ apply keeps_consoleLog
                 | destruct (default true (styled opts));
                   [apply keeps_consoleLog|apply keeps_ret] ]
          |intros _]).
  apply keeps_consoleLog.
Qed.

(** X9: whether it returns or throws, [createComponent] leaves every
    file other than the files it is to write as it is: the component
    file, the barrel file, the test file and, unless the component is not
    to be styled, the style sheet, at the paths that [path.join] gives.
    The name is a well-formed text, which the file system takes as it
    is. *)
Theorem createComponent_frame cwd x opts w r w' :
  wellFormed x = true ->
  createComponent cwd x opts w = (r, w') ->
  forall p, ~ In p (writtenFiles cwd x opts) -> files w' !! p = files w !! p.
Proof. intros _. apply createComponent_keeps. Qed.

Lemma createComponent_frame_witness :
  files (snd (createComponent (str "/app") (str "Button") unstyledOptions
                freshWorld)) !! str "/app/package.json"
  = files freshWorld !! str "/app/package.json".
Proof.
  set (run := createComponent _ _ _ _).
  apply (createComponent_frame (str "/app") (str "Button") unstyledOptions
           freshWorld (fst run) (snd run)).
  - reflexivity.
  - apply surjective_pairing.
  - intros Hin. vm_compute in Hin. intuition discriminate.
Defined.

(** *** Template types that are not in the tables *)

Lemma unknown_getProperty ty :
  unknownType ty = true ->
  getProperty templatesObject ty = VUndefined
  /\ getProperty cssTemplatesObject ty = VUndefined.
Proof.
  unfold unknownType. intros [Hown Hproto]%andb_true_iff.
  apply negb_true_iff in Hown, Hproto.
  unfold supportedTypes in Hown. cbn [List.map existsb] in Hown.
  repeat (apply orb_false_iff in Hown as [?E Hown]).
  unfold getProperty, templatesObject, cssTemplatesObject.
  cbn [List.find fst].
  rewrite !(eqs_sym _ ty), E, E0, E1, E2, Hproto. easy.
Qed.

Lemma simple_getProperty :
  getProperty templatesObject (str "simple") = VString templates.simple
  /\ getProperty cssTemplatesObject (str "simple")
     = VString cssTemplates.simple.
Proof. split; vm_compute; reflexivity. Qed.

Lemma unknown_type_run cwd x ty s t w :
  unknownType ty = true ->
  createComponent cwd x {| type := Some ty; styled := s; typed := t |} w
  = createComponent cwd x {| type := None; styled := s; typed := t |} w.
Proof.
  intros Hty. destruct (unknown_getProperty ty Hty) as [H1 H2].
  pose proof simple_getProperty as [S1 S2].
  unfold createComponent. cbv zeta.
  cbn [type styled typed].
  change (default (str "simple") (Some ty)) with ty.
  change (default (str "simple") None) with (str "simple").
  rewrite H1, H2, S1, S2. reflexivity.
Qed.

(** X10: a template type that is neither one of the four types nor a
    member of [Object.prototype] does what no type does: the run is the
    run of the type [simple]. *)
Theorem unknown_type_is_simple cwd x ty s t w :
  unknownType ty = true ->
  createComponent cwd x {| type := Some ty; styled := s; typed := t |} w
  = createComponent cwd x {| type := None; styled := s; typed := t |} w.
Proof. apply unknown_type_run. Qed.

Lemma unknown_type_is_simple_witness :
  createComponent (str "/app") (str "Card")
    {| type := Some (str "widget"); styled := None; typed := None |} freshWorld
  = createComponent (str "/app") (str "Card")
      {| type := None; styled := None; typed := None |} freshWorld.
Proof.
  exact (unknown_type_is_simple (str "/app") (str "Card") (str "widget")
           None None freshWorld eq_refl).
Defined.

(** X11: with a template type that is a member of [Object.prototype]
    ([constructor], [toString], ...), [createComponent] always throws and
    writes no file; the directory of the component, when it had to be
    made, stays behind. *)
Theorem prototype_type_throws cwd x ty s t w :
  existsb (eqs ty) objectPrototypeKeys = true ->
  exists e w',
    createComponent cwd x {| type := Some ty; styled := s; typed := t |} w
    = (inl e, w')
    /\ files w' = files w
    /\ stdout w' = stdout w
    /\ dirs w ⊆ dirs w'
    /\ (e = TypeError (str "template.replace is not a function")
        -> componentDirOf cwd x ∈ dirs w'
           \/ is_Some (files w !! componentDirOf cwd x)).
Proof.
  intros Hty.
  destruct (prototype_run cwd x {| type := Some ty; styled := s; typed := t |}
              w Hty) as (e & w' & Hrun & Hfiles & Hout & Hsub & Hdir & _).
  now exists e, w'.
Qed.

Lemma prototype_type_throws_witness :
  exists e w',
    createComponent (str "/app") (str "Card")
      {| type := Some (str "constructor"); styled := None; typed := None |}
      freshWorld
    = (inl e, w')
    /\ files w' = files freshWorld.
Proof.
  destruct (prototype_type_throws (str "/app") (str "Card")
              (str "constructor") None None freshWorld eq_refl)
    as (e & w' & Hrun & Hfiles & _).
  exists e, w'. split; [exact Hrun|exact Hfiles].
Defined.

End ScaffolderFrame.

Module ScaffolderOutput.
Import JS Validator Scaffolder CommandLine ValidatorTerms ScaffolderTerms
  ScaffolderExtraTerms ScaffolderOutputTerms StringFacts TextFacts PathFacts
  ScaffolderFacts
  ScaffolderRun ScaffolderReturns ScaffolderExtras.

(** *** What stands around a placeholder *)

Lemma join_first v h r : exists post, join v (h :: r) = h ++ post.
Proof.
  destruct r as [|h' r]; [exists []; simpl; now rewrite app_nil_r|].
  now exists (v ++ join v (h' :: r)).
Qed.

Lemma join_last v l : l <> [] -> exists pre, join v l = pre ++ List.last l [].
Proof.
  induction l as [|h l IH]; [contradiction|]. intros _.
  destruct l as [|h' l]; [now exists []|].
  destruct IH as [pre Hpre]; [discriminate|].
  change (join v (h :: h' :: l)) with (h ++ v ++ join v (h' :: l)).
  change (List.last (h :: h' :: l) []) with (List.last (h' :: l) []).
  rewrite Hpre. exists (h ++ v ++ pre). now rewrite <- !app_assoc.
Qed.

Lemma adjacent_includes before after x v chunks :
  adjacent before after chunks = true ->
  includes (before ++ x ++ after) (join x (List.map (join v) chunks)) = true.
Proof.
  induction chunks as [|c1 rest IH]; [discriminate|].
  cbn [adjacent]. intros [Hhere|Hlater]%orb_true_iff.
  - destruct c1 as [|p1 c1]; [discriminate|].
    destruct rest as [|[|h c2] rest]; try discriminate.
    apply andb_true_iff in Hhere as [[pre Hpre]%endsWith_split
                                       [z Hz]%startsWith_split].
    destruct (join_last v (p1 :: c1)) as [pre' Hlast]; [discriminate|].
    destruct (join_first v h c2) as [post Hfirst].
    destruct (join_first x (join v (h :: c2)) (List.map (join v) rest))
      as [post' Hall].
    change (join x (List.map (join v) ((p1 :: c1) :: (h :: c2) :: rest)))
      with (join v (p1 :: c1) ++ x
            ++ join x (join v (h :: c2) :: List.map (join v) rest)).
    rewrite Hall, Hfirst, Hlast, Hpre, Hz.
    replace ((pre' ++ pre ++ before) ++ x ++ ((after ++ z) ++ post) ++ post')
      with ((pre' ++ pre) ++ (before ++ x ++ after) ++ (z ++ post ++ post'))
      by (now rewrite <- !app_assoc).
    apply includes_middle.
  - destruct rest as [|c2 rest]; [discriminate|].
    change (join x (List.map (join v) (c1 :: c2 :: rest)))
      with (join v c1 ++ x ++ join x (List.map (join v) (c2 :: rest))).
    apply includes_app_r, includes_app_r. now apply IH.
Qed.

(** What stands around a placeholder of the template stands around the
    name in the rendered text. *)
Lemma placeholderBetween_rendered before after template x :
  templateOK template = true ->
  identifier x = true ->
  placeholderBetween before after template = true ->
  includes (before ++ x ++ after) (renderComponent template x) = true.
Proof.
  intros Hok Hid Hbetween. rewrite (renderComponent_join _ _ Hok Hid).
  rewrite <- (map_map (pieces componentName_token 0) (join (toLowerCase x))).
  now apply adjacent_includes.
Qed.

Lemma templates_export :
  Forall (fun t => templateExports t = true)
    [templates.simple; templates.interactive; templates.data; templates.form].
Proof. repeat constructor; vm_compute; reflexivity. Qed.

Lemma lookup_component (cwd x : jsstring) (opts : GenerationOptions)
    (t c : jsstring)
    (m : gmap jsstring jsstring) :
  finalFiles cwd x opts t c m
    !! pathJoin (componentDirOf cwd x) (componentFileName x)
  = Some (renderComponent t x).
Proof.
  unfold finalFiles. cbv zeta.
  rewrite lookup_insert_ne
    by (apply (pathJoin_ne _ x); [auto..|]; intros E; symmetry in E; revert E; apply tsx_test).
  rewrite lookup_insert_ne
    by (apply (pathJoin_ne _ x); [auto..|]; intros E; symmetry in E; revert E; apply tsx_index).
  destruct (default true (styled opts)).
  - rewrite lookup_insert_ne
      by (apply (pathJoin_ne _ x); [auto..|]; intros E; symmetry in E; revert E; apply tsx_css).
    apply lookup_insert_eq.
  - apply lookup_insert_eq.
Qed.

Lemma lookup_index (cwd x : jsstring) (opts : GenerationOptions)
    (t c : jsstring)
    (m : gmap jsstring jsstring) :
  finalFiles cwd x opts t c m !! pathJoin (componentDirOf cwd x) indexFileName
  = Some (indexContent (default true (typed opts)) x).
Proof.
  unfold finalFiles. cbv zeta.
  rewrite lookup_insert_ne by (apply (pathJoin_ne _ x); [auto..|apply test_index]).
  apply lookup_insert_eq.
Qed.

Lemma lookup_css (cwd x : jsstring) (opts : GenerationOptions)
    (t c : jsstring)
    (m : gmap jsstring jsstring) :
  finalFiles cwd x opts t c m
    !! pathJoin (componentDirOf cwd x) (cssFileName x)
  = if default true (styled opts)
    then Some (renderCss c x)
    else m !! pathJoin (componentDirOf cwd x) (cssFileName x).
Proof.
  unfold finalFiles. cbv zeta.
  rewrite lookup_insert_ne
    by (apply (pathJoin_ne _ x); [auto..|]; intros E; symmetry in E; revert E; apply css_test).
  rewrite lookup_insert_ne
    by (apply (pathJoin_ne _ x); [auto..|]; intros E; symmetry in E; revert E; apply css_index).
  destruct (default true (styled opts)).
  - apply lookup_insert_eq.
  - apply lookup_insert_ne, (pathJoin_ne _ x); [auto..|apply tsx_css].
Qed.

(** X12: the component file of a finished run imports the style sheet
    [./Name.module.css], declares [NameProps], and exports the component
    by its name and as the default, which is what the barrel file
    re-exports.  The import is there also when the run was told not to
    style the component: the style sheet path is then left as it was. *)
Theorem component_exports cwd x opts w w' :
  identifier x = true ->
  createComponent cwd x opts w = (inr tt, w') ->
  let dir := componentDirOf cwd x in
  (exists source,
     files w' !! pathJoin dir (componentFileName x) = Some source
     /\ includes (str "import styles from './" ++ x ++ str ".module.css';")
                 source = true
     /\ includes (str "export interface " ++ x ++ str "Props {") source = true
     /\ includes (str "export const " ++ x ++ str ": React.FC<") source = true
     /\ includes (str "export default " ++ x ++ str ";") source = true)
  /\ (styled opts = Some false ->
      files w' !! pathJoin dir (cssFileName x)
      = files w !! pathJoin dir (cssFileName x)).
Proof.
  intros Hid Hrun dir.
  destruct (createComponent_inr_full cwd x opts w w'
              (identifier_pathSegment _ Hid) Hrun)
    as (t & c & Ht & _ & Hfiles & _).
  apply template_selected in Ht.
  assert (Hok : templateOK t = true)
    by (pose proof templates_ok as Hall;
        rewrite List.Forall_forall in Hall; now apply Hall).
  assert (Hexp : templateExports t = true)
    by (pose proof templates_export as Hall;
        rewrite List.Forall_forall in Hall; now apply Hall).
  unfold templateExports in Hexp.
  apply andb_true_iff in Hexp as [Hexp H4].
  apply andb_true_iff in Hexp as [Hexp H3].
  apply andb_true_iff in Hexp as [H1 H2].
  split.
  - exists (renderComponent t x). rewrite Hfiles.
    split; [apply lookup_component|].
    repeat split; now apply placeholderBetween_rendered.
  - intros Hs. subst dir. rewrite Hfiles, lookup_css. now rewrite Hs.
Qed.

Lemma component_exports_witness :
  files (snd (createComponent (str "/app") (str "Button") unstyledOptions
                freshWorld))
    !! pathJoin (componentDirOf (str "/app") (str "Button"))
                (cssFileName (str "Button"))
  = files freshWorld
      !! pathJoin (componentDirOf (str "/app") (str "Button"))
                  (cssFileName (str "Button")).
Proof.
  assert (Hrun : createComponent (str "/app") (str "Button") unstyledOptions
                   freshWorld
                 = (inr tt, snd (createComponent (str "/app") (str "Button")
                                   unstyledOptions freshWorld)))
    by (vm_compute; reflexivity).
  destruct (component_exports (str "/app") (str "Button") unstyledOptions
              freshWorld _ eq_refl Hrun) as [_ Hcss].
  exact (Hcss eq_refl).
Defined.

End ScaffolderOutput.

Module ScaffolderStyleSheet.
Import JS Validator Scaffolder CommandLine ValidatorTerms ScaffolderTerms
  ScaffolderExtraTerms ScaffolderOutputTerms StringFacts TextFacts PathFacts
  ScaffolderFacts
  ScaffolderRun ScaffolderReturns ScaffolderExtras ScaffolderFrame
  ScaffolderOutput ValidatorFacts ValidatorUnits.

(** *** The style sheet of a component *)

Lemma cssTemplates_ok :
  Forall (fun c => cssTemplateOK c = true)
    [cssTemplates.simple; cssTemplates.interactive; cssTemplates.data;
     cssTemplates.form].
Proof. repeat constructor; vm_compute; reflexivity. Qed.

Lemma cssTemplate_selected ty c :
  orElse (getProperty cssTemplatesObject ty) (VString cssTemplates.simple)
  = VString c ->
  In c [cssTemplates.simple; cssTemplates.interactive; cssTemplates.data;
        cssTemplates.form].
Proof.
  unfold getProperty, cssTemplatesObject. cbn [List.find fst].
  destruct (eqs (str "simple") ty);
    [intros [= <-]; simpl; tauto|].
  destruct (eqs (str "interactive") ty);
    [intros [= <-]; simpl; tauto|].
  destruct (eqs (str "data") ty);
    [intros [= <-]; simpl; tauto|].
  destruct (eqs (str "form") ty);
    [intros [= <-]; simpl; tauto|].
  destruct (existsb _ _); [discriminate|].
  intros [= <-]; simpl; tauto.
Qed.

Lemma renderCss_join c x :
  identifier x = true ->
  renderCss c x = join (toLowerCase x) (pieces componentName_token 0 c).
Proof.
  intros [Hne Hword]%identifier_word. unfold renderCss, componentName_pattern.
  rewrite replaceAll_Lit
    by (apply word_avoids; [reflexivity|auto using toLowerCase_word]).
  symmetry.
  exact (join_pieces 123 (tl componentName_token) (toLowerCase x) c 0).
Qed.

(** The rendered style sheet: its first line and its braces. *)
Lemma renderCss_shape c x :
  cssTemplateOK c = true ->
  identifier x = true ->
  includes [123; 123] (renderCss c x) = false
  /\ exists z, renderCss c x = 46 :: toLowerCase x ++ 32 :: 123 :: LF :: z.
Proof.
  intros Hok Hid. rewrite (renderCss_join _ _ Hid).
  destruct (identifier_word _ Hid) as [Hne Hword].
  unfold cssTemplateOK in Hok. apply andb_true_iff in Hok as [Hfirst Hclean].
  split.
  - apply no_pair_join.
    + destruct x; [contradiction|discriminate].
    + apply word_avoids; [reflexivity|now apply toLowerCase_word].
    + exact Hclean.
  - destruct (pieces componentName_token 0 c) as [|first [|second rest]];
      try discriminate.
    apply andb_true_iff in Hfirst as [Hdot Hsecond].
    apply eqs_eq in Hdot. subst first.
    apply startsWith_split in Hsecond as [z Hz]. subst second.
    destruct (join_first (toLowerCase x) ((str " {" ++ [LF]) ++ z) rest)
      as [post Hpost].
    change (join (toLowerCase x)
              (str "." :: ((str " {" ++ [LF]) ++ z) :: rest))
      with (str "." ++ toLowerCase x
            ++ join (toLowerCase x) (((str " {" ++ [LF]) ++ z) :: rest)).
    rewrite Hpost. exists (z ++ post).
    change (str ".") with [46]. change (str " {") with [32; 123].
    cbn [app]. reflexivity.
Qed.

Lemma first_line l z :
  forallb isWordChar l = true ->
  hd [] (split LF (46 :: l ++ 32 :: 123 :: LF :: z)) = str "." ++ l ++ str " {".
Proof.
  intros Hword.
  change (46 :: l ++ 32 :: 123 :: LF :: z)
    with ((46 :: l) ++ [32; 123] ++ LF :: z).
  rewrite app_assoc, split_app_sep, split_none; [reflexivity|].
  cbn [app forallb]. rewrite forallb_app, (word_avoids LF) by easy.
  reflexivity.
Qed.

(** What the validator says of the line [.name {]. *)
Lemma first_line_issue l :
  l <> [] ->
  forallb isWordChar l = true ->
  In (Issue 1 (str "classNaming") classNaming_message (str "." ++ l))
     (validateLine 0 (46 :: l ++ [32; 123])).
Proof.
  intros Hne Hword.
  assert (Htrim : trim (46 :: l ++ [32; 123]) = 46 :: l ++ [32; 123]).
  { unfold trim. rewrite trimStart_keep by reflexivity.
    change (46 :: l ++ [32; 123]) with ((46 :: l) ++ [32] ++ [123]).
    rewrite app_assoc. now apply trimEnd_keep. }
  assert (Hsel : trim (hd [] (split 123 (46 :: l ++ [32; 123]))) = 46 :: l).
  { change (46 :: l ++ [32; 123]) with ((46 :: l) ++ [32] ++ 123 :: []).
    rewrite app_assoc, split_app_sep, split_none.
    - cbn [app hd]. unfold trim.
      rewrite trimStart_keep by reflexivity.
      change (46 :: l ++ [32]) with ((46 :: l) ++ [32]).
      rewrite trimEnd_drop by reflexivity.
      destruct (exists_last Hne) as (l' & c & ->).
      rewrite forallb_app in Hword.
      apply andb_true_iff in Hword as [_ Hc]. simpl in Hc.
      rewrite andb_true_r in Hc.
      change (46 :: l' ++ [c]) with ((46 :: l') ++ [c]).
      apply trimEnd_keep. now apply word_not_space.
    - cbn [app forallb]. rewrite forallb_app, (word_avoids 123) by easy.
      reflexivity. }
  unfold validateLine. cbv zeta. rewrite Htrim, Hsel.
  change (eqs (46 :: l ++ [32; 123]) []) with false.
  change (startsWith (str "/*") (46 :: l ++ [32; 123])) with false.
  change (startsWith (str "//") (46 :: l ++ [32; 123])) with false.
  cbn [orb].
  replace (includes (str "{") (46 :: l ++ [32; 123])) with true.
  - change (0 + 1)%nat with 1%nat.
    apply in_app_iff. left. apply in_app_iff. left.
    apply selectorIssues_classNaming, classNaming_rejects_dot.
  - symmetry.
    change (46 :: l ++ [32; 123]) with ((46 :: l) ++ [32] ++ str "{" ++ []).
    apply includes_app_r, includes_middle.
Qed.

Lemma stylesheet_written cwd x opts w w' :
  identifier x = true ->
  styled opts <> Some false ->
  createComponent cwd x opts w = (inr tt, w') ->
  exists c,
    cssTemplateOK c = true
    /\ files w' !! pathJoin (componentDirOf cwd x) (cssFileName x)
       = Some (renderCss c x).
Proof.
  intros Hid Hstyled Hrun.
  assert (Hs : default true (styled opts) = true)
    by (destruct (styled opts) as [[|]|]; [reflexivity|congruence|reflexivity]).
  destruct (createComponent_inr_full cwd x opts w w'
              (identifier_pathSegment _ Hid) Hrun)
    as (t & c & _ & Hc & Hfiles & _).
  specialize (Hc Hs). apply cssTemplate_selected in Hc.
  exists c. split.
  - pose proof cssTemplates_ok as Hall.
    rewrite List.Forall_forall in Hall. now apply Hall.
  - rewrite Hfiles, lookup_css. now rewrite Hs.
Qed.

(** X13: the style sheet of a finished run holds no placeholder, and
    its first line opens the rule of the class named by the lower-case
    name of the component. *)
Theorem stylesheet_clean cwd x opts w w' :
  identifier x = true ->
  styled opts <> Some false ->
  createComponent cwd x opts w = (inr tt, w') ->
  exists css,
    files w' !! pathJoin (componentDirOf cwd x) (cssFileName x) = Some css
    /\ occurrences componentName_token css = 0%nat
    /\ hd [] (split LF css) = str "." ++ toLowerCase x ++ str " {".
Proof.
  intros Hid Hstyled Hrun.
  destruct (stylesheet_written cwd x opts w w' Hid Hstyled Hrun)
    as (c & Hok & Hlookup).
  destruct (renderCss_shape c x Hok Hid) as (Hpair & z & Hz).
  destruct (identifier_word _ Hid) as [Hne Hword].
  exists (renderCss c x). split; [exact Hlookup|split].
  - apply occurrences_none.
    destruct (includes componentName_token _) eqn:E; [|reflexivity].
    apply (includes_prefix [123; 123]) in E; [congruence|reflexivity].
  - rewrite Hz. apply first_line. now apply toLowerCase_word.
Qed.

Lemma stylesheet_clean_witness :
  exists css,
    files (snd (createComponent (str "/app") (str "Card") formOptions
                  freshWorld))
      !! pathJoin (componentDirOf (str "/app") (str "Card"))
                  (cssFileName (str "Card"))
    = Some css
    /\ hd [] (split LF css) = str ".card {".
Proof.
  assert (Hrun : createComponent (str "/app") (str "Card") formOptions
                   freshWorld
                 = (inr tt, snd (createComponent (str "/app") (str "Card")
                                   formOptions freshWorld)))
    by (vm_compute; reflexivity).
  assert (Hstyled : styled formOptions <> Some false) by discriminate.
  destruct (stylesheet_clean (str "/app") (str "Card") formOptions
              freshWorld _ eq_refl Hstyled Hrun)
    as (css & Hlookup & _ & Hline).
  exists css. split; [exact Hlookup|exact Hline].
Defined.

(** X14: the style validator of the same file does not accept the style
    sheet the scaffolder writes: its first line is reported for the
    naming of the class, the selector being the dot and the lower-case
    name. *)
Theorem stylesheet_flagged cwd x opts w w' :
  identifier x = true ->
  styled opts <> Some false ->
  createComponent cwd x opts w = (inr tt, w') ->
  exists css,
    files w' !! pathJoin (componentDirOf cwd x) (cssFileName x) = Some css
    /\ In (Issue 1 (str "classNaming") classNaming_message
                 (str "." ++ toLowerCase x))
          (validateCSS css (pathJoin (componentDirOf cwd x) (cssFileName x))).
Proof.
  intros Hid Hstyled Hrun.
  destruct (stylesheet_written cwd x opts w w' Hid Hstyled Hrun)
    as (c & Hok & Hlookup).
  destruct (renderCss_shape c x Hok Hid) as (_ & z & Hz).
  destruct (identifier_word _ Hid) as [Hne Hword].
  apply toLowerCase_word in Hword.
  assert (Hne' : toLowerCase x <> [])
    by (destruct x; [contradiction|discriminate]).
  exists (renderCss c x). split; [exact Hlookup|].
  unfold validateCSS.
  apply (forEachLine_nth _ 0 0 (46 :: toLowerCase x ++ [32; 123])).
  - pose proof (first_line (toLowerCase x) z Hword) as Hfirst.
    rewrite Hz. destruct (split LF _) as [|l0 ls]; [discriminate|].
    simpl in Hfirst. now subst l0.
  - now apply first_line_issue.
Qed.

Lemma stylesheet_flagged_witness :
  exists css,
    files (snd (createComponent (str "/app") (str "Card") formOptions
                  freshWorld))
      !! pathJoin (componentDirOf (str "/app") (str "Card"))
                  (cssFileName (str "Card"))
    = Some css
    /\ In (Issue 1 (str "classNaming") classNaming_message (str ".card"))
          (validateCSS css (pathJoin (componentDirOf (str "/app") (str "Card"))
                                     (cssFileName (str "Card")))).
Proof.
  assert (Hrun : createComponent (str "/app") (str "Card") formOptions
                   freshWorld
                 = (inr tt, snd (createComponent (str "/app") (str "Card")
                                   formOptions freshWorld)))
    by (vm_compute; reflexivity).
  assert (Hstyled : styled formOptions <> Some false) by discriminate.
  destruct (stylesheet_flagged (str "/app") (str "Card") formOptions
              freshWorld _ eq_refl Hstyled Hrun)
    as (css & Hlookup & Hin).
  exists css. split; [exact Hlookup|exact Hin].
Defined.

End ScaffolderStyleSheet.

Module ScaffolderCLIFacts.
Import JS Scaffolder CommandLine ScaffolderCLI ScaffolderTerms
  ScaffolderExtraTerms StringFacts TextFacts PathFacts ScaffolderFacts ScaffolderRun
  ScaffolderReturns ScaffolderExtras ScaffolderFrame ScaffolderOutput
  ScaffolderStyleSheet ValidatorUnits.

(** *** The barrel file *)

(** X15: the barrel file of a finished run exports the component by its
    name and as the default, and names the type of its props exactly when
    the run was not told to leave the types out. *)
Theorem barrel_exports cwd x opts w w' :
  identifier x = true ->
  createComponent cwd x opts w = (inr tt, w') ->
  exists text,
    files w' !! pathJoin (componentDirOf cwd x) indexFileName = Some text
    /\ startsWith (str "export { " ++ x) text = true
    /\ includes (str "export { default } from './" ++ x ++ str "';") text
       = true
    /\ includes (str ", type " ++ x ++ str "Props") text
       = match typed opts with
         | Some false => false
         | _ => true
         end.
Proof.
  intros Hid Hrun.
  destruct (createComponent_inr_full cwd x opts w w'
              (identifier_pathSegment _ Hid) Hrun)
    as (t & c & _ & _ & Hfiles & _).
  destruct (identifier_word _ Hid) as [_ Hword].
  exists (indexContent (default true (typed opts)) x).
  rewrite Hfiles. split; [apply lookup_index|].
  assert (Hdefault : forall b,
            includes (str "export { default } from './" ++ x ++ str "';")
                     (indexContent b x) = true).
  { intros b. unfold indexContent, unlines.
    destruct b; cbn [join]; apply includes_app_r, includes_app_r;
      exact (includes_end _ []). }
  assert (Hname : forall b,
            startsWith (str "export { " ++ x) (indexContent b x) = true).
  { intros b. unfold indexContent, unlines.
    destruct b; cbn [join]; apply startsWith_app;
      rewrite startsWith_app_same; apply startsWith_self_app. }
  split; [apply Hname|split; [apply Hdefault|]].
  assert (Htyped : default true (typed opts)
                   = match typed opts with
                     | Some false => false
                     | _ => true
                     end) by now destruct (typed opts) as [[|]|].
  rewrite <- Htyped. destruct (default true (typed opts)).
  - unfold indexContent, unlines. cbn [join].
    rewrite <- !app_assoc.
    apply includes_app_r, includes_app_r, includes_start.
    rewrite !startsWith_app_same. now apply startsWith_app.
  - unfold indexContent, unlines. cbn [join].
    change (str ", type " ++ x ++ str "Props")
      with (44 :: str " type " ++ x ++ str "Props").
    apply includes_absent.
    rewrite !forallb_app, (word_avoids 44 x) by easy. reflexivity.
Qed.

Lemma barrel_exports_witness :
  exists text,
    files (snd (createComponent (str "/app") (str "Button") unstyledOptions
                  freshWorld))
      !! pathJoin (componentDirOf (str "/app") (str "Button")) indexFileName
    = Some text
    /\ includes (str ", type ButtonProps") text = true.
Proof.
  assert (Hrun : createComponent (str "/app") (str "Button") unstyledOptions
                   freshWorld
                 = (inr tt, snd (createComponent (str "/app") (str "Button")
                                   unstyledOptions freshWorld)))
    by (vm_compute; reflexivity).
  destruct (barrel_exports (str "/app") (str "Button") unstyledOptions
              freshWorld _ eq_refl Hrun)
    as (text & Hlookup & _ & _ & Htype).
  exists text. split; [exact Hlookup|exact Htype].
Defined.

(** *** The command line of the scaffolder *)

Lemma parseArg_styled o a :
  styled (parseArg o a)
  = if startsWith (str "--type=") a then styled o
    else if eqs a (str "--styled") then Some true
    else if eqs a (str "--no-styled") then Some false
    else styled o.
Proof.
  unfold parseArg.
  repeat (match goal with
          | |- context [if ?b then _ else _] => destruct b
          end; try reflexivity).
Qed.

Lemma parse_no_styled post : forall o,
  styled o = Some false ->
  (forall a, In a post -> eqs a (str "--styled") = false) ->
  styled (fold_left parseArg post o) = Some false.
Proof.
  induction post as [|a post IH]; intros o Ho Hpost; [exact Ho|].
  cbn [fold_left]. apply IH.
  - rewrite parseArg_styled, (Hpost a) by now left.
    destruct (startsWith _ a); [exact Ho|].
    destruct (eqs a (str "--no-styled")); [reflexivity|exact Ho].
  - intros b Hb. apply Hpost. now right.
Qed.

Lemma no_styled_parsed pre post :
  (forall a, In a post -> eqs a (str "--styled") = false) ->
  styled (parseOptions (pre ++ str "--no-styled" :: post)) = Some false.
Proof.
  intros Hpost. unfold parseOptions. rewrite fold_left_app. cbn [fold_left].
  apply parse_no_styled; [|exact Hpost].
  now rewrite parseArg_styled.
Qed.

Lemma main_run cwd name rest w :
  eqs name [] = false ->
  main cwd (name :: rest) w
  = match createComponent cwd name (parseOptions rest) w with
    | (inr _, w') => {| exit := 0; stderr := []; world := w' |}
    | (inl error, w') =>
        {| exit := 1;
           stderr := [ErrorWith (str "Error creating component:") error];
           world := w' |}
    end.
Proof.
  intros Hname. unfold main, argAt. cbn [nth_error missing skipn].
  now rewrite Hname.
Qed.

Lemma main_world cwd name rest w :
  eqs name [] = false ->
  world (main cwd (name :: rest) w)
  = snd (createComponent cwd name (parseOptions rest) w).
Proof.
  intros Hname. rewrite (main_run _ _ _ _ Hname).
  now destruct (createComponent _ _ _ _) as [[e|u] w'].
Qed.

(** X16: after [--no-styled], with no [--styled] behind it, the command
    line leaves the path of the style sheet as it was, whatever else the
    run does. *)
Theorem cli_no_styled cwd name pre post w :
  (forall a, In a post -> eqs a (str "--styled") = false) ->
  let run := main cwd (name :: pre ++ str "--no-styled" :: post) w in
  files (world run) !! pathJoin (componentDirOf cwd name) (cssFileName name)
  = files w !! pathJoin (componentDirOf cwd name) (cssFileName name).
Proof.
  intros Hpost run. subst run.
  destruct (eqs name []) eqn:Hname.
  - destruct name; [reflexivity|discriminate].
  - rewrite (main_world _ _ _ _ Hname).
    set (opts := parseOptions (pre ++ str "--no-styled" :: post)).
    assert (Hopts : styled opts = Some false)
      by now apply no_styled_parsed.
    apply (createComponent_keeps cwd name opts w
             (fst (createComponent cwd name opts w))).
    + apply surjective_pairing.
    + unfold writtenFiles. rewrite Hopts.
      cbn [default from_option id app In].
      intros [E|[E|[E|[]]]];
        (apply (pathJoin_inj _ name) in E; [|auto..]); revert E.
      * apply tsx_css.
      * intros E. symmetry in E. revert E. apply css_index.
      * intros E. symmetry in E. revert E. apply css_test.
Qed.

Lemma cli_no_styled_witness :
  files (world (main (str "/app")
                  (str "Button" :: [str "--styled"] ++ str "--no-styled"
                     :: [str "--typed"]) freshWorld))
    !! pathJoin (componentDirOf (str "/app") (str "Button"))
                (cssFileName (str "Button"))
  = files freshWorld
      !! pathJoin (componentDirOf (str "/app") (str "Button"))
                  (cssFileName (str "Button")).
Proof.
  apply (cli_no_styled (str "/app") (str "Button") [str "--styled"]
           [str "--typed"] freshWorld).
  intros a [<-|[]]. reflexivity.
Defined.

Lemma type_parsed v :
  nth_error (split 61 (str "--type=" ++ v)) 1 = Some (hd [] (split 61 v)).
Proof.
  change (str "--type=" ++ v) with (str "--type" ++ 61 :: v).
  rewrite split_app_sep. change (split 61 (str "--type")) with [str "--type"].
  cbn [app nth_error].
  destruct (split 61 v) eqn:E; [|reflexivity].
  now destruct (TypeGeneratorFacts.split_nonempty 61 v).
Qed.

(** X17: the value of [--type] is read up to its first [=], and a value
    that names no template is not refused: the command line then does
    what it does without the option. *)
Theorem cli_unknown_type cwd name v w :
  unknownType (hd [] (split 61 v)) = true ->
  main cwd [name; str "--type=" ++ v] w = main cwd [name] w.
Proof.
  intros Hty. destruct (eqs name []) eqn:Hname.
  - unfold main, argAt. cbn [nth_error missing]. now rewrite Hname.
  - rewrite !(main_run _ _ _ _ Hname).
    unfold parseOptions. cbn [fold_left]. unfold parseArg.
    rewrite startsWith_self_app, type_parsed. cbn [noOptions styled typed].
    now rewrite (unknown_type_run cwd name _ None None w Hty).
Qed.

Lemma cli_unknown_type_witness :
  main (str "/app") [str "Card"; str "--type=" ++ str "modal=form"] freshWorld
  = main (str "/app") [str "Card"] freshWorld.
Proof.
  exact (cli_unknown_type (str "/app") (str "Card") (str "modal=form")
           freshWorld eq_refl).
Defined.

Lemma writtenFiles_component cwd x opts p :
  In p (writtenFiles cwd x opts) -> In p (componentPaths cwd x).
Proof.
  unfold writtenFiles, componentPaths, componentFiles. cbn [List.map].
  destruct (default true (styled opts)); cbn [app In]; tauto.
Qed.

(** X18: the command line of the scaffolder ends with code 0 exactly
    when it was given a name that is not empty and [createComponent]
    returned for that name and the options of the other arguments; it
    ends with code 1 otherwise.  Without a name it touches neither a file
    nor a directory, and in no case does it change a file other than the
    four files of the component it was asked for, at the paths that
    [path.join] gives; the name, an argument of the command line, is a
    well-formed text. *)
Theorem scaffolder_exit_codes cwd args w :
  (exit (main cwd args w) = 0%nat
   <-> exists name rest w',
         args = name :: rest /\ name <> []
         /\ createComponent cwd name (parseOptions rest) w = (inr tt, w'))
  /\ (exit (main cwd args w) = 0%nat \/ exit (main cwd args w) = 1%nat)
  /\ (missing (argAt args 0) = true ->
      files (world (main cwd args w)) = files w
      /\ dirs (world (main cwd args w)) = dirs w)
  /\ (forall p,
        (forall name, argAt args 0 = Some name ->
                      wellFormed name = true
                      /\ ~ In p (componentPaths cwd name)) ->
        files (world (main cwd args w)) !! p = files w !! p).
Proof.
  destruct args as [|name rest].
  - split; [split|split; [now right|split]];
        try (intros; first [reflexivity|split; reflexivity]).
    + discriminate.
    + intros (n & r & w' & E & _). discriminate.
  - destruct (eqs name []) eqn:Hname.
    + assert (name = []) by (destruct name; [reflexivity|discriminate]).
      subst name.
      split; [split|split; [now right|split]];
        try (intros; first [reflexivity|split; reflexivity]).
      * discriminate.
      * intros (n & r & w' & [= <- <-] & Hn & _). contradiction.
    + assert (Hne : name <> []) by (intros ->; discriminate).
      pose proof (main_run cwd name rest w Hname) as Hmain.
      destruct (createComponent cwd name (parseOptions rest) w)
        as [[e|[]] w'] eqn:Hrun; rewrite Hmain; cbn [exit world].
      * split; [split|split; [now right|split]].
        -- discriminate.
        -- intros (n & r & w2 & [= <- <-] & _ & Hrun').
           rewrite Hrun in Hrun'. discriminate.
        -- intros Hm. unfold argAt, missing in Hm. cbn [nth_error] in Hm.
           congruence.
        -- intros p Hp. apply (createComponent_keeps _ _ _ _ _ _ Hrun).
           intros Hin%writtenFiles_component. now apply (Hp name eq_refl).
      * split; [split|split; [now left|split]].
        -- intros _. now exists name, rest, w'.
        -- reflexivity.
        -- intros Hm. unfold argAt, missing in Hm. cbn [nth_error] in Hm.
           congruence.
        -- intros p Hp. apply (createComponent_keeps _ _ _ _ _ _ Hrun).
           intros Hin%writtenFiles_component. now apply (Hp name eq_refl).
Qed.

Lemma scaffolder_exit_codes_witness :
  files (world (main (str "/app") [] freshWorld)) = files freshWorld.
Proof.
  exact (proj1 (proj1 (proj2 (proj2 (scaffolder_exit_codes (str "/app") []
                                       freshWorld)))
                  eq_refl)).
Defined.

End ScaffolderCLIFacts.

Module GraphQLFacts.
Import JS TypeGenerator RegexTerms TypeGeneratorTerms TypeGeneratorExtraTerms
  StringFacts TextFacts RegexFacts TypeGeneratorFacts.

(** *** The pattern of a field line *)

Lemma rmatch_Bol_start k s cs :
  rmatch Bol k (MState [] s cs) = k (MState [] s cs).
Proof. reflexivity. Qed.

Lemma rmatch_Alt r1 r2 k st :
  rmatch (Alt r1 r2) k st
  = match rmatch r1 k st with
    | Some e => Some e
    | None => rmatch r2 k st
    end.
Proof. reflexivity. Qed.

Lemma rmatch_Eps k st : rmatch Eps k st = k st.
Proof. reflexivity. Qed.

Lemma consumed_app pre pre' text rest cs cs' :
  consumed (MState pre (text ++ rest) cs) (MState pre' rest cs') = text.
Proof.
  unfold consumed. cbn [after]. rewrite length_app.
  replace (length text + length rest - length rest)%nat with (length text)
    by lia.
  now rewrite firstn_app, Nat.sub_diag, firstn_all, app_nil_r.
Qed.

Lemma consumed_same pre pre' rest cs cs' :
  consumed (MState pre rest cs) (MState pre' rest cs') = [].
Proof. unfold consumed. cbn [after]. now rewrite Nat.sub_diag. Qed.

Lemma execFrom_here r pre rest m :
  matchHere r pre rest = Some m -> execFrom r pre rest = Some m.
Proof. intros Hm. destruct rest; simpl; now rewrite Hm. Qed.

Lemma nonempty_eqs s : negb (eqs s []) = true -> s <> [].
Proof. now destruct s. Qed.

(** A greedy run of a class, followed by what stops the class, goes on
    with the whole run when the rest of the pattern matches there. *)
Lemma star_run p k pre run rest cs e :
  forallb p run = true -> stops p rest = true ->
  k (MState (rev run ++ pre) rest cs) = Some e ->
  rmatch (Star (Chr p)) k (MState pre (run ++ rest) cs) = Some e.
Proof.
  intros Hrun Hrest Hk. rewrite rmatch_star_chr. cbn [after before caps].
  destruct (span_unique p run rest Hrun Hrest) as [-> ->].
  now apply backtrack_first.
Qed.

(** The same for one or more of the class. *)
Lemma plus_run p k pre c run rest cs e :
  p c = true -> forallb p run = true -> stops p rest = true ->
  k (MState (rev run ++ c :: pre) rest cs) = Some e ->
  rmatch (Plus (Chr p)) k (MState pre (c :: run ++ rest) cs) = Some e.
Proof.
  intros Hc Hrun Hrest Hk. unfold Plus.
  rewrite rmatch_Seq, rmatch_Chr. cbn [after before caps]. rewrite Hc.
  now apply star_run.
Qed.

(** The optional exclamation mark before the colon. *)
Lemma mark_match mk k pre rest cs e :
  eqs mk [] || eqs mk (str "!") = true ->
  k (MState (rev mk ++ pre) (58 :: rest) ((2%nat, mk) :: cs)) = Some e ->
  rmatch (Group 2 (Opt (Chr (N.eqb 33)))) k (MState pre (mk ++ 58 :: rest) cs)
  = Some e.
Proof.
  intros Hmk Hk. rewrite rmatch_Group. unfold Opt. rewrite rmatch_Alt.
  apply orb_true_iff in Hmk as [->%eqs_eq| ->%eqs_eq].
  - rewrite rmatch_Chr. cbn [app after]. change (33 =? 58) with false.
    cbv iota. rewrite rmatch_Eps. cbn beta. cbn [before after caps].
    rewrite consumed_same. cbn [rev app] in Hk. now rewrite Hk.
  - change (str "!") with [33] in *. rewrite rmatch_Chr.
    cbn [app after before caps]. change (33 =? 33) with true.
    cbv iota beta. cbn [before after caps].
    change (33 :: 58 :: rest) with ([33] ++ 58 :: rest).
    rewrite consumed_app. cbn [rev app] in Hk. now rewrite Hk.
Qed.

Lemma field_rmatch f :
  fieldLineOK f = true ->
  exists pre,
    rmatch field_pattern Some (MState [] (lineOf f) [])
    = Some (MState pre (trailer f)
              [(3%nat, fieldType f); (2%nat, mark f); (1%nat, fieldName f)]).
Proof.
  unfold fieldLineOK, lineOf.
  destruct f as [ind nm mk gp ty tr]. cbn [indentation fieldName mark gap
    fieldType trailer].
  intros Hok.
  apply andb_true_iff in Hok as [Hok Htr].
  apply andb_true_iff in Hok as [Hok Hty].
  apply andb_true_iff in Hok as [Hok Hty0%nonempty_eqs].
  apply andb_true_iff in Hok as [Hok Hgp].
  apply andb_true_iff in Hok as [Hok Hmk].
  apply andb_true_iff in Hok as [Hok Hnm].
  apply andb_true_iff in Hok as [Hind Hnm0%nonempty_eqs].
  destruct nm as [|n0 nm]; [contradiction|].
  destruct ty as [|t0 ty]; [contradiction|].
  cbn [forallb] in Hnm, Hty.
  apply andb_true_iff in Hnm as [Hn0 Hnm].
  apply andb_true_iff in Hty as [Ht0 Hty].
  eexists. unfold field_pattern.
  rewrite rmatch_Seq, rmatch_Bol_start, rmatch_Seq.
  apply star_run; [exact Hind|cbn [app stops]|].
  { now rewrite (word_not_space _ Hn0). }
  rewrite rmatch_Seq, rmatch_Group.
  change ((n0 :: nm) ++ mk ++ 58 :: gp ++ (t0 :: ty) ++ tr)
    with (n0 :: nm ++ (mk ++ 58 :: gp ++ (t0 :: ty) ++ tr)).
  apply plus_run; [exact Hn0|exact Hnm| |].
  { apply orb_true_iff in Hmk as [->%eqs_eq| ->%eqs_eq]; reflexivity. }
  cbn beta. cbn [before after caps].
  change (n0 :: nm ++ mk ++ 58 :: gp ++ (t0 :: ty) ++ tr)
    with ((n0 :: nm) ++ mk ++ 58 :: gp ++ (t0 :: ty) ++ tr).
  rewrite consumed_app, rmatch_Seq.
  apply mark_match; [exact Hmk|].
  rewrite rmatch_Seq, rmatch_Chr.
  cbn [after before caps]. change (58 =? 58) with true. cbv iota.
  rewrite rmatch_Seq.
  apply star_run; [exact Hgp|cbn [app stops]; exact Ht0|].
  rewrite rmatch_Group. cbn [app].
  apply (plus_run (fun c => negb (isWhiteSpace c)));
    [exact Ht0|exact Hty|exact Htr|].
  cbn beta. cbn [before after caps].
  change (t0 :: ty ++ tr) with ((t0 :: ty) ++ tr).
  rewrite consumed_app. reflexivity.
Qed.

(** What [exec] returns on a field line: the match begins at the start
    of the line and its three groups are the name, the mark and the
    type. *)
Lemma field_exec f :
  fieldLineOK f = true ->
  exists m,
    exec field_pattern (lineOf f) = Some m
    /\ groups m
       = [(3%nat, fieldType f); (2%nat, mark f); (1%nat, fieldName f)].
Proof.
  intros Hok. destruct (field_rmatch f Hok) as [pre Hpre].
  eexists. split.
  - unfold exec. apply execFrom_here. unfold matchHere. rewrite Hpre.
    reflexivity.
  - reflexivity.
Qed.

(** *** Lines that are not blank *)

Lemma existsb_trimStart s :
  existsb notBlank (trimStart s) = existsb notBlank s.
Proof.
  induction s as [|c s IH]; [reflexivity|]. cbn [trimStart existsb].
  unfold notBlank at 2. destruct (isWhiteSpace c) eqn:E; [exact IH|].
  cbn [existsb]. unfold notBlank at 1. now rewrite E.
Qed.

Lemma existsb_reverse (p : N -> bool) s : existsb p (rev s) = existsb p s.
Proof.
  induction s as [|c s IH]; [reflexivity|].
  cbn [rev existsb]. rewrite existsb_app, IH. cbn [existsb].
  now rewrite orb_false_r, orb_comm.
Qed.

Lemma trim_nonblank s :
  existsb notBlank s = true -> eqs (trim s) [] = false.
Proof.
  intros Hs.
  assert (Ht : existsb notBlank (trim s) = true).
  { unfold trim, trimEnd.
    now rewrite existsb_reverse, existsb_trimStart, existsb_reverse,
      existsb_trimStart. }
  now destruct (trim s).
Qed.

Lemma field_word f :
  forallb isWordChar (fieldName f) = true ->
  fieldName f <> [] ->
  exists c nm, fieldName f = c :: nm /\ isWordChar c = true.
Proof.
  destruct (fieldName f) as [|c nm]; [contradiction|]. cbn [forallb].
  intros [Hc _]%andb_true_iff _. now exists c, nm.
Qed.

Section Block.
Context `{Numbers}.

(** The step of the loop on a field line inside the block. *)
Lemma field_step typeName f rest :
  blockField typeName f = true ->
  graphqlProperties typeName true (lineOf f :: rest)
  = propertyOfLine f :: graphqlProperties typeName true rest.
Proof.
  unfold blockField. intros Hf.
  apply andb_true_iff in Hf as [Hf Hbrace%negb_true_iff].
  apply andb_true_iff in Hf as [Hok Hmarker%negb_true_iff].
  destruct (field_exec f Hok) as (m & Hexec & Hgroups).
  cbn [graphqlProperties]. rewrite Hmarker, Hbrace, Hexec, Hgroups.
  unfold fieldLineOK in Hok.
  do 5 (apply andb_true_iff in Hok as [Hok _]).
  apply andb_true_iff in Hok as [Hok Hword].
  apply andb_true_iff in Hok as [Hind Hname%nonempty_eqs].
  destruct (field_word f Hword Hname) as (c & nm & Hnm & Hc).
  assert (Hnonblank : eqs (trim (lineOf f)) [] = false).
  { apply trim_nonblank. unfold lineOf. rewrite Hnm.
    rewrite existsb_app. cbn [app existsb]. unfold notBlank at 2.
    rewrite (word_not_space _ Hc). cbn [negb orb]. apply orb_true_r. }
  assert (Hhash : startsWith (str "#") (lineOf f) = false).
  { unfold lineOf. rewrite Hnm. change (str "#") with [35].
    destruct (indentation f) as [|b ind]; cbn [app startsWith forallb] in *.
    - destruct (35 =? c) eqn:E; [|reflexivity].
      apply N.eqb_eq in E. subst c. vm_compute in Hc. discriminate.
    - destruct (35 =? b) eqn:E; [|reflexivity].
      apply N.eqb_eq in E. subst b.
      change (isWhiteSpace 35) with false in Hind. discriminate. }
  rewrite Hnonblank, Hhash. cbn [negb andb capture Nat.eqb].
  reflexivity.
Qed.

(** The text of the property of a field line. *)
Lemma propertyOfLine_text f :
  propertyText (propertyOfLine f) = inr (declarationOf f).
Proof. reflexivity. Qed.

Lemma block_fields typeName fs :
  forallb (blockField typeName) fs = true ->
  graphqlProperties typeName true (List.map lineOf fs)
  = List.map propertyOfLine fs.
Proof.
  induction fs as [|f fs IH]; [reflexivity|]. cbn [forallb List.map].
  intros [Hf Hfs]%andb_true_iff. now rewrite field_step, IH.
Qed.

Lemma block_texts fs :
  mapM propertyText (List.map propertyOfLine fs)
  = inr (List.map declarationOf fs).
Proof.
  induction fs as [|f fs IH]; [reflexivity|].
  cbn [List.map mapM]. now rewrite propertyOfLine_text, IH.
Qed.

(** The lines before the first line with the marker, that line itself
    and the lines from the end of the block on count for nothing. *)
Lemma block_skip typeName body tail :
  forallb (insideBlock typeName) body = true ->
  blockEnd typeName tail = true ->
  graphqlProperties typeName true (body ++ tail)
  = graphqlProperties typeName true body.
Proof.
  intros Hbody Htail. induction body as [|ln body IH].
  - destruct tail as [|closing rest]; [reflexivity|].
    cbn [app graphqlProperties]. unfold blockEnd in Htail.
    apply andb_true_iff in Htail as [->%negb_true_iff ->]. reflexivity.
  - cbn [forallb] in Hbody. apply andb_true_iff in Hbody as [Hln Hbody].
    specialize (IH Hbody). cbn [app graphqlProperties].
    destruct (includes (typeMarker typeName) ln) eqn:Hmarker; [exact IH|].
    unfold insideBlock in Hln. rewrite Hmarker in Hln. cbn [orb] in Hln.
    apply negb_true_iff in Hln. rewrite Hln.
    destruct (negb (eqs (trim ln) []) && negb (startsWith (str "#") ln));
      [|exact IH].
    destruct (exec field_pattern ln) as [m|]; [|exact IH].
    destruct (capture 1 (groups m)); [|exact IH].
    destruct (capture 2 (groups m)); [|exact IH].
    destruct (capture 3 (groups m)); [|exact IH].
    now rewrite IH.
Qed.

Lemma block_lines typeName pre hdr body tail :
  forallb (fun ln => negb (includes (typeMarker typeName) ln)) pre = true ->
  includes (typeMarker typeName) hdr = true ->
  forallb (insideBlock typeName) body = true ->
  blockEnd typeName tail = true ->
  graphqlProperties typeName false (pre ++ hdr :: body ++ tail)
  = graphqlProperties typeName true body.
Proof.
  intros Hpre Hhdr Hbody Htail. induction pre as [|ln pre IH].
  - cbn [app graphqlProperties]. rewrite Hhdr. now apply block_skip.
  - cbn [forallb] in Hpre.
    apply andb_true_iff in Hpre as [Hln%negb_true_iff Hpre].
    cbn [app graphqlProperties]. rewrite Hln. now apply IH.
Qed.

Lemma block_found typeName pre hdr rest :
  includes (typeMarker typeName) hdr = true ->
  existsb (includes (typeMarker typeName)) (pre ++ hdr :: rest) = true.
Proof.
  intros Hhdr. rewrite existsb_app. cbn [existsb]. rewrite Hhdr.
  apply orb_true_r.
Qed.

(** X19: a field line inside the block of the type, its name followed
    by a colon and a type, gives one property: its name is the name of
    the field, its type is the type without its first exclamation mark,
    and it is required only when an exclamation mark stands between the
    name and the colon.  The non-null mark of GraphQL, which follows the
    type, makes no field required. *)
Theorem graphql_field_line typeName f rest :
  blockField typeName f = true ->
  graphqlProperties typeName true (lineOf f :: rest)
  = propertyOfLine f :: graphqlProperties typeName true rest
  /\ propertyText (propertyOfLine f)
     = inr (str "  " ++ fieldName f
              ++ (if eqs (mark f) (str "!") then [] else str "?")
              ++ str ": " ++ removeFirst 33 (fieldType f) ++ str ";").
Proof. intros Hf. split; [now apply field_step|reflexivity]. Qed.

(** X20: only the first block counts.  Of a schema text, the generator
    reads the lines after the first line that holds [type N], up to the
    next line with a closing brace that does not hold [type N] itself;
    the lines before, the line with the marker and everything from the
    closing line on add nothing. *)
Theorem graphql_first_block schema typeName pre hdr body tail :
  split LF schema = pre ++ hdr :: body ++ tail ->
  forallb (fun ln => negb (includes (typeMarker typeName) ln)) pre = true ->
  includes (typeMarker typeName) hdr = true ->
  forallb (insideBlock typeName) body = true ->
  blockEnd typeName tail = true ->
  generateFromGraphQL schema typeName
  = generateTypeScriptTypes
      {| schemaName := typeName;
         properties := graphqlProperties typeName true body;
         interfaces := Some [] |}.
Proof.
  intros Hlines Hpre Hhdr Hbody Htail. unfold generateFromGraphQL.
  cbv zeta. rewrite Hlines, (block_found _ _ _ _ Hhdr). cbn [negb].
  now rewrite block_lines.
Qed.

(** X21: the text for a block of field lines.  When the lines of the
    first block are field lines, the generator returns the two
    interfaces with one declaration per line, in the order of the
    lines. *)
Theorem graphql_block_output schema typeName pre hdr fs tail :
  split LF schema = pre ++ hdr :: List.map lineOf fs ++ tail ->
  forallb (fun ln => negb (includes (typeMarker typeName) ln)) pre = true ->
  includes (typeMarker typeName) hdr = true ->
  forallb (blockField typeName) fs = true ->
  blockEnd typeName tail = true ->
  generateFromGraphQL schema typeName
  = inr (twoInterfaces typeName (join [LF] (List.map declarationOf fs))).
Proof.
  intros Hlines Hpre Hhdr Hfs Htail. unfold generateFromGraphQL.
  cbv zeta. rewrite Hlines, (block_found _ _ _ _ Hhdr). cbn [negb].
  rewrite block_lines; [|assumption|assumption| |assumption].
  - rewrite (block_fields _ _ Hfs), generateTypeScriptTypes_text.
    now rewrite block_texts.
  - rewrite ScaffolderFacts.forallb_map. rewrite forallb_forall in Hfs |- *.
    intros f Hin. specialize (Hfs f Hin). unfold blockField in Hfs.
    apply andb_true_iff in Hfs as [_ Hbrace]. unfold insideBlock.
    rewrite Hbrace. apply orb_true_r.
Qed.

End Block.

Lemma graphql_field_line_witness :
  @graphqlProperties naturals (str "User") true [lineOf idField]
  = [@propertyOfLine naturals idField].
Proof.
  exact (proj1 (@graphql_field_line naturals (str "User") idField []
                  eq_refl)).
Defined.

Lemma graphql_first_block_witness :
  @generateFromGraphQL naturals userSchema (str "User")
  = @generateTypeScriptTypes naturals
      {| schemaName := str "User";
         properties :=
           @graphqlProperties naturals (str "User") true
             [str "  id: ID!"; str "  name: String"];
         interfaces := Some [] |}.
Proof.
  exact (@graphql_first_block naturals userSchema (str "User") []
           (str "type User {") [str "  id: ID!"; str "  name: String"]
           [str "}"] eq_refl eq_refl eq_refl eq_refl eq_refl).
Defined.

Lemma graphql_block_output_witness :
  @generateFromGraphQL naturals userSchema (str "User")
  = inr (twoInterfaces (str "User")
           (join [LF] (List.map declarationOf [idField; nameField]))).
Proof.
  exact (@graphql_block_output naturals userSchema (str "User") []
           (str "type User {") [idField; nameField] [str "}"]
           eq_refl eq_refl eq_refl eq_refl eq_refl).
Defined.

End GraphQLFacts.

Module JsonFacts.
Import JS TypeGenerator TypeGeneratorTerms TypeGeneratorExtraTerms
  StringFacts TextFacts TypeGeneratorFacts.

Section Json.
Context `{Numbers}.

(** *** The exact text for a schema document *)

Lemma propertyText_exact schema entry :
  propertySchema (snd entry) = true ->
  propertyText (tableProperty schema entry) = inr (fieldText schema entry).
Proof.
  destruct entry as [key prop]. cbn [fst snd].
  unfold propertyText, tableProperty, fieldText, fieldDeclaration, commentOf.
  cbn [name type required description fst snd].
  destruct prop as [| | | | |members]; try discriminate; try reflexivity.
  unfold propertySchema. intros [_ Hdesc]%andb_true_iff.
  cbn [memberOf] in *.
  destruct (lookupMember (str "description") members) as [[| | |d| |]|];
    try discriminate; [|reflexivity].
  cbn [truthy toString]. destruct (eqs d []); cbn [negb]; [reflexivity|].
  now rewrite <- !app_assoc.
Qed.

Lemma mapM_propertyText_exact schema entries :
  forallb (fun e => propertySchema (snd e)) entries = true ->
  mapM propertyText (List.map (tableProperty schema) entries)
  = inr (List.map (fieldText schema) entries).
Proof.
  induction entries as [|e entries IH]; [reflexivity|].
  cbn [forallb List.map mapM]. intros [He Hrest]%andb_true_iff.
  now rewrite (propertyText_exact _ _ He), IH.
Qed.

Lemma generateFromJSON_exact schema typeName :
  schemaDocument schema = true ->
  generateFromJSON schema typeName
  = inr (twoInterfaces typeName
           (join [LF] (List.map (fieldText schema) (schemaProperties schema)))).
Proof.
  intros Hdoc. unfold generateFromJSON.
  rewrite (JsonSchemaClaims.jsonProperties_table _ Hdoc).
  rewrite generateTypeScriptTypes_text.
  rewrite mapM_propertyText_exact
    by now apply JsonSchemaClaims.schemaProperties_wf.
  reflexivity.
Qed.

(** X22: the text for a schema document.  The generator returns the two
    interfaces whose lines are, property by property in the order of the
    property map, the description as a comment, when it is a text that is
    not empty, and the declaration of the field. *)
Theorem json_exact_output schema typeName :
  schemaDocument schema = true ->
  generateFromJSON schema typeName
  = inr (twoInterfaces typeName
           (join [LF] (List.map (fieldText schema) (schemaProperties schema)))).
Proof. apply generateFromJSON_exact. Qed.

(** *** What the generator throws *)

Lemma toString_array e0 rest :
  toString (JArray (e0 :: rest))
  = match (match e0 with JNull => inr [] | _ => toString e0 end) with
    | inl err => inl err
    | inr s =>
        match rest with
        | [] => inr s
        | _ :: _ =>
            match toString (JArray rest) with
            | inl err => inl err
            | inr t => inr (s ++ str "," ++ t)
            end
        end
    end.
Proof. reflexivity. Qed.

Lemma toString_error v : forall e, toString v = inl e -> e = TypeError.
Proof.
  induction v as [|b|n|s|elements IH|members] using JSON_induction;
    intros e; try discriminate.
  - destruct b; discriminate.
  - induction IH as [|e0 rest He0 _ IHrest]; [discriminate|].
    rewrite toString_array.
    assert (Hhead : forall r,
              match e0 with JNull => inr [] | _ => toString e0 end = inl r ->
              r = TypeError)
      by (destruct e0; try discriminate; apply He0).
    destruct (match e0 with JNull => inr [] | _ => toString e0 end)
      as [r|s0].
    + intros [= <-]. now apply Hhead.
    + destruct rest as [|e1 rest']; [discriminate|].
      destruct (toString (JArray (e1 :: rest'))) as [r|t]; [|discriminate].
      intros [= <-]. now apply IHrest.
  - cbn [toString]. destruct (lookupMember _ members); [|discriminate].
    now intros [= <-].
Qed.

Lemma getMember_error v key e : getMember v key = inl e -> e = TypeError.
Proof. destruct v; try discriminate. now intros [= <-]. Qed.

Lemma isRequired_error schema key e :
  isRequired schema key = inl e -> e = TypeError.
Proof.
  unfold isRequired.
  destruct (getMember schema (str "required")) as [r|[[| | | | |]|]] eqn:E;
    try discriminate; try (now intros [= <-]).
  intros [= <-]. eapply getMember_error. eassumption.
Qed.

Lemma tsTypeOf_error prop e : tsTypeOf prop = inl e -> e = TypeError.
Proof.
  unfold tsTypeOf.
  destruct (getMember prop (str "type")) as [r|[[| | |t| |]|]] eqn:E;
    try discriminate.
  - intros [= <-]. eapply getMember_error. eassumption.
  - destruct (eqs t (str "string")); [discriminate|].
    destruct (eqs t (str "number")); [discriminate|].
    destruct (eqs t (str "boolean")); [discriminate|].
    destruct (eqs t (str "array")).
    + set (itemType := getMemberOpt _ (str "type")).
      destruct (truthy itemType); [|discriminate].
      destruct itemType as [v|]; [|discriminate].
      destruct (toString v) as [r|s] eqn:Ev; [|discriminate].
      intros [= <-]. eapply toString_error. eassumption.
    + destruct (eqs t (str "object")); [|discriminate].
      destruct (truthy _); discriminate.
Qed.

Lemma propertyOfEntry_error schema entry e :
  propertyOfEntry schema entry = inl e -> e = TypeError.
Proof.
  destruct entry as [key prop]. unfold propertyOfEntry.
  destruct (isRequired schema key) as [r|b] eqn:E.
  - intros [= <-]. eapply isRequired_error. eassumption.
  - destruct (tsTypeOf prop) as [r|t] eqn:Et; [|discriminate].
    intros [= <-]. eapply tsTypeOf_error. eassumption.
Qed.

Lemma mapM_error {A B} (f : A -> Result B) l e :
  (forall a r, f a = inl r -> r = TypeError) ->
  mapM f l = inl e -> e = TypeError.
Proof.
  intros Hf. induction l as [|a l IH]; [discriminate|]. cbn [mapM].
  destruct (f a) as [r|b] eqn:E.
  - intros [= <-]. eapply Hf. eassumption.
  - destruct (mapM f l) as [r|bs]; [|discriminate].
    intros [= <-]. now apply IH.
Qed.

Lemma mapM_fails {A B} (f : A -> Result B) l a r :
  In a l -> f a = inl r -> exists e, mapM f l = inl e.
Proof.
  intros Hin Ha. induction l as [|b l IH]; [contradiction|]. cbn [mapM].
  destruct Hin as [->|Hin].
  - rewrite Ha. eauto.
  - destruct (f b); [eauto|]. destruct (IH Hin) as [e ->]. eauto.
Qed.

Lemma propertyText_error prop e : propertyText prop = inl e -> e = TypeError.
Proof.
  unfold propertyText. destruct (truthy (description prop)); [|discriminate].
  destruct (description prop) as [d|]; [|discriminate].
  destruct (toString d) as [r|s] eqn:E; [|discriminate].
  intros [= <-]. eapply toString_error. eassumption.
Qed.

Lemma jsonProperties_error schema e :
  jsonProperties schema = inl e -> e = TypeError.
Proof.
  unfold jsonProperties.
  destruct (getMember schema (str "properties")) as [r|props] eqn:E.
  - intros [= <-]. eapply getMember_error. eassumption.
  - destruct (truthy props); [|discriminate].
    destruct props as [p|]; [|discriminate].
    apply mapM_error. intros a r. apply propertyOfEntry_error.
Qed.

Lemma generateFromJSON_error schema typeName e :
  generateFromJSON schema typeName = inl e -> e = TypeError.
Proof.
  unfold generateFromJSON.
  destruct (jsonProperties schema) as [r|props] eqn:E.
  - intros [= <-]. eapply jsonProperties_error. eassumption.
  - rewrite generateTypeScriptTypes_text.
    destruct (mapM propertyText props) as [r|texts] eqn:Et; [|discriminate].
    intros [= <-]. eapply mapM_error; [|eassumption].
    intros a r'. apply propertyText_error.
Qed.

(** X23: what [generateFromJSON] throws is a [TypeError] of the runtime,
    never an error with a message of its own; it throws one for the
    schema [null] and for a schema one of whose properties is [null]. *)
Theorem json_failures schema typeName :
  (forall e, generateFromJSON schema typeName = inl e -> e = TypeError)
  /\ (schema = JNull -> generateFromJSON schema typeName = inl TypeError)
  /\ (forall members props key,
        schema = JObject members ->
        lookupMember (str "properties") members = Some (JObject props) ->
        In (key, JNull) props ->
        generateFromJSON schema typeName = inl TypeError).
Proof.
  split; [intros e; apply generateFromJSON_error|split].
  - intros ->. reflexivity.
  - intros members props key -> Hprops Hin.
    assert (Hentry : exists r,
              propertyOfEntry (JObject members) (key, JNull) = inl r).
    { unfold propertyOfEntry.
      destruct (isRequired (JObject members) key); eauto. }
    destruct Hentry as [r Hentry].
    destruct (mapM_fails _ _ _ _ Hin Hentry) as [e He].
    assert (Hrun : generateFromJSON (JObject members) typeName = inl e).
    { unfold generateFromJSON, jsonProperties, getMember.
      rewrite Hprops. cbn [truthy entries]. now rewrite He. }
    rewrite Hrun. f_equal. eapply generateFromJSON_error. eassumption.
Qed.

End Json.

Lemma json_exact_output_witness :
  @generateFromJSON naturals describedSchema (str "Item")
  = inr (str "export interface Item {
  /** The key */
  id: string;
  tags?: string[];
}

export interface ItemProps {
  /** The key */
  id: string;
  tags?: string[];
}
").
Proof.
  exact (@json_exact_output naturals describedSchema (str "Item") eq_refl).
Defined.

Lemma json_failures_witness :
  @generateFromJSON naturals nullPropertySchema (str "Item") = inl TypeError.
Proof.
  exact (proj2 (proj2 (@json_failures naturals nullPropertySchema
                         (str "Item")))
           _ _ (str "id") eq_refl eq_refl (or_introl eq_refl)).
Defined.

End JsonFacts.

Module TypeGeneratorCLIFacts.
Import JS TypeGenerator CommandLine TypeGeneratorCLI TypeGeneratorTerms
  TypeGeneratorExtraTerms StringFacts TextFacts TypeGeneratorFacts.

Section Main.
Context `{Numbers}.

(** *** The command line of the type generator *)

Lemma outputFileOf_default file typeName :
  outputFileOf [file; typeName] = toLowerCase typeName ++ str ".ts".
Proof. reflexivity. Qed.




(** X25: a run of the type generator ends with code 0, having written
    exactly the text that was generated and nothing on the error output,
    or with code 1, having written no file; this is stated for a type
    name in ASCII when the name of the output file is made from it.  A
    run ends with code 1 in particular for an unknown command and, for
    the command [graphql], when no line of the schema holds [type N]. *)
Theorem typegen_exit_codes env args :
  (outputNamed (skipn 1 args) = true ->
   (exit (main env args) = 0%nat
    /\ stderr (main env args) = []
    /\ exists output,
         generate env (default [] (argAt args 0)) (skipn 1 args) = inr output
         /\ written (main env args)
            = [(outputFileOf (skipn 1 args), output)])
   \/ (exit (main env args) = 1%nat
       /\ written (main env args) = []
       /\ stderr (main env args) <> []))
  /\ (forall command rest,
        args = command :: rest ->
        (1 <= length rest)%nat ->
        eqs command (str "json") = false ->
        eqs command (str "graphql") = false ->
        main env args
        = failure (Thrown (ErrorMessage (str "Unknown command: " ++ command))))
  /\ (forall file typeName more content,
        args = str "graphql" :: file :: typeName :: more ->
        eqs file [] = false ->
        eqs typeName [] = false ->
        readFileSync env file = Validator.ReadOk content ->
        (forall ln, In ln (split LF content) ->
                    includes (typeMarker typeName) ln = false) ->
        main env args
        = failure (Thrown (ErrorMessage (notFound typeName)))).
Proof.
  split; [|split].
  - intros _. unfold main. destruct (length args <? 2)%nat.
    + right. cbn [exit written stderr]. easy.
    + destruct (generate env _ _) as [c|output] eqn:Hgen.
      * right. cbn [failure exit written stderr]. easy.
      * destruct (writeError env _) as [msg|].
        -- right. cbn [failure exit written stderr]. easy.
        -- left. cbn [exit written stderr]. eauto.
  - intros command rest -> Hrest Hjson Hgraphql. unfold main.
    destruct rest as [|a rest]; [simpl in Hrest; lia|].
    cbn [length Nat.ltb Nat.leb skipn argAt nth_error default from_option id].
    unfold generate. now rewrite Hjson, Hgraphql.
  - intros file typeName more content -> Hfile Hname Hread Hnone.
    unfold main.
    cbn [length Nat.ltb Nat.leb skipn argAt nth_error default from_option id].
    unfold generate, argAt.
    cbn [nth_error missing default from_option id]. rewrite Hfile, Hname.
    change (eqs (str "graphql") (str "json")) with false.
    change (eqs (str "graphql") (str "graphql")) with true. cbn [orb].
    rewrite Hread. unfold generateFromGraphQL. cbv zeta.
    replace (existsb (includes (typeMarker typeName)) (split LF content))
      with false; [reflexivity|].
    symmetry. apply not_true_is_false.
    intros (ln & Hin & Hln)%existsb_exists.
    rewrite (Hnone ln Hin) in Hln. discriminate.
Qed.

End Main.


Lemma typegen_exit_codes_witness :
  main sampleEnv [str "yaml"; str "item.yaml"]
  = failure (Thrown (ErrorMessage (str "Unknown command: yaml")))
  /\ exit (main sampleEnv [str "json"; str "item.json"; str "Item"]) = 0%nat.
Proof.
  split.
  - apply (proj1 (proj2 (@typegen_exit_codes naturals sampleEnv
                           [str "yaml"; str "item.yaml"]))
             (str "yaml") [str "item.yaml"] eq_refl).
    + simpl. lia.
    + reflexivity.
    + reflexivity.
  - destruct (proj1 (@typegen_exit_codes naturals sampleEnv
                       [str "json"; str "item.json"; str "Item"]) eq_refl)
      as [(Hexit & _)|(Hexit & _)]; [exact Hexit|discriminate Hexit].
Defined.

End TypeGeneratorCLIFacts.
